(** * Voice platform: the per-call voice session engine

    A shallow embedding of [apps/voice-engine/src/session.ts] (class
    [VoiceSession]), of the tool executor it drives
    ([tools/executor.ts]) and of the WebSocket route that creates the
    session ([index.ts]), followed by the properties of the engine that
    the specification states about them.

    Conventions of the embedding.
    - JavaScript numbers that hold integers (timestamps, lengths,
      counters, PCM samples) are [Z]; the one place where a fraction is
      compared ([avgEnergy > 200]) uses exact rationals and an explicit
      [NaN]; the cost computation uses IEEE-754 binary64 numbers.
    - [this.*] fields live in the record [Session]; everything outside
      the object the code acts on (socket, database, file system, logger,
      in-flight provider requests, timers, registry) lives in [World].
    - Methods are computations in a state-and-exception monad [M]: a
      mutation done before a [throw] stays done, as in JavaScript.
    - An [async] method is cut at the [await]s that wait for a provider
      (STT, LLM, TTS) and at [setTimeout]: the part before the [await]
      registers the request in [pending], the part after it is run by the
      event that delivers the answer.  Awaited database, file-system and
      tool-server calls are taken to complete at once, the first two
      successfully.
    - One handler runs at one reading of the clock: every [Date.now()]
      in it returns the time of the event that started it.
    - [logger.info] calls carry no behaviour and are left out;
      [logger.warn] and [logger.error] are recorded. *)

From Stdlib Require Import ZArith List String Ascii Bool Lia QArith.
From Stdlib Require Import PrimFloat SpecFloat FloatOps Uint63.
From Equations Require Import Equations.
Import ListNotations.

Local Open Scope string_scope.
Local Open Scope list_scope.
Local Open Scope Z_scope.

Set Warnings "-register-all".

(** ** JavaScript values and control flow *)

Inductive JsError : Type :=
| ERR_OUT_OF_RANGE (offset : Z) (max : Z)
| ERR_BUFFER_OUT_OF_BOUNDS
| TypeError (msg : string)
| SyntaxError
| Error (msg : string).

Inductive outcome (A : Type) : Type :=
| Ok (a : A)
| Throw (e : JsError).
Arguments Ok {A} a.
Arguments Throw {A} e.

(** The values that cross the JSON boundary (tool arguments, event
    payloads, database rows).  [JUndefined] is the value of a missing
    property; [JJson v] is the string [JSON.stringify(v)]. *)
Inductive JValue : Type :=
| JUndefined
| JNull
| JBool (b : bool)
| JNum (n : Z)
| JFrac (q : Q)
| JStr (s : string)
| JJson (v : JValue)
| JArr (items : list JValue)
| JObj (fields : list (string * JValue)).

Fixpoint assoc (k : string) (fields : list (string * JValue)) : JValue :=
  match fields with
  | [] => JUndefined
  | (k', v) :: rest => if String.eqb k k' then v else assoc k rest
  end.

(** [o.k] on a value that is not [null] or [undefined]. *)
Definition prop (k : string) (o : JValue) : JValue :=
  match o with
  | JObj fields => assoc k fields
  | _ => JUndefined
  end.

(** [||] on a value used as a string default. *)
Definition truthy (v : JValue) : bool :=
  match v with
  | JUndefined | JNull => false
  | JBool b => b
  | JNum n => negb (n =? 0)
  | JFrac q => negb (Qeq_bool q 0)
  | JStr s => negb (String.eqb s EmptyString)
  | JJson _ | JArr _ | JObj _ => true
  end.

(** A number as far as [detectVoiceActivity] needs it: a finite value or
    the result of [0 / 0]. *)
Inductive jsnum : Type :=
| Fin (q : Q)
| NaN
| PosInf
| NegInf.

Definition js_div (a b : Q) : jsnum :=
  if Qeq_bool b 0 then
    (if Qeq_bool a 0 then NaN
     else if Qle_bool 0 a then PosInf else NegInf)
  else Fin (a / b)%Q.

Definition js_gt (x : jsnum) (y : Q) : bool :=
  match x with
  | Fin q => negb (Qle_bool q y)
  | NaN => false
  | PosInf => true
  | NegInf => false
  end.

(** ** Node's [Buffer] *)

Definition Buffer : Type := list Byte.byte.

Definition byteZ (b : Byte.byte) : Z := Z.of_N (Byte.to_N b).

Definition buf_length (b : Buffer) : Z := Z.of_nat (List.length b).

(** [this[i]]: [undefined] outside the buffer. *)
Definition buf_index (b : Buffer) (i : Z) : option Z :=
  if i <? 0 then None else option_map byteZ (nth_error b (Z.to_nat i)).

Definition Buffer_concat (chunks : list Buffer) : Buffer := List.concat chunks.

Definition toInt32 (z : Z) : Z :=
  let m := z mod 2 ^ 32 in
  if m <? 2 ^ 31 then m else m - 2 ^ 32.

Definition boundsError (value length : Z) : JsError :=
  if length <? 0 then ERR_BUFFER_OUT_OF_BOUNDS
  else ERR_OUT_OF_RANGE value length.

(** [Buffer.prototype.readInt16LE]:
    [first + last * 2 ** 8], then [val | (val & 2 ** 15) * 0x1fffe]. *)
Definition readInt16LE (b : Buffer) (offset : Z) : outcome Z :=
  match buf_index b offset, buf_index b (offset + 1) with
  | Some first, Some last =>
      let val := first + last * 2 ^ 8 in
      Ok (toInt32 (Z.lor (toInt32 val)
                         (toInt32 (Z.land val (2 ^ 15) * 0x1fffe))))
  | _, _ => Throw (boundsError offset (buf_length b - 2))
  end.

(** ** Voice activity detection *)

(** The loop [for (let i = 0; i < audio.length; i += 2)] of
    [detectVoiceActivity], entered at index [i] with the running [sum]. *)
Equations? vadLoop (audio : Buffer) (i : Z) (sum : Z) : outcome Z
  by wf (Z.to_nat (buf_length audio - i)) lt :=
  vadLoop audio i sum with Z_lt_dec i (buf_length audio) => {
    | left _ with readInt16LE audio i => {
        | Ok sample => vadLoop audio (i + 2) (sum + Z.abs sample)
        | Throw e => Throw e };
    | right _ => Ok sum }.
Proof. lia. Qed.

Definition VAD_THRESHOLD : Q := 200.

Definition detectVoiceActivity (audio : Buffer) : outcome bool :=
  match vadLoop audio 0 0 with
  | Throw e => Throw e
  | Ok sum =>
      let avgEnergy := js_div (inject_Z sum) (inject_Z (buf_length audio) / 2)%Q in
      Ok (js_gt avgEnergy VAD_THRESHOLD)
  end.

(** The reading of a frame that the specification gives: consecutive
    byte pairs, low byte first, as signed 16-bit samples. *)
Definition int16 (u : Z) : Z := if u <? 32768 then u else u - 65536.

Fixpoint samplesLE (audio : Buffer) : list Z :=
  match audio with
  | lo :: hi :: rest => int16 (byteZ lo + 256 * byteZ hi) :: samplesLE rest
  | _ => []
  end.

Definition sumAbs (samples : list Z) : Z :=
  fold_right (fun s acc => Z.abs s + acc) 0 samples.

(** "The mean of the absolute values of the samples exceeds [t]"; an
    empty frame has no mean. *)
Definition meanAbsExceeds (samples : list Z) (t : Q) : Prop :=
  samples <> [] /\
  (t < inject_Z (sumAbs samples) / inject_Z (Z.of_nat (List.length samples)))%Q.


(** ** JSON text

    [JSON.stringify] leaves out the members of an object whose value is
    [undefined] and writes [null] for an [undefined] array item.
    [jsonClean v] is the value a client reads back from
    [JSON.stringify(v)]. *)
Fixpoint jsonClean (v : JValue) : JValue :=
  match v with
  | JArr items =>
      JArr (map (fun x => match jsonClean x with
                          | JUndefined => JNull
                          | y => y
                          end) items)
  | JObj fields =>
      JObj (flat_map (fun kv => match snd kv with
                               | JUndefined => []
                               | _ => [(fst kv, jsonClean (snd kv))]
                               end) fields)
  | _ => v
  end.

(** A string held by the session: a literal one, or the text
    [JSON.stringify(v)] of a value. *)
Inductive Text : Type :=
| Lit (s : string)
| Stringified (v : JValue).

Definition textJson (t : Text) : JValue :=
  match t with
  | Lit s => JStr s
  | Stringified v => JJson v
  end.

(** [String.prototype.trim] over the ASCII white space and line
    terminators. *)
Definition isWhiteSpace (c : ascii) : bool :=
  let n := nat_of_ascii c in
  ((9 <=? n) && (n <=? 13))%nat || (n =? 32)%nat.

Fixpoint trimStartL (l : list ascii) : list ascii :=
  match l with
  | c :: rest => if isWhiteSpace c then trimStartL rest else l
  | [] => []
  end.

Definition trim (s : string) : string :=
  string_of_list_ascii
    (List.rev (trimStartL (List.rev (trimStartL (list_ascii_of_string s))))).

(** ** Numbers with a fraction: [calculateCosts]

    [Math.round] of a finite binary64 number: the nearest integer, a tie
    going up.  The number is [(-1)^s * m * 2^e]. *)
Definition float_of_Z (z : Z) : float :=
  match z with
  | Z0 => PrimFloat.zero
  | Zpos _ => PrimFloat.of_uint63 (Uint63.of_Z z)
  | Zneg p => PrimFloat.opp (PrimFloat.of_uint63 (Uint63.of_Z (Zpos p)))
  end.

Definition Math_round (x : float) : Z :=
  match Prim2SF x with
  | S754_finite s m e =>
      let n := if s then Zneg m else Zpos m in
      if 0 <=? e then n * 2 ^ e
      else (2 * n + 2 ^ (- e)) / 2 ^ (- e + 1)
  | _ => 0
  end.

Definition RATE_STT : float := Eval cbv in PrimFloat.div (float_of_Z 6) (float_of_Z 10).
Definition RATE_LLM : float := Eval cbv in PrimFloat.div (float_of_Z 15) (float_of_Z 10).
Definition RATE_TTS : float := Eval cbv in PrimFloat.div (float_of_Z 15) (float_of_Z 10).

Record CostBreakdown : Type := {
  cost_stt : Z;
  cost_llm : Z;
  cost_tts : Z;
  cost_total : Z
}.

Definition calculateCosts (durationSeconds : Z) : CostBreakdown :=
  let minutes := PrimFloat.div (float_of_Z durationSeconds) (float_of_Z 60) in
  let sttCost := Math_round (PrimFloat.mul minutes RATE_STT) in
  let llmCost := Math_round (PrimFloat.mul minutes RATE_LLM) in
  let ttsCost := Math_round (PrimFloat.mul minutes RATE_TTS) in
  let total := sttCost + llmCost + ttsCost in
  {| cost_stt := sttCost; cost_llm := llmCost; cost_tts := ttsCost;
     cost_total := total |}.

Definition costJson (c : CostBreakdown) : JValue :=
  JObj [("stt", JNum (cost_stt c)); ("llm", JNum (cost_llm c));
        ("tts", JNum (cost_tts c)); ("total", JNum (cost_total c))].

(** ** The tool executor ([tools/executor.ts]) *)

Module Tool.
(** Modelled from the spec: the [Tool] row type of the database
    package, whose schema is not among the sources.  The fields are
    those the executor reads; [type] is one of function, transfer,
    query, dtmf, endCall. *)
Record t : Type := {
  id : string;
  name : string;
  type : string;
  description : option string;
  functionDefinition : JValue;
  serverUrl : option string
}.
End Tool.

Record ToolDefinition : Type := {
  td_name : JValue;
  td_description : JValue;
  td_parameters : JValue
}.

Record ToolCall : Type := {
  tc_id : string;
  tc_name : string;
  tc_arguments : JValue
}.

Module ToolExecutor.

(** [Map<string, Tool>]: keys in insertion order; setting a key that
    is present replaces its value in place. *)
Definition t : Type := list (string * Tool.t).

Fixpoint map_set (k : string) (v : Tool.t) (m : t) : t :=
  match m with
  | [] => [(k, v)]
  | (k', v') :: rest =>
      if String.eqb k k' then (k, v) :: rest else (k', v') :: map_set k v rest
  end.

(** [new Map(tools.map(t => [t.name, t]))] *)
Definition new (tools : list Tool.t) : t :=
  fold_left (fun m tl => map_set (Tool.name tl) tl m) tools [].

Definition strOr (s : option string) (dflt : string) : JValue :=
  match s with
  | Some x => if String.eqb x EmptyString then JStr dflt else JStr x
  | None => JStr dflt
  end.

Definition stringParam (descr : string) : JValue :=
  JObj [("type", JStr "string"); ("description", JStr descr)].

Definition definitionOf (tool : Tool.t) : list ToolDefinition :=
  if String.eqb (Tool.type tool) "function"
     && truthy (Tool.functionDefinition tool) then
    let funcDef := Tool.functionDefinition tool in
    [ {| td_name := prop "name" funcDef;
         td_description := prop "description" funcDef;
         td_parameters := prop "parameters" funcDef |} ]
  else if String.eqb (Tool.type tool) "transfer" then
    [ {| td_name := JStr "transferCall";
         td_description :=
           strOr (Tool.description tool)
                 "Transfer the call to another person or department";
         td_parameters :=
           JObj [("type", JStr "object");
                 ("properties",
                  JObj [("reason", stringParam "Reason for the transfer");
                        ("destination",
                         stringParam "Who or where to transfer to")]);
                 ("required", JArr [JStr "destination"])] |} ]
  else if String.eqb (Tool.type tool) "endCall" then
    [ {| td_name := JStr "endCall";
         td_description :=
           JStr "End the call when the conversation is complete";
         td_parameters :=
           JObj [("type", JStr "object");
                 ("properties",
                  JObj [("reason",
                         stringParam "Reason for ending the call")])] |} ]
  else if String.eqb (Tool.type tool) "query" then
    [ {| td_name := JStr ("queryKnowledge_" ++ Tool.id tool);
         td_description :=
           strOr (Tool.description tool)
                 "Search the knowledge base for information";
         td_parameters :=
           JObj [("type", JStr "object");
                 ("properties",
                  JObj [("query", stringParam "The search query")]);
                 ("required", JArr [JStr "query"])] |} ]
  else if String.eqb (Tool.type tool) "dtmf" then
    [ {| td_name := JStr "pressDigits";
         td_description := JStr "Press phone keypad digits (DTMF tones)";
         td_parameters :=
           JObj [("type", JStr "object");
                 ("properties",
                  JObj [("digits",
                         stringParam "The digits to press (0-9, *, #)")]);
                 ("required", JArr [JStr "digits"])] |} ]
  else [].

Definition getToolDefinitions (self : t) : list ToolDefinition :=
  flat_map (fun kv => definitionOf (snd kv)) self.

Definition queryKnowledgeBase : JValue :=
  JObj [("results",
         JArr [JObj [("content",
                      JStr "This is a placeholder result. Implement vector search.");
                     ("score", JFrac (95 # 100))]])].

(** What the tool server answers to the POST of [{tool, arguments}]:
    the parsed body of a 2xx response, or the message of the error that
    [fetch], the status check or [response.json()] raised. *)
Definition ToolServer : Type := string -> string -> JValue -> JValue + string.

Definition isFunctionNamed (nm : string) (tool : Tool.t) : bool :=
  match Tool.functionDefinition tool with
  | JObj fields =>
      match assoc "name" fields with
      | JStr n => String.eqb n nm
      | _ => false
      end
  | _ => false
  end.

Definition execute (server : ToolServer) (self : t)
           (nm : string) (args : JValue) : JValue :=
  if String.eqb nm "endCall" then
    JObj [("action", JStr "end_call"); ("reason", prop "reason" args)]
  else if String.eqb nm "transferCall" then
    JObj [("action", JStr "transfer");
          ("destination", prop "destination" args);
          ("reason", prop "reason" args)]
  else if String.eqb nm "pressDigits" then
    JObj [("action", JStr "dtmf"); ("digits", prop "digits" args)]
  else if String.prefix "queryKnowledge_" nm then
    queryKnowledgeBase
  else
    match find (isFunctionNamed nm) (map snd self) with
    | None => JObj [("error", JStr ("Unknown tool: " ++ nm))]
    | Some tool =>
        match Tool.serverUrl tool with
        | None => JObj [("error", JStr ("Unknown tool: " ++ nm))]
        | Some url =>
            if String.eqb url EmptyString then
              JObj [("error", JStr ("Unknown tool: " ++ nm))]
            else
              match server url nm args with
              | inl body => body
              | inr message => JObj [("error", JStr message)]
              end
        end
    end.

End ToolExecutor.

(** ** The session and its surroundings *)

Inductive FirstMessageMode : Type :=
| AssistantSpeaksFirst
| AssistantWaitsForUser.

Module Assistant.
(** Modelled from the spec: the [Assistant] row type of the database
    package, whose schema is not among the sources.  The fields are
    the ones the session reads, with [firstMessageMode] and
    [maxCallDurationSeconds] as the API route and the shared
    [AssistantConfig] declare them; the provider settings, which only
    choose the provider adapters, are left out. *)
Record t : Type := {
  name : string;
  systemPrompt : string;
  firstMessage : option string;
  firstMessageMode : FirstMessageMode;
  interruptionEnabled : bool;
  silenceTimeoutMs : Z;
  maxCallDurationSeconds : Z
}.
End Assistant.

(** [SessionConfig], without the socket (kept in the world) and the
    [onEnd] callback (the route's [sessions.delete]). *)
Record SessionConfig : Type := {
  callId : string;
  orgId : string;
  assistant : Assistant.t;
  tools : list Tool.t
}.

Inductive Role : Type := system | user | assistantRole | tool.

Record Message : Type := {
  role : Role;
  content : Text;
  toolCallId : option string
}.

Inductive SessionState : Type := idle | listening | thinking | speaking.

Definition SessionState_eqb (a b : SessionState) : bool :=
  match a, b with
  | idle, idle | listening, listening
  | thinking, thinking | speaking, speaking => true
  | _, _ => false
  end.

(** The [ws] socket.  A server-side socket is open when the route gets
    it; [send] on a socket that is closing or closed transmits nothing
    and does not throw. *)
Inductive ReadyState : Type := OPEN | CLOSING | CLOSED.

Definition isOpen (r : ReadyState) : bool :=
  match r with OPEN => true | _ => false end.

Inductive Frame : Type :=
| TextFrame (json : JValue)
| BinaryFrame (audio : Buffer).

(** Calls on the database client. *)
Inductive DbOp : Type :=
| CallUpdate (id : string) (data : list (string * JValue))
| CallMessageCreate (data : list (string * JValue)).

Inductive FsOp : Type :=
| WriteFile (path : string) (data : Buffer).

Inductive LogLevel : Type := warn | error.

Record LogEntry : Type := {
  level : LogLevel;
  msg : string
}.

(** What the session waits for: a provider's answer, with the values the
    rest of the method has captured, or a timer. *)
Inductive Pending : Type :=
| PStt (sttStart : Z) (audioData : Buffer)
| PLlm (llmStart : Z)
| PTts (synthesisId : Z) (ttsStart : Z) (text : string)
| PTimer (synthesisId : Z) (dueAt : Z).

Record Session : Type := {
  messages : list Message;
  state : SessionState;
  startTime : Z;
  isEnded : bool;
  onSessionEnd : bool;
  audioBuffer : list Buffer;
  silenceStart : Z;
  isSpeaking : bool;
  currentSynthesisId : Z;
  userAudioChunks : list Buffer;
  assistantAudioChunks : list Buffer;
  sttLatency : list Z;
  llmLatency : list Z;
  ttsLatency : list Z
}.

Record World : Type := {
  sess : Session;
  clock : Z;
  readyState : ReadyState;
  sockLog : list (Frame * bool);
  db : list DbOp;
  fs : list FsOp;
  logs : list LogEntry;
  pending : list Pending;
  handlersInstalled : bool;
  registered : bool;
  startResolved : bool
}.

(** Field updates. *)
Definition set_messages (v : list Message) (s : Session) : Session :=
  {| messages := v; state := state s; startTime := startTime s;
     isEnded := isEnded s; onSessionEnd := onSessionEnd s;
     audioBuffer := audioBuffer s; silenceStart := silenceStart s;
     isSpeaking := isSpeaking s;
     currentSynthesisId := currentSynthesisId s;
     userAudioChunks := userAudioChunks s;
     assistantAudioChunks := assistantAudioChunks s;
     sttLatency := sttLatency s; llmLatency := llmLatency s;
     ttsLatency := ttsLatency s |}.

Definition set_state (v : SessionState) (s : Session) : Session :=
  {| messages := messages s; state := v; startTime := startTime s;
     isEnded := isEnded s; onSessionEnd := onSessionEnd s;
     audioBuffer := audioBuffer s; silenceStart := silenceStart s;
     isSpeaking := isSpeaking s;
     currentSynthesisId := currentSynthesisId s;
     userAudioChunks := userAudioChunks s;
     assistantAudioChunks := assistantAudioChunks s;
     sttLatency := sttLatency s; llmLatency := llmLatency s;
     ttsLatency := ttsLatency s |}.

Definition set_startTime (v : Z) (s : Session) : Session :=
  {| messages := messages s; state := state s; startTime := v;
     isEnded := isEnded s; onSessionEnd := onSessionEnd s;
     audioBuffer := audioBuffer s; silenceStart := silenceStart s;
     isSpeaking := isSpeaking s;
     currentSynthesisId := currentSynthesisId s;
     userAudioChunks := userAudioChunks s;
     assistantAudioChunks := assistantAudioChunks s;
     sttLatency := sttLatency s; llmLatency := llmLatency s;
     ttsLatency := ttsLatency s |}.

Definition set_isEnded (v : bool) (s : Session) : Session :=
  {| messages := messages s; state := state s; startTime := startTime s;
     isEnded := v; onSessionEnd := onSessionEnd s;
     audioBuffer := audioBuffer s; silenceStart := silenceStart s;
     isSpeaking := isSpeaking s;
     currentSynthesisId := currentSynthesisId s;
     userAudioChunks := userAudioChunks s;
     assistantAudioChunks := assistantAudioChunks s;
     sttLatency := sttLatency s; llmLatency := llmLatency s;
     ttsLatency := ttsLatency s |}.

Definition set_onSessionEnd (v : bool) (s : Session) : Session :=
  {| messages := messages s; state := state s; startTime := startTime s;
     isEnded := isEnded s; onSessionEnd := v;
     audioBuffer := audioBuffer s; silenceStart := silenceStart s;
     isSpeaking := isSpeaking s;
     currentSynthesisId := currentSynthesisId s;
     userAudioChunks := userAudioChunks s;
     assistantAudioChunks := assistantAudioChunks s;
     sttLatency := sttLatency s; llmLatency := llmLatency s;
     ttsLatency := ttsLatency s |}.

Definition set_audioBuffer (v : list Buffer) (s : Session) : Session :=
  {| messages := messages s; state := state s; startTime := startTime s;
     isEnded := isEnded s; onSessionEnd := onSessionEnd s;
     audioBuffer := v; silenceStart := silenceStart s;
     isSpeaking := isSpeaking s;
     currentSynthesisId := currentSynthesisId s;
     userAudioChunks := userAudioChunks s;
     assistantAudioChunks := assistantAudioChunks s;
     sttLatency := sttLatency s; llmLatency := llmLatency s;
     ttsLatency := ttsLatency s |}.

Definition set_silenceStart (v : Z) (s : Session) : Session :=
  {| messages := messages s; state := state s; startTime := startTime s;
     isEnded := isEnded s; onSessionEnd := onSessionEnd s;
     audioBuffer := audioBuffer s; silenceStart := v;
     isSpeaking := isSpeaking s;
     currentSynthesisId := currentSynthesisId s;
     userAudioChunks := userAudioChunks s;
     assistantAudioChunks := assistantAudioChunks s;
     sttLatency := sttLatency s; llmLatency := llmLatency s;
     ttsLatency := ttsLatency s |}.

Definition set_isSpeaking (v : bool) (s : Session) : Session :=
  {| messages := messages s; state := state s; startTime := startTime s;
     isEnded := isEnded s; onSessionEnd := onSessionEnd s;
     audioBuffer := audioBuffer s; silenceStart := silenceStart s;
     isSpeaking := v; currentSynthesisId := currentSynthesisId s;
     userAudioChunks := userAudioChunks s;
     assistantAudioChunks := assistantAudioChunks s;
     sttLatency := sttLatency s; llmLatency := llmLatency s;
     ttsLatency := ttsLatency s |}.

Definition set_currentSynthesisId (v : Z) (s : Session) : Session :=
  {| messages := messages s; state := state s; startTime := startTime s;
     isEnded := isEnded s; onSessionEnd := onSessionEnd s;
     audioBuffer := audioBuffer s; silenceStart := silenceStart s;
     isSpeaking := isSpeaking s; currentSynthesisId := v;
     userAudioChunks := userAudioChunks s;
     assistantAudioChunks := assistantAudioChunks s;
     sttLatency := sttLatency s; llmLatency := llmLatency s;
     ttsLatency := ttsLatency s |}.

Definition set_userAudioChunks (v : list Buffer) (s : Session) : Session :=
  {| messages := messages s; state := state s; startTime := startTime s;
     isEnded := isEnded s; onSessionEnd := onSessionEnd s;
     audioBuffer := audioBuffer s; silenceStart := silenceStart s;
     isSpeaking := isSpeaking s;
     currentSynthesisId := currentSynthesisId s; userAudioChunks := v;
     assistantAudioChunks := assistantAudioChunks s;
     sttLatency := sttLatency s; llmLatency := llmLatency s;
     ttsLatency := ttsLatency s |}.

Definition set_assistantAudioChunks (v : list Buffer) (s : Session) : Session :=
  {| messages := messages s; state := state s; startTime := startTime s;
     isEnded := isEnded s; onSessionEnd := onSessionEnd s;
     audioBuffer := audioBuffer s; silenceStart := silenceStart s;
     isSpeaking := isSpeaking s;
     currentSynthesisId := currentSynthesisId s;
     userAudioChunks := userAudioChunks s; assistantAudioChunks := v;
     sttLatency := sttLatency s; llmLatency := llmLatency s;
     ttsLatency := ttsLatency s |}.

Definition set_sttLatency (v : list Z) (s : Session) : Session :=
  {| messages := messages s; state := state s; startTime := startTime s;
     isEnded := isEnded s; onSessionEnd := onSessionEnd s;
     audioBuffer := audioBuffer s; silenceStart := silenceStart s;
     isSpeaking := isSpeaking s;
     currentSynthesisId := currentSynthesisId s;
     userAudioChunks := userAudioChunks s;
     assistantAudioChunks := assistantAudioChunks s; sttLatency := v;
     llmLatency := llmLatency s; ttsLatency := ttsLatency s |}.

Definition set_llmLatency (v : list Z) (s : Session) : Session :=
  {| messages := messages s; state := state s; startTime := startTime s;
     isEnded := isEnded s; onSessionEnd := onSessionEnd s;
     audioBuffer := audioBuffer s; silenceStart := silenceStart s;
     isSpeaking := isSpeaking s;
     currentSynthesisId := currentSynthesisId s;
     userAudioChunks := userAudioChunks s;
     assistantAudioChunks := assistantAudioChunks s;
     sttLatency := sttLatency s; llmLatency := v;
     ttsLatency := ttsLatency s |}.

Definition set_ttsLatency (v : list Z) (s : Session) : Session :=
  {| messages := messages s; state := state s; startTime := startTime s;
     isEnded := isEnded s; onSessionEnd := onSessionEnd s;
     audioBuffer := audioBuffer s; silenceStart := silenceStart s;
     isSpeaking := isSpeaking s;
     currentSynthesisId := currentSynthesisId s;
     userAudioChunks := userAudioChunks s;
     assistantAudioChunks := assistantAudioChunks s;
     sttLatency := sttLatency s; llmLatency := llmLatency s;
     ttsLatency := v |}.

Definition with_sess (v : Session) (w : World) : World :=
  {| sess := v; clock := clock w; readyState := readyState w;
     sockLog := sockLog w; db := db w; fs := fs w; logs := logs w;
     pending := pending w; handlersInstalled := handlersInstalled w;
     registered := registered w; startResolved := startResolved w |}.

Definition with_clock (v : Z) (w : World) : World :=
  {| sess := sess w; clock := v; readyState := readyState w;
     sockLog := sockLog w; db := db w; fs := fs w; logs := logs w;
     pending := pending w; handlersInstalled := handlersInstalled w;
     registered := registered w; startResolved := startResolved w |}.

Definition with_readyState (v : ReadyState) (w : World) : World :=
  {| sess := sess w; clock := clock w; readyState := v;
     sockLog := sockLog w; db := db w; fs := fs w; logs := logs w;
     pending := pending w; handlersInstalled := handlersInstalled w;
     registered := registered w; startResolved := startResolved w |}.

Definition with_sockLog (v : list (Frame * bool)) (w : World) : World :=
  {| sess := sess w; clock := clock w; readyState := readyState w;
     sockLog := v; db := db w; fs := fs w; logs := logs w;
     pending := pending w; handlersInstalled := handlersInstalled w;
     registered := registered w; startResolved := startResolved w |}.

Definition with_db (v : list DbOp) (w : World) : World :=
  {| sess := sess w; clock := clock w; readyState := readyState w;
     sockLog := sockLog w; db := v; fs := fs w; logs := logs w;
     pending := pending w; handlersInstalled := handlersInstalled w;
     registered := registered w; startResolved := startResolved w |}.

Definition with_fs (v : list FsOp) (w : World) : World :=
  {| sess := sess w; clock := clock w; readyState := readyState w;
     sockLog := sockLog w; db := db w; fs := v; logs := logs w;
     pending := pending w; handlersInstalled := handlersInstalled w;
     registered := registered w; startResolved := startResolved w |}.

Definition with_logs (v : list LogEntry) (w : World) : World :=
  {| sess := sess w; clock := clock w; readyState := readyState w;
     sockLog := sockLog w; db := db w; fs := fs w; logs := v;
     pending := pending w; handlersInstalled := handlersInstalled w;
     registered := registered w; startResolved := startResolved w |}.

Definition with_pending (v : list Pending) (w : World) : World :=
  {| sess := sess w; clock := clock w; readyState := readyState w;
     sockLog := sockLog w; db := db w; fs := fs w; logs := logs w;
     pending := v; handlersInstalled := handlersInstalled w;
     registered := registered w; startResolved := startResolved w |}.

Definition with_handlersInstalled (v : bool) (w : World) : World :=
  {| sess := sess w; clock := clock w; readyState := readyState w;
     sockLog := sockLog w; db := db w; fs := fs w; logs := logs w;
     pending := pending w; handlersInstalled := v;
     registered := registered w; startResolved := startResolved w |}.

Definition with_registered (v : bool) (w : World) : World :=
  {| sess := sess w; clock := clock w; readyState := readyState w;
     sockLog := sockLog w; db := db w; fs := fs w; logs := logs w;
     pending := pending w; handlersInstalled := handlersInstalled w;
     registered := v; startResolved := startResolved w |}.

Definition with_startResolved (v : bool) (w : World) : World :=
  {| sess := sess w; clock := clock w; readyState := readyState w;
     sockLog := sockLog w; db := db w; fs := fs w; logs := logs w;
     pending := pending w; handlersInstalled := handlersInstalled w;
     registered := registered w; startResolved := v |}.

(** ** The monad of the session's methods

    A method reads and writes the world and either returns or throws;
    what it wrote before throwing stays written. *)

Definition M (A : Type) : Type := World -> outcome A * World.

Definition ret {A} (a : A) : M A := fun w => (Ok a, w).

Definition bind {A B} (m : M A) (k : A -> M B) : M B :=
  fun w =>
    match m w with
    | (Ok a, w') => k a w'
    | (Throw e, w') => (Throw e, w')
    end.

Definition throw {A} (e : JsError) : M A := fun w => (Throw e, w).

Definition tryCatch {A} (m : M A) (handler : JsError -> M A) : M A :=
  fun w =>
    match m w with
    | (Ok a, w') => (Ok a, w')
    | (Throw e, w') => handler e w'
    end.

Definition lift {A} (o : outcome A) : M A := fun w => (o, w).

Definition getWorld : M World := fun w => (Ok w, w).

Definition this : M Session := fun w => (Ok (sess w), w).

Definition update (f : Session -> Session) : M unit :=
  fun w => (Ok tt, with_sess (f (sess w)) w).

Definition updateWorld (f : World -> World) : M unit :=
  fun w => (Ok tt, f w).

Definition exec {A} (m : M A) (w : World) : World := snd (m w).

Declare Scope session_scope.
Delimit Scope session_scope with session.
Notation "x <- m ;; k" := (bind m (fun x => k))
  (at level 61, m at next level, right associativity) : session_scope.
Notation "m ;; k" := (bind m (fun _ => k))
  (at level 61, right associativity) : session_scope.
Local Open Scope session_scope.

Fixpoint forEach {A} (items : list A) (body : A -> M unit) : M unit :=
  match items with
  | [] => ret tt
  | x :: rest => body x ;; forEach rest body
  end.

(** *** The surroundings *)

Definition Date_now : M Z := fun w => (Ok (clock w), w).

(** [socket.send(frame)]: recorded with whether the socket carried it. *)
Definition socket_send (f : Frame) : M unit :=
  updateWorld (fun w => with_sockLog (sockLog w ++ [(f, isOpen (readyState w))]) w).

Definition socket_close : M unit :=
  updateWorld (fun w =>
    with_readyState (match readyState w with OPEN => CLOSING | r => r end) w).

Definition logger (lvl : LogLevel) (m : string) : M unit :=
  updateWorld (fun w => with_logs (logs w ++ [{| level := lvl; msg := m |}]) w).

Definition prisma_call_update (id : string) (data : list (string * JValue)) : M unit :=
  updateWorld (fun w => with_db (db w ++ [CallUpdate id data]) w).

Definition prisma_callMessage_create (data : list (string * JValue)) : M unit :=
  updateWorld (fun w => with_db (db w ++ [CallMessageCreate data]) w).

Definition fs_writeFile (path : string) (data : Buffer) : M unit :=
  updateWorld (fun w => with_fs (fs w ++ [WriteFile path data]) w).

(** The method stops here until the surroundings answer. *)
Definition await (p : Pending) : M unit :=
  updateWorld (fun w => with_pending (pending w ++ [p]) w).

(** Frames the socket was given, and those it carried to the client. *)
Definition emitted (w : World) : list Frame := map fst (sockLog w).

Definition wire (w : World) : list Frame :=
  map fst (filter (fun fb => snd fb) (sockLog w)).

(** ** [class VoiceSession] *)

Record LLMResponse : Type := {
  r_content : string;
  r_toolCalls : option (list ToolCall)
}.

Definition emptyObject : JValue := JObj [].

Section VoiceSession.

Variable config : SessionConfig.

(** The constructor: the providers and the executor are made from the
    configuration; the history starts with the system prompt. *)
Definition new_VoiceSession : Session :=
  {| messages := [ {| role := system;
                      content := Lit (Assistant.systemPrompt (assistant config));
                      toolCallId := None |} ];
     state := idle;
     startTime := 0;
     isEnded := false;
     onSessionEnd := false;
     audioBuffer := [];
     silenceStart := 0;
     isSpeaking := false;
     currentSynthesisId := 0;
     userAudioChunks := [];
     assistantAudioChunks := [];
     sttLatency := [];
     llmLatency := [];
     ttsLatency := [] |}.

Definition toolExecutor : ToolExecutor.t := ToolExecutor.new (tools config).

Definition sendEvent (type : string) (data : JValue) : M unit :=
  now <- Date_now ;;
  let event := JObj [("type", JStr type); ("data", data);
                     ("timestamp", JNum now)] in
  socket_send (TextFrame (jsonClean event)).

Definition sendAudio (audio : Buffer) : M unit :=
  w <- getWorld ;;
  if negb (isOpen (readyState w)) then
    logger warn "Socket not open"
  else
    tryCatch
      (update (fun s => set_assistantAudioChunks
                          (assistantAudioChunks s ++ [audio]) s) ;;
       socket_send (BinaryFrame audio))
      (fun _ => logger error "Socket send error").

Definition saveMessage (message : JValue) : M unit :=
  prisma_callMessage_create
    [("callId", JStr (callId config));
     ("role", prop "role" message);
     ("content", prop "content" message);
     ("toolName", prop "toolName" message);
     ("toolArguments", prop "toolArguments" message);
     ("toolResult", prop "toolResult" message);
     ("timestampMs", prop "timestampMs" message);
     ("sttLatencyMs", prop "sttLatencyMs" message);
     ("llmLatencyMs", prop "llmLatencyMs" message);
     ("ttsLatencyMs", prop "ttsLatencyMs" message)].

(** Paths are relative to [process.cwd()]. *)
Definition userRecordingPath : string :=
  "recordings/" ++ callId config ++ "-user.pcm".

Definition assistantRecordingPath : string :=
  "recordings/" ++ callId config ++ "-assistant.pcm".

Definition saveRecording : M unit :=
  tryCatch
    (s <- this ;;
     (if negb (Nat.eqb (List.length (userAudioChunks s)) 0) then
        fs_writeFile userRecordingPath (Buffer_concat (userAudioChunks s))
      else ret tt) ;;
     (if negb (Nat.eqb (List.length (assistantAudioChunks s)) 0) then
        fs_writeFile assistantRecordingPath
                     (Buffer_concat (assistantAudioChunks s))
      else ret tt) ;;
     prisma_call_update (callId config)
       [("recordingUrl",
         JStr ("/recordings/" ++ callId config ++ "-user.pcm"));
        ("stereoRecordingUrl",
         JStr ("/recordings/" ++ callId config ++ "-assistant.pcm"))])
    (fun _ => logger error "Failed to save recording").

(** [end(reason)] *)
Definition end_ (reason : string) : M unit :=
  s <- this ;;
  if isEnded s then ret tt
  else
    update (set_isEnded true) ;;
    now <- Date_now ;;
    let duration := (now - startTime s) / 1000 in
    let costBreakdown := calculateCosts duration in
    prisma_call_update (callId config)
      [("status", JStr "completed");
       ("endedReason", JStr reason);
       ("endedAt", JNum now);
       ("durationSeconds", JNum duration);
       ("costCents", JNum (cost_total costBreakdown));
       ("costBreakdown", costJson costBreakdown)] ;;
    sendEvent "call.ended"
      (JObj [("reason", JStr reason);
             ("duration", JNum duration);
             ("costs", costJson costBreakdown)]) ;;
    saveRecording ;;
    socket_close ;;
    updateWorld (with_registered false) ;;
    (if onSessionEnd s then updateWorld (with_startResolved true)
     else ret tt).

Definition handleInterrupt : M unit :=
  s <- this ;;
  if negb (SessionState_eqb (state s) speaking) then ret tt
  else
    update (fun s => set_currentSynthesisId (currentSynthesisId s + 1) s) ;;
    update (set_state listening) ;;
    sendEvent "assistant.interrupted"
      (JObj [("clearAudio", JBool true); ("reason", JStr "user-speech")]) ;;
    update (set_audioBuffer []).

(** [synthesizeAndPlay], up to [await this.tts.synthesize(text)]. *)
Definition synthesizeAndPlay (text : string) (llmLatency : Z) : M unit :=
  update (set_state speaking) ;;
  ttsStart <- Date_now ;;
  update (fun s => set_currentSynthesisId (currentSynthesisId s + 1) s) ;;
  s <- this ;;
  let synthesisId := currentSynthesisId s in
  await (PTts synthesisId ttsStart text).

(** The callback given to [setTimeout]. *)
Definition playbackDone (synthesisId : Z) : M unit :=
  s <- this ;;
  if SessionState_eqb (state s) speaking
     && (currentSynthesisId s =? synthesisId) then
    update (set_state listening) ;;
    update (set_isSpeaking false) ;;
    update (set_audioBuffer []) ;;
    sendEvent "assistant.audio.done" emptyObject
  else ret tt.

(** [synthesizeAndPlay], from the moment the synthesis settles. *)
Definition synthesizeAndPlay_resume (synthesisId ttsStart : Z)
           (synthesized : outcome Buffer) : M unit :=
  tryCatch
    (audio <- lift synthesized ;;
     s <- this ;;
     if negb (SessionState_eqb (state s) speaking)
        || negb (currentSynthesisId s =? synthesisId) then
       ret tt
     else
       now <- Date_now ;;
       let ttsLatency_ := now - ttsStart in
       update (fun s => set_ttsLatency (ttsLatency s ++ [ttsLatency_]) s) ;;
       sendEvent "assistant.speaking" emptyObject ;;
       sendAudio audio ;;
       update (fun s => set_assistantAudioChunks
                          (assistantAudioChunks s ++ [audio]) s) ;;
       let audioDurationMs := buf_length audio / 48 in
       let playbackDelay := Z.max 500 (audioDurationMs + 200) in
       now' <- Date_now ;;
       await (PTimer synthesisId (now' + playbackDelay)))
    (fun _ =>
       logger error "TTS error" ;;
       s <- this ;;
       if SessionState_eqb (state s) speaking
          && (currentSynthesisId s =? synthesisId) then
         update (set_state listening) ;;
         sendEvent "assistant.audio.done" emptyObject
       else ret tt).

(** [generateResponse], up to [await this.llm.generate(...)]. *)
Definition generateResponse : M unit :=
  llmStart <- Date_now ;;
  await (PLlm llmStart).

Definition handleToolCall (server : ToolExecutor.ToolServer)
           (toolCall : ToolCall) : M unit :=
  sendEvent "tool.called"
    (JObj [("name", JStr (tc_name toolCall));
           ("arguments", tc_arguments toolCall)]) ;;
  if String.eqb (tc_name toolCall) "endCall" then
    end_ "assistant-ended"
  else if String.eqb (tc_name toolCall) "transferCall" then
    sendEvent "transfer.started"
      (JObj [("destination", prop "number" (tc_arguments toolCall))])
  else
    let result :=
      ToolExecutor.execute server toolExecutor
                           (tc_name toolCall) (tc_arguments toolCall) in
    sendEvent "tool.result"
      (JObj [("name", JStr (tc_name toolCall)); ("result", result)]) ;;
    update (fun s => set_messages
              (messages s ++ [ {| role := tool;
                                  content := Stringified result;
                                  toolCallId := Some (tc_id toolCall) |} ]) s) ;;
    s <- this ;;
    now <- Date_now ;;
    saveMessage
      (JObj [("role", JStr "tool");
             ("content", JJson result);
             ("toolName", JStr (tc_name toolCall));
             ("toolArguments", tc_arguments toolCall);
             ("toolResult", result);
             ("timestampMs", JNum (now - startTime s))]).

(** [generateResponse], from the moment the model's answer settles. *)
Definition generateResponse_resume (server : ToolExecutor.ToolServer)
           (llmStart : Z) (generated : outcome LLMResponse) : M unit :=
  tryCatch
    (response <- lift generated ;;
     now <- Date_now ;;
     let llmLatency_ := now - llmStart in
     update (fun s => set_llmLatency (llmLatency s ++ [llmLatency_]) s) ;;
     match r_toolCalls response with
     | Some (tc :: tcs) =>
         forEach (tc :: tcs) (handleToolCall server) ;;
         generateResponse
     | _ =>
         if negb (String.eqb (r_content response) EmptyString) then
           update (fun s => set_messages
                     (messages s ++ [ {| role := assistantRole;
                                         content := Lit (r_content response);
                                         toolCallId := None |} ]) s) ;;
           sendEvent "assistant.message"
             (JObj [("text", JStr (r_content response))]) ;;
           s <- this ;;
           now' <- Date_now ;;
           saveMessage
             (JObj [("role", JStr "assistant");
                    ("content", JStr (r_content response));
                    ("timestampMs", JNum (now' - startTime s));
                    ("llmLatencyMs", JNum llmLatency_)]) ;;
           synthesizeAndPlay (r_content response) llmLatency_
         else ret tt
     end)
    (fun _ =>
       logger error "LLM error" ;;
       update (set_state listening) ;;
       sendEvent "assistant.audio.done" emptyObject).

(** [processUserSpeech], up to [await this.stt.transcribe(audioData)]. *)
Definition processUserSpeech : M unit :=
  s <- this ;;
  if Nat.eqb (List.length (audioBuffer s)) 0 then ret tt
  else
    let audioData := Buffer_concat (audioBuffer s) in
    update (set_audioBuffer []) ;;
    sendEvent "assistant.thinking" emptyObject ;;
    update (set_state thinking) ;;
    sttStart <- Date_now ;;
    await (PStt sttStart audioData).

(** [processUserSpeech], from the moment the transcription settles. *)
Definition processUserSpeech_resume (sttStart : Z)
           (transcribed : outcome string) : M unit :=
  tryCatch
    (transcript <- lift transcribed ;;
     now <- Date_now ;;
     let sttLatency_ := now - sttStart in
     update (fun s => set_sttLatency (sttLatency s ++ [sttLatency_]) s) ;;
     if String.eqb transcript EmptyString
        || Nat.eqb (String.length (trim transcript)) 0 then
       update (set_state listening)
     else
       sendEvent "transcript.final" (JObj [("text", JStr transcript)]) ;;
       update (fun s => set_messages
                 (messages s ++ [ {| role := user;
                                     content := Lit transcript;
                                     toolCallId := None |} ]) s) ;;
       s <- this ;;
       now' <- Date_now ;;
       saveMessage
         (JObj [("role", JStr "user");
                ("content", JStr transcript);
                ("timestampMs", JNum (now' - startTime s));
                ("sttLatencyMs", JNum sttLatency_)]) ;;
       generateResponse)
    (fun _ =>
       logger error "STT error" ;;
       update (set_state listening)).

Definition handleAudioData (data : Buffer) : M unit :=
  s <- this ;;
  if isEnded s then ret tt
  else
    update (fun s => set_userAudioChunks (userAudioChunks s ++ [data]) s) ;;
    if SessionState_eqb (state s) speaking
       && Assistant.interruptionEnabled (assistant config) then
      hasVoice <- lift (detectVoiceActivity data) ;;
      if (hasVoice : bool) then
        handleInterrupt ;;
        update (fun s => set_audioBuffer (audioBuffer s ++ [data]) s) ;;
        update (set_isSpeaking true) ;;
        update (set_silenceStart 0) ;;
        sendEvent "speech.started" emptyObject
      else ret tt
    else
      update (fun s => set_audioBuffer (audioBuffer s ++ [data]) s) ;;
      hasVoice <- lift (detectVoiceActivity data) ;;
      if (hasVoice : bool) then
        (if negb (isSpeaking s) then sendEvent "speech.started" emptyObject
         else ret tt) ;;
        update (set_isSpeaking true) ;;
        update (set_silenceStart 0) ;;
        (if negb (SessionState_eqb (state s) listening) then
           update (set_state listening)
         else ret tt)
      else if isSpeaking s then
        (if silenceStart s =? 0 then
           now <- Date_now ;; update (set_silenceStart now)
         else ret tt) ;;
        s' <- this ;;
        let silenceTimeout :=
          Z.min (Assistant.silenceTimeoutMs (assistant config)) 1200 in
        now <- Date_now ;;
        let silenceDuration := now - silenceStart s' in
        if silenceDuration >? silenceTimeout then
          update (set_isSpeaking false) ;;
          sendEvent "speech.ended" emptyObject ;;
          processUserSpeech
        else ret tt
      else ret tt.

Definition handleControlMessage (message : JValue) : M unit :=
  match message with
  | JUndefined | JNull =>
      throw (TypeError "Cannot read properties of null (reading 'type')")
  | _ =>
      match prop "type" message with
      | JStr t =>
          if String.eqb t "end" then end_ "client-request"
          else if String.eqb t "interrupt" then handleInterrupt
          else ret tt
      | _ => ret tt
      end
  end.

(** The three listeners that [setupSocketHandlers] installs. *)
Definition onMessage (data : Buffer + outcome JValue) : M unit :=
  tryCatch
    (match data with
     | inl audio => handleAudioData audio
     | inr parsed =>
         message <- lift parsed ;;
         handleControlMessage message
     end)
    (fun _ => logger error "Error handling message").

Definition onClose : M unit :=
  s <- this ;;
  if negb (isEnded s) then end_ "client-disconnect" else ret tt.

Definition onError : M unit := logger error "Socket error".

Definition setupSocketHandlers : M unit :=
  updateWorld (with_handlersInstalled true).

(** [start()], up to [await sessionPromise]. *)
Definition start : M unit :=
  now <- Date_now ;;
  update (set_startTime now) ;;
  update (set_onSessionEnd true) ;;
  sendEvent "call.started"
    (JObj [("callId", JStr (callId config));
           ("assistant", JStr (Assistant.name (assistant config)))]) ;;
  now' <- Date_now ;;
  prisma_call_update (callId config)
    [("status", JStr "active"); ("startedAt", JNum now')] ;;
  setupSocketHandlers ;;
  update (set_state listening) ;;
  match Assistant.firstMessage (assistant config) with
  | Some first =>
      if negb (String.eqb first EmptyString) then
        update (fun s => set_messages
                  (messages s ++ [ {| role := assistantRole;
                                      content := Lit first;
                                      toolCallId := None |} ]) s) ;;
        sendEvent "assistant.message" (JObj [("text", JStr first)]) ;;
        saveMessage
          (JObj [("role", JStr "assistant");
                 ("content", JStr first);
                 ("timestampMs", JNum 0)]) ;;
        synthesizeAndPlay first 0
      else ret tt
  | None => ret tt
  end.

End VoiceSession.

(** ** The route [/ws/:callId] and the process ([index.ts]) *)

Section Engine.

Variable config : SessionConfig.

(** The world when the route has found the call and its assistant and
    has constructed the session. *)
Definition boot : World :=
  {| sess := new_VoiceSession config;
     clock := 0;
     readyState := OPEN;
     sockLog := [];
     db := [];
     fs := [];
     logs := [];
     pending := [];
     handlersInstalled := false;
     registered := false;
     startResolved := false |}.

(** The route, for a call that exists and has an assistant: the test
    message, [sessions.set], the status update, [session.start()]. *)
Definition wsRoute : M unit :=
  socket_send (TextFrame (jsonClean
    (JObj [("type", JStr "test"); ("data", JStr "connected")]))) ;;
  tryCatch
    (updateWorld (with_registered true) ;;
     now <- Date_now ;;
     prisma_call_update (callId config)
       [("status", JStr "in-progress"); ("startedAt", JNum now)] ;;
     start config)
    (fun _ =>
       logger error "Session error" ;;
       socket_send (TextFrame (jsonClean
         (JObj [("type", JStr "error");
                ("data", JObj [("message", JStr "Session error")])]))) ;;
       socket_close).

(** What can happen to a running session. *)
Inductive Event : Type :=
| SocketMessage (data : Buffer + outcome JValue)
| SocketClose
| SocketError
| SttSettled (sttStart : Z) (transcribed : outcome string)
| LlmSettled (llmStart : Z) (generated : outcome LLMResponse)
             (server : ToolExecutor.ToolServer)
| TtsSettled (synthesisId ttsStart : Z) (synthesized : outcome Buffer)
| TimerFired (synthesisId : Z)
| ApiEndRequest
| Shutdown.

Definition answers (e : Event) (p : Pending) : bool :=
  match e, p with
  | SttSettled t _, PStt t' _ => t =? t'
  | LlmSettled t _ _, PLlm t' => t =? t'
  | TtsSettled i t _, PTts i' t' _ => (i =? i') && (t =? t')
  | TimerFired i, PTimer i' _ => i =? i'
  | _, _ => false
  end.

Fixpoint settle (e : Event) (ps : list Pending) : list Pending :=
  match ps with
  | [] => []
  | p :: rest => if answers e p then rest else p :: settle e rest
  end.

Definition dispatch (e : Event) : M unit :=
  match e with
  | SocketMessage data =>
      w <- getWorld ;;
      if handlersInstalled w then onMessage config data else ret tt
  | SocketClose =>
      updateWorld (with_readyState CLOSED) ;;
      w <- getWorld ;;
      if handlersInstalled w then onClose config else ret tt
  | SocketError =>
      w <- getWorld ;;
      if handlersInstalled w then onError else ret tt
  | SttSettled sttStart transcribed =>
      processUserSpeech_resume config sttStart transcribed
  | LlmSettled llmStart generated server =>
      generateResponse_resume config server llmStart generated
  | TtsSettled synthesisId ttsStart synthesized =>
      synthesizeAndPlay_resume synthesisId ttsStart synthesized
  | TimerFired synthesisId => playbackDone synthesisId
  | ApiEndRequest =>
      w <- getWorld ;;
      if registered w then end_ config "api-request" else ret tt
  | Shutdown =>
      w <- getWorld ;;
      if registered w then end_ config "server-shutdown" else ret tt
  end.

(** One event, delivered at time [now]. *)
Definition step (w : World) (te : Z * Event) : World :=
  let w1 := with_clock (fst te) w in
  let w2 := with_pending (settle (snd te) (pending w1)) w1 in
  exec (dispatch (snd te)) w2.

Definition run (w : World) (trace : list (Z * Event)) : World :=
  fold_left step trace w.

(** The session after the route has started it at time [t0]. *)
Definition connected (t0 : Z) : World := exec wsRoute (with_clock t0 boot).

(** An event the surroundings can really deliver: time does not go
    back, an answer answers a request in flight, a timer fires when it
    is due, the peer talks on a socket that is still open. *)
Definition dueTimer (now : Z) (i : Z) (p : Pending) : bool :=
  match p with
  | PTimer i' due => (i =? i') && (due <=? now)
  | _ => false
  end.

Definition enabled (w : World) (te : Z * Event) : bool :=
  (clock w <=? fst te) &&
  match snd te with
  | SocketMessage _ => isOpen (readyState w)
  | SocketClose =>
      match readyState w with CLOSED => false | _ => true end
  | SocketError => true
  | TimerFired i => existsb (dueTimer (fst te) i) (pending w)
  | ApiEndRequest | Shutdown => true
  | e => existsb (answers e) (pending w)
  end.

Fixpoint feasible (w : World) (trace : list (Z * Event)) : bool :=
  match trace with
  | [] => true
  | te :: rest => enabled w te && feasible (step w te) rest
  end.

End Engine.

(** ** Observations and vocabulary of the properties *)

(** A relation between the world before and after that a method never
    breaks, whether it returns or throws. *)
Definition respects (R : World -> World -> Prop) {A} (m : M A) : Prop :=
  forall w, R w (exec m w).

Definition counterLe (w w' : World) : Prop :=
  currentSynthesisId (sess w) <= currentSynthesisId (sess w').

Definition counterSame (w w' : World) : Prop :=
  currentSynthesisId (sess w') = currentSynthesisId (sess w).

(** The synthesis that captured [synthesisId] is the current one and the
    session is speaking. *)
Definition isCurrent (synthesisId : Z) (w : World) : bool :=
  SessionState_eqb (state (sess w)) speaking
  && (currentSynthesisId (sess w) =? synthesisId).

Definition isBinary (f : Frame) : bool :=
  match f with BinaryFrame _ => true | TextFrame _ => false end.

(** The audio frames handed to the socket so far. *)
Definition audioFrames (w : World) : list Frame := filter isBinary (emitted w).

Definition sameAudio (w w' : World) : Prop := audioFrames w' = audioFrames w.

Definition eventType (f : Frame) : option string :=
  match f with
  | TextFrame json =>
      match prop "type" json with
      | JStr t => Some t
      | _ => None
      end
  | BinaryFrame _ => None
  end.

Definition isEvent (type : string) (f : Frame) : bool :=
  match eventType f with
  | Some t => String.eqb t type
  | None => false
  end.

Definition eventData (f : Frame) : JValue :=
  match f with
  | TextFrame json => prop "data" json
  | BinaryFrame _ => JUndefined
  end.

(** What was added to a log that only grows. *)
Definition since {A} (before after : list A) : list A :=
  skipn (List.length before) after.

Definition count {A} (p : A -> bool) (l : list A) : nat :=
  List.length (filter p l).

(** The write that finalises the [Call] row. *)
Definition isFinalWrite (op : DbOp) : bool :=
  match op with
  | CallUpdate _ data =>
      match assoc "status" data with
      | JStr s => String.eqb s "completed"
      | _ => false
      end
  | CallMessageCreate _ => false
  end.

(** The write that closes a recording flush. *)
Definition isRecordingUrlWrite (op : DbOp) : bool :=
  match op with
  | CallUpdate _ data => truthy (assoc "recordingUrl" data)
  | CallMessageCreate _ => false
  end.

Definition callEndedFrame (reason : string) (now startedAt : Z) : Frame :=
  let duration := (now - startedAt) / 1000 in
  TextFrame
    (JObj [("type", JStr "call.ended");
           ("data", JObj [("reason", JStr reason);
                          ("duration", JNum duration);
                          ("costs", costJson (calculateCosts duration))]);
           ("timestamp", JNum now)]).

Definition finalWrite (config : SessionConfig) (reason : string)
           (now startedAt : Z) : DbOp :=
  let duration := (now - startedAt) / 1000 in
  CallUpdate (callId config)
    [("status", JStr "completed");
     ("endedReason", JStr reason);
     ("endedAt", JNum now);
     ("durationSeconds", JNum duration);
     ("costCents", JNum (cost_total (calculateCosts duration)));
     ("costBreakdown", costJson (calculateCosts duration))].

Definition recordingUrlWrite (config : SessionConfig) : DbOp :=
  CallUpdate (callId config)
    [("recordingUrl", JStr ("/recordings/" ++ callId config ++ "-user.pcm"));
     ("stereoRecordingUrl",
      JStr ("/recordings/" ++ callId config ++ "-assistant.pcm"))].

(** The files one recording flush writes: a stream that has no chunk
    gets no file. *)
Definition recordingFiles (config : SessionConfig) (s : Session) : list FsOp :=
  (match userAudioChunks s with
   | [] => []
   | _ => [WriteFile (userRecordingPath config)
                     (Buffer_concat (userAudioChunks s))]
   end) ++
  (match assistantAudioChunks s with
   | [] => []
   | _ => [WriteFile (assistantRecordingPath config)
                     (Buffer_concat (assistantAudioChunks s))]
   end).

(** Once the session has ended, nothing is added to what [end] wrote. *)
Definition endedStays (w w' : World) : Prop :=
  isEnded (sess w) = true ->
  isEnded (sess w') = true /\
  count (isEvent "call.ended") (emitted w') = count (isEvent "call.ended") (emitted w) /\
  count isFinalWrite (db w') = count isFinalWrite (db w) /\
  count isRecordingUrlWrite (db w') = count isRecordingUrlWrite (db w) /\
  fs w' = fs w.

(** ** Seed scenarios *)

(** The assistant of the seed scenarios: first message "Hi.", silence
    timeout 800 ms, interruption enabled, calls of at most 60 s. *)
Definition seedAssistant : Assistant.t :=
  {| Assistant.name := "Seed";
     Assistant.systemPrompt := "You are a helpful assistant.";
     Assistant.firstMessage := Some "Hi.";
     Assistant.firstMessageMode := AssistantSpeaksFirst;
     Assistant.interruptionEnabled := true;
     Assistant.silenceTimeoutMs := 800;
     Assistant.maxCallDurationSeconds := 60 |}.

Definition transferTool : Tool.t :=
  {| Tool.id := "t1";
     Tool.name := "transfer";
     Tool.type := "transfer";
     Tool.description := None;
     Tool.functionDefinition := JNull;
     Tool.serverUrl := None |}.

Definition seedConfig : SessionConfig :=
  {| callId := "call-1";
     orgId := "org-1";
     assistant := seedAssistant;
     tools := [transferTool] |}.

(** Two PCM frames of one sample each: amplitude 4096 and amplitude 0. *)
Definition voiceFrame : Buffer := [Byte.x00; Byte.x10].
Definition silentFrame : Buffer := [Byte.x00; Byte.x00].

(** Half a second of synthesized audio would be 24000 bytes; four bytes
    are enough to follow the code. *)
Definition someAudio : Buffer := [Byte.x01; Byte.x02; Byte.x03; Byte.x04].

Definition noToolServer : ToolExecutor.ToolServer :=
  fun _ _ _ => inr "fetch failed".

(** The session started at time 1000 and is waiting for the synthesis
    of "Hi.". *)
Definition seedStarted : World := connected seedConfig 1000.

(** The user speaks over the pending first message: the session is
    interrupted before the synthesis settles. *)
Definition seedInterrupted : World :=
  run seedConfig seedStarted [(1100, SocketMessage (inl voiceFrame))].

(** ** Endpointing, in the words of the specification *)

(** The timeout that is used: the configured one, capped at 1200 ms. *)
Definition effectiveSilenceTimeout (a : Assistant.t) : Z :=
  if Assistant.silenceTimeoutMs a >? 1200 then 1200
  else Assistant.silenceTimeoutMs a.

(** The silence measured when a frame arrives: the time since silence
    began, which is now if it begins with this frame. *)
Definition measuredSilence (w : World) : Z :=
  clock w - (if silenceStart (sess w) =? 0 then clock w
             else silenceStart (sess w)).

Definition isSilent (data : Buffer) : bool :=
  match detectVoiceActivity data with
  | Ok false => true
  | _ => false
  end.

(** The frame is handled by the listening branch of [handleAudioData]. *)
Definition listensTo (config : SessionConfig) (w : World) : bool :=
  negb (isEnded (sess w))
  && negb (SessionState_eqb (state (sess w)) speaking
           && Assistant.interruptionEnabled (assistant config)).

(** The endpoint fires: a silent frame, while the user is speaking, with
    the measured silence above the effective timeout. *)
Definition endpointFires (config : SessionConfig) (w : World) (data : Buffer) : bool :=
  listensTo config w
  && isSilent data
  && isSpeaking (sess w)
  && (measuredSilence w >? effectiveSilenceTimeout (assistant config)).

Definition eventFrame (type : string) (data : JValue) (now : Z) : Frame :=
  TextFrame (JObj [("type", JStr type); ("data", data); ("timestamp", JNum now)]).

(** ** Starting a session *)

Definition withFirstMessageMode (mode : FirstMessageMode) (config : SessionConfig)
  : SessionConfig :=
  let a := assistant config in
  {| callId := callId config;
     orgId := orgId config;
     assistant :=
       {| Assistant.name := Assistant.name a;
          Assistant.systemPrompt := Assistant.systemPrompt a;
          Assistant.firstMessage := Assistant.firstMessage a;
          Assistant.firstMessageMode := mode;
          Assistant.interruptionEnabled := Assistant.interruptionEnabled a;
          Assistant.silenceTimeoutMs := Assistant.silenceTimeoutMs a;
          Assistant.maxCallDurationSeconds := Assistant.maxCallDurationSeconds a |};
     tools := tools config |}.

Definition withMaxCallDuration (seconds : Z) (config : SessionConfig)
  : SessionConfig :=
  let a := assistant config in
  {| callId := callId config;
     orgId := orgId config;
     assistant :=
       {| Assistant.name := Assistant.name a;
          Assistant.systemPrompt := Assistant.systemPrompt a;
          Assistant.firstMessage := Assistant.firstMessage a;
          Assistant.firstMessageMode := Assistant.firstMessageMode a;
          Assistant.interruptionEnabled := Assistant.interruptionEnabled a;
          Assistant.silenceTimeoutMs := Assistant.silenceTimeoutMs a;
          Assistant.maxCallDurationSeconds := seconds |};
     tools := tools config |}.

Definition callStartedFrame (config : SessionConfig) (now : Z) : Frame :=
  eventFrame "call.started"
    (JObj [("callId", JStr (callId config));
           ("assistant", JStr (Assistant.name (assistant config)))]) now.

Definition startWrite (config : SessionConfig) (now : Z) : DbOp :=
  CallUpdate (callId config)
    [("status", JStr "active"); ("startedAt", JNum now)].

(** The [CallMessage] row of a first message. *)
Definition firstMessageRow (config : SessionConfig) (first : string) : DbOp :=
  CallMessageCreate
    [("callId", JStr (callId config));
     ("role", JStr "assistant");
     ("content", JStr first);
     ("toolName", JUndefined);
     ("toolArguments", JUndefined);
     ("toolResult", JUndefined);
     ("timestampMs", JNum 0);
     ("sttLatencyMs", JUndefined);
     ("llmLatencyMs", JUndefined);
     ("ttsLatencyMs", JUndefined)].

Definition isCallMessage (op : DbOp) : bool :=
  match op with CallMessageCreate _ => true | CallUpdate _ _ => false end.

(** [start] has spoken the first message [first]. *)
Definition firstMessageSpoken (config : SessionConfig) (first : string)
           (w w' : World) : Prop :=
  messages (sess w')
  = messages (sess w) ++ [ {| role := assistantRole; content := Lit first;
                              toolCallId := None |} ] /\
  since (emitted w) (emitted w')
  = [callStartedFrame config (clock w);
     eventFrame "assistant.message" (JObj [("text", JStr first)]) (clock w)] /\
  since (db w) (db w')
  = [startWrite config (clock w); firstMessageRow config first] /\
  count isCallMessage (since (db w) (db w')) = 1%nat /\
  pending w'
  = pending w ++ [PTts (currentSynthesisId (sess w) + 1) (clock w) first] /\
  state (sess w') = speaking.

(** [start] has said nothing and waits for the user. *)
Definition staysSilent (config : SessionConfig) (w w' : World) : Prop :=
  messages (sess w') = messages (sess w) /\
  since (emitted w) (emitted w') = [callStartedFrame config (clock w)] /\
  since (db w) (db w') = [startWrite config (clock w)] /\
  pending w' = pending w /\
  state (sess w') = listening.

(** The seed assistant, told to wait for the user. *)
Definition waitingConfig : SessionConfig :=
  withFirstMessageMode AssistantWaitsForUser seedConfig.

(** The declared [CallStatus] of the shared types. *)
Definition CallStatus : list string :=
  ["queued"; "ringing"; "in-progress"; "completed"; "failed"; "no-answer";
   "busy"].

Definition routeWrite (config : SessionConfig) (now : Z) : DbOp :=
  CallUpdate (callId config)
    [("status", JStr "in-progress"); ("startedAt", JNum now)].

Definition statusWritten (op : DbOp) : option string :=
  match op with
  | CallUpdate _ data =>
      match assoc "status" data with
      | JStr s => Some s
      | _ => None
      end
  | CallMessageCreate _ => None
  end.

(** ** Ending a call *)

(** The reasons with which the engine calls [end]. *)
Definition endReasons : list string :=
  ["client-request"; "client-disconnect"; "assistant-ended"; "api-request";
   "server-shutdown"].

Definition endedReason (f : Frame) : option string :=
  if isEvent "call.ended" f then
    match prop "reason" (eventData f) with
    | JStr r => Some r
    | _ => Some EmptyString
    end
  else None.

Definition endedReasonOk (f : Frame) : bool :=
  match endedReason f with
  | Some r => existsb (String.eqb r) endReasons
  | None => true
  end.

(** Every [call.ended] handed to the socket so far names one of
    [endReasons]. *)
Definition endedForKnownReason (w : World) : Prop :=
  forallb endedReasonOk (emitted w) = true.

Definition keepsKnownReasons (w w' : World) : Prop :=
  endedForKnownReason w -> endedForKnownReason w'.

(** A call of the seed assistant (at most 60 s) that is still going on
    200 s after it started: the first message is played, the user asks
    something at 59 s, keeps the line open, and speaks again later. *)
Definition longCall : list (Z * Event) :=
  [ (1200, TtsSettled 1 1000 (Ok someAudio));
    (1800, TimerFired 1);
    (60000, SocketMessage (inl voiceFrame));
    (60100, SocketMessage (inl silentFrame));
    (61000, SocketMessage (inl silentFrame));
    (61500, SttSettled 61000 (Ok "what time is it"));
    (62000, LlmSettled 61500
              (Ok {| r_content := "It is 3 pm."; r_toolCalls := None |})
              noToolServer);
    (62400, TtsSettled 2 62000 (Ok someAudio));
    (63000, TimerFired 2);
    (120000, SocketMessage (inl silentFrame));
    (201000, SocketMessage (inl voiceFrame)) ].

(** ** Provider failures and tool calls *)

Definition providerDown : JsError := Error "Deepgram error: 500".

(** The seed session listening: the first message has been played. *)
Definition seedListening : World :=
  run seedConfig seedStarted
      [(1200, TtsSettled 1 1000 (Ok someAudio)); (1800, TimerFired 1)].

(** The user has said something and the endpoint has fired at 3000. *)
Definition seedHeard : World :=
  run seedConfig seedListening
      [(2000, SocketMessage (inl voiceFrame));
       (2100, SocketMessage (inl silentFrame));
       (3000, SocketMessage (inl silentFrame))].

(** The model asks for a transfer, as the projected tool definition
    tells it to: the destination under [destination]. *)
Definition transferCall (destination : string) : ToolCall :=
  {| tc_id := "call_1";
     tc_name := "transferCall";
     tc_arguments := JObj [("destination", JStr destination)] |}.

Definition transferTurn : list (Z * Event) :=
  [ (3300, SttSettled 3000 (Ok "put me through to sales"));
    (3600, LlmSettled 3300
             (Ok {| r_content := EmptyString;
                    r_toolCalls := Some [transferCall "+15551234"] |})
             noToolServer);
    (3900, LlmSettled 3600
             (Ok {| r_content := "Transferring you now."; r_toolCalls := None |})
             noToolServer);
    (4200, TtsSettled 2 3900 (Ok someAudio)) ].

(** ** Recording *)

Definition audioPayload (f : Frame) : list Buffer :=
  match f with
  | BinaryFrame audio => [audio]
  | TextFrame _ => []
  end.

(** The audio buffers handed to the socket so far, oldest first. *)
Definition sentAudio (w : World) : list Buffer :=
  flat_map audioPayload (emitted w).

Definition twice (audio : Buffer) : list Buffer := [audio; audio].

(** The assistant recording holds every buffer that was sent, twice. *)
Definition recordedTwice (w : World) : Prop :=
  assistantAudioChunks (sess w) = flat_map twice (sentAudio w).

(** Nothing sent, nothing recorded, and a socket that is open
    afterwards was open before. *)
Definition keepsRecording (w w' : World) : Prop :=
  sentAudio w' = sentAudio w /\
  assistantAudioChunks (sess w') = assistantAudioChunks (sess w) /\
  (isOpen (readyState w') = true -> isOpen (readyState w) = true).

Definition recordsTwiceWhileOpen (w w' : World) : Prop :=
  isOpen (readyState w') = true ->
  isOpen (readyState w) = true /\ (recordedTwice w -> recordedTwice w').

(** The client asks to end the call while the first message is still
    being synthesized; the audio arrives on the closed socket. *)
Definition seedEndedWhileSynthesizing : World :=
  run seedConfig seedStarted
      [(1100, SocketMessage (inr (Ok (JObj [("type", JStr "end")]))))].

(** A frame of three bytes. *)
Definition oddFrame : Buffer := [Byte.x00; Byte.x10; Byte.x00].

(** The barge-in branch of [handleAudioData]. *)
Definition bargesIn (config : SessionConfig) (w : World) : bool :=
  SessionState_eqb (state (sess w)) speaking
  && Assistant.interruptionEnabled (assistant config).

(** ** Reading samples *)

(** The sign extension of [readInt16LE] agrees with [int16] on the
    16-bit value [v]. *)
Definition signExtendOk (v : Z) : bool :=
  toInt32 (Z.lor (toInt32 v) (toInt32 (Z.land v (2 ^ 15) * 0x1fffe))) =? int16 v.

(** [signExtendOk] on the [n] values from [v] on. *)
Fixpoint signExtendOkFrom (n : nat) (v : Z) : bool :=
  match n with
  | O => true
  | S n' => signExtendOk v && signExtendOkFrom n' (v + 1)
  end.

(** An assistant configured with a silence timeout of 2000 ms. *)
Definition patientConfig : SessionConfig :=
  {| callId := "call-2";
     orgId := "org-1";
     assistant :=
       {| Assistant.name := "Patient";
          Assistant.systemPrompt := "You are a helpful assistant.";
          Assistant.firstMessage := None;
          Assistant.firstMessageMode := AssistantSpeaksFirst;
          Assistant.interruptionEnabled := true;
          Assistant.silenceTimeoutMs := 2000;
          Assistant.maxCallDurationSeconds := 1800 |};
     tools := [] |}.

(** Its user has spoken at 2000 and has been silent since 2100; a
    silent frame arrives at 3400, after 1300 ms of silence. *)
Definition patientHeard : World :=
  with_clock 3400
    (run patientConfig (connected patientConfig 1000)
       [(2000, SocketMessage (inl voiceFrame));
        (2100, SocketMessage (inl silentFrame))]).

(** After the odd frame, the user speaks and falls silent. *)
Definition afterOddFrame : list (Z * Event) :=
  [ (2000, SocketMessage (inl oddFrame));
    (2100, SocketMessage (inl voiceFrame));
    (2200, SocketMessage (inl silentFrame));
    (3100, SocketMessage (inl silentFrame)) ].

(** ** The transcript: history and [CallMessage] rows *)

(** The role of a message as the string the source writes. *)
Definition roleName (r : Role) : string :=
  match r with
  | system => "system"
  | user => "user"
  | assistantRole => "assistant"
  | tool => "tool"
  end.

(** What a message of the history says, and what a [CallMessage] row
    says: the role and the content. *)
Definition spoken (m : Message) : JValue * JValue :=
  (JStr (roleName (role m)), textJson (content m)).

Definition persistedTurn (op : DbOp) : list (JValue * JValue) :=
  match op with
  | CallMessageCreate data => [(assoc "role" data, assoc "content" data)]
  | CallUpdate _ _ => []
  end.

(** The history after the system prompt, and the rows written so far. *)
Definition transcript (w : World) : list (JValue * JValue) :=
  map spoken (tl (messages (sess w))).

Definition persistedTranscript (w : World) : list (JValue * JValue) :=
  flat_map persistedTurn (db w).

(** The history grew at its end, and every message it grew by has its
    row. *)
Definition mirrors (w w' : World) : Prop :=
  exists added,
    messages (sess w') = messages (sess w) ++ added /\
    persistedTranscript w' = persistedTranscript w ++ map spoken added.

Definition systemMessage (config : SessionConfig) : Message :=
  {| role := system;
     content := Lit (Assistant.systemPrompt (assistant config));
     toolCallId := None |}.

(** ** The start time *)

Definition startTimeSame (w w' : World) : Prop :=
  startTime (sess w') = startTime (sess w).

(** ** The row of a call that ended *)

(** Between two worlds the clock and the start time stand still, the
    database only grows, and if the session ended in between, the final
    write of the [Call] row is there, computed from the clock and the
    start time. *)
Definition finalises (config : SessionConfig) (w w' : World) : Prop :=
  clock w' = clock w /\
  startTime (sess w') = startTime (sess w) /\
  (exists added, db w' = db w ++ added) /\
  (isEnded (sess w') = true ->
   isEnded (sess w) = true \/
   exists reason,
     In (finalWrite config reason (clock w) (startTime (sess w))) (db w')).

(** The call that started at [t0] is accounted for: its row says when
    it started and, once the session has ended, how it ended. *)
Definition callAccounted (config : SessionConfig) (t0 : Z) (w : World) : Prop :=
  startTime (sess w) = t0 /\
  t0 <= clock w /\
  In (startWrite config t0) (db w) /\
  (isEnded (sess w) = true ->
   exists reason endedAt,
     t0 <= endedAt /\ In (finalWrite config reason endedAt t0) (db w)).

(** ** Syntheses in flight *)

Definition ttsId (p : Pending) : list Z :=
  match p with
  | PTts synthesisId _ _ => [synthesisId]
  | _ => []
  end.

(** The ids captured by the syntheses that have not settled yet. *)
Definition synthesesInFlight (w : World) : list Z := flat_map ttsId (pending w).

Definition synthesesOrdered (w : World) : Prop :=
  NoDup (synthesesInFlight w) /\
  Forall (fun i => i <= currentSynthesisId (sess w)) (synthesesInFlight w).

Definition keepsSynthesesOrdered (w w' : World) : Prop :=
  synthesesOrdered w -> synthesesOrdered w'.

(** ** The user's recording *)

Definition sameUserAudio (w w' : World) : Prop :=
  userAudioChunks (sess w') = userAudioChunks (sess w).

(** The frame an event adds to the user's recording: an audio frame that
    reaches a session whose listeners are installed and that has not
    ended. *)
Definition heardFrame (w : World) (te : Z * Event) : list Buffer :=
  match snd te with
  | SocketMessage (inl data) =>
      if handlersInstalled w && negb (isEnded (sess w)) then [data] else []
  | _ => []
  end.

Fixpoint heard (config : SessionConfig) (w : World) (trace : list (Z * Event))
  : list Buffer :=
  match trace with
  | [] => []
  | te :: rest => heardFrame w te ++ heard config (step config w te) rest
  end.

(** ** Events as the socket gets them *)

Definition sentEvent (type : string) (data : JValue) (now : Z) : Frame :=
  TextFrame (jsonClean (JObj [("type", JStr type); ("data", data);
                              ("timestamp", JNum now)])).

(** The two events of a [transferCall] tool call. *)
Definition transferFrames (now : Z) (toolCall : ToolCall) : list Frame :=
  [ sentEvent "tool.called"
      (JObj [("name", JStr (tc_name toolCall));
             ("arguments", tc_arguments toolCall)]) now;
    sentEvent "transfer.started"
      (JObj [("destination", prop "number" (tc_arguments toolCall))]) now ].

Definition isBlank (s : string) : bool :=
  forallb isWhiteSpace (list_ascii_of_string s).

(** The row of a user's turn. *)
Definition userRow (config : SessionConfig) (transcript : string)
           (timestampMs sttLatencyMs : Z) : DbOp :=
  CallMessageCreate
    [("callId", JStr (callId config));
     ("role", JStr "user");
     ("content", JStr transcript);
     ("toolName", JUndefined);
     ("toolArguments", JUndefined);
     ("toolResult", JUndefined);
     ("timestampMs", JNum timestampMs);
     ("sttLatencyMs", JNum sttLatencyMs);
     ("llmLatencyMs", JUndefined);
     ("ttsLatencyMs", JUndefined)].

(** ** [getInfo] and the session routes ([index.ts]) *)

(** [avg]: [Math.round(sum / length)], 0 for an empty array.  The
    latencies are whole milliseconds, far below 2^53, so their sum is
    the exact one. *)
Definition avg (arr : list Z) : Z :=
  if Nat.eqb (List.length arr) 0 then 0
  else Math_round (PrimFloat.div (float_of_Z (fold_left Z.add arr 0))
                                 (float_of_Z (Z.of_nat (List.length arr)))).

Record SessionMetrics : Type := {
  avgSttLatency : Z;
  avgLlmLatency : Z;
  avgTtsLatency : Z
}.

Record SessionInfo : Type := {
  info_callId : string;
  info_state : SessionState;
  info_duration : Z;
  info_messageCount : Z;
  info_metrics : SessionMetrics
}.

Definition getInfo (config : SessionConfig) : M SessionInfo :=
  s <- this ;;
  now <- Date_now ;;
  ret {| info_callId := callId config;
         info_state := state s;
         info_duration := (now - startTime s) / 1000;
         info_messageCount := Z.of_nat (List.length (messages s));
         info_metrics :=
           {| avgSttLatency := avg (sttLatency s);
              avgLlmLatency := avg (llmLatency s);
              avgTtsLatency := avg (ttsLatency s) |} |}.

(** The reply of a session route: 404 with "Session not found", or 200
    with the data. *)
Inductive Reply (A : Type) : Type :=
| NotFound
| Success (data : A).
Arguments NotFound {A}.
Arguments Success {A} data.

(** [GET /sessions/:callId] *)
Definition getSessionRoute (config : SessionConfig) : M (Reply SessionInfo) :=
  w <- getWorld ;;
  if registered w then
    info <- getInfo config ;;
    ret (Success info)
  else ret NotFound.

(** [POST /sessions/:callId/end]; the data is [{ ended: true }]. *)
Definition endSessionRoute (config : SessionConfig) : M (Reply bool) :=
  w <- getWorld ;;
  if registered w then
    end_ config "api-request" ;;
    ret (Success true)
  else ret NotFound.

(** The client of the seed call asks to end it at 1100. *)
Definition clientEnds : list (Z * Event) :=
  [(1100, SocketMessage (inr (Ok (JObj [("type", JStr "end")]))))].

(** ** A response that carries tool calls *)

(** The tool message of a call that the executor ran. *)
Definition toolMessage (config : SessionConfig) (server : ToolExecutor.ToolServer)
           (toolCall : ToolCall) : Message :=
  {| role := tool;
     content :=
       Stringified (ToolExecutor.execute server (toolExecutor config)
                      (tc_name toolCall) (tc_arguments toolCall));
     toolCallId := Some (tc_id toolCall) |}.

(** The two names that [handleToolCall] handles itself. *)
Definition isIntercepted (toolCall : ToolCall) : bool :=
  String.eqb (tc_name toolCall) "endCall"
  || String.eqb (tc_name toolCall) "transferCall".

Definition toolMessages (config : SessionConfig) (server : ToolExecutor.ToolServer)
           (toolCalls : list ToolCall) : list Message :=
  flat_map (fun tc => if isIntercepted tc then []
                      else [toolMessage config server tc]) toolCalls.

(** What handling [n] tool calls does: the history grows by [msgs], the
    socket gets [n] [tool.called] events and no [assistant.message];
    requests in flight, clock, counter and state stay. *)
Definition toolTurn (w w' : World) (msgs : list Message) (n : nat) : Prop :=
  messages (sess w') = messages (sess w) ++ msgs /\
  pending w' = pending w /\
  clock w' = clock w /\
  currentSynthesisId (sess w') = currentSynthesisId (sess w) /\
  state (sess w') = state (sess w) /\
  exists frames,
    emitted w' = emitted w ++ frames /\
    existsb (isEvent "assistant.message") frames = false /\
    count (isEvent "tool.called") frames = n.

(** The model ends the seed call. *)
Definition endCallCall : ToolCall :=
  {| tc_id := "call_2";
     tc_name := "endCall";
     tc_arguments := JObj [("reason", JStr "done")] |}.

(** The seed assistant with interruption switched off, started at 1000
    and speaking its first message. *)
Definition steadyConfig : SessionConfig :=
  {| callId := "call-3";
     orgId := "org-1";
     assistant :=
       {| Assistant.name := "Steady";
          Assistant.systemPrompt := "You are a helpful assistant.";
          Assistant.firstMessage := Some "Hi.";
          Assistant.firstMessageMode := AssistantSpeaksFirst;
          Assistant.interruptionEnabled := false;
          Assistant.silenceTimeoutMs := 800;
          Assistant.maxCallDurationSeconds := 60 |};
     tools := [] |}.

Definition steadySpeaking : World := connected steadyConfig 1000.

(** ** The tool executor: names and routes *)

(** The names that [execute] answers itself. *)
Definition isBuiltinName (nm : string) : bool :=
  String.eqb nm "endCall"
  || String.eqb nm "transferCall"
  || String.eqb nm "pressDigits"
  || String.prefix "queryKnowledge_" nm.

Definition unknownTool (nm : string) : JValue :=
  JObj [("error", JStr ("Unknown tool: " ++ nm))].

(** What [execute] makes of the tool server's answer. *)
Definition served (answer : JValue + string) : JValue :=
  match answer with
  | inl body => body
  | inr message => JObj [("error", JStr message)]
  end.

Definition named (k : string) (tool : Tool.t) : bool :=
  String.eqb (Tool.name tool) k.

(** A tool that projects one of the built-in definitions. *)
Definition isBuiltinTool (tool : Tool.t) : bool :=
  negb (String.eqb (Tool.type tool) "function"
        && truthy (Tool.functionDefinition tool))
  && (String.eqb (Tool.type tool) "transfer"
      || String.eqb (Tool.type tool) "endCall"
      || String.eqb (Tool.type tool) "query"
      || String.eqb (Tool.type tool) "dtmf").

(** A function tool served at [https://tools.example/run], and a second
    tool that declares the same function name and has no server. *)
Definition weatherTool : Tool.t :=
  {| Tool.id := "t2";
     Tool.name := "weather";
     Tool.type := "function";
     Tool.description := None;
     Tool.functionDefinition := JObj [("name", JStr "getWeather")];
     Tool.serverUrl := Some "https://tools.example/run" |}.

Definition weatherDraft : Tool.t :=
  {| Tool.id := "t3";
     Tool.name := "weather-draft";
     Tool.type := "function";
     Tool.description := None;
     Tool.functionDefinition := JObj [("name", JStr "getWeather")];
     Tool.serverUrl := None |}.

Definition echoServer : ToolExecutor.ToolServer :=
  fun url nm args => inl (JObj [("url", JStr url); ("tool", JStr nm)]).

(** ** Phone numbers ([packages/shared/src/utils.ts]) *)

Definition isDigit (c : ascii) : bool :=
  let n := nat_of_ascii c in ((48 <=? n) && (n <=? 57))%nat.

(** [s.replace(/\D/g, '')] *)
Definition digitsOf (s : string) : string :=
  string_of_list_ascii (filter isDigit (list_ascii_of_string s)).

(** [formatE164(phoneNumber, defaultCountry = 'US')] *)
Definition formatE164 (phoneNumber : string) (defaultCountry : string) : string :=
  let digits := digitsOf phoneNumber in
  if String.eqb defaultCountry "US" then
    let digits :=
      if Nat.eqb (String.length digits) 10 then ("1" ++ digits)%string
      else digits in
    if Nat.eqb (String.length digits) 11 && String.prefix "1" digits then
      ("+" ++ digits)%string
    else ("+" ++ digits)%string
  else ("+" ++ digits)%string.

(** [s.slice(from, to)] for [0 <= from <= to]. *)
Definition slice (from to : nat) (s : string) : string :=
  String.substring from (to - from) s.

(** [s.slice(from)] *)
Definition sliceFrom (from : nat) (s : string) : string :=
  String.substring from (String.length s - from) s.

Definition formatPhoneDisplay (e164 : string) : string :=
  let digits := digitsOf e164 in
  if Nat.eqb (String.length digits) 11 && String.prefix "1" digits then
    ("+1 (" ++ slice 1 4 digits ++ ") " ++ slice 4 7 digits ++ "-"
     ++ sliceFrom 7 digits)%string
  else e164.

(** ** Twilio's status callback ([telephony/router.ts]) *)

(** [parseInt(s)] without a radix, over ASCII text: leading white space,
    a sign, [0x] for radix 16, then digits up to the first character
    that is none.  [None] is [NaN]; the integer is the mathematical one,
    which is the number itself below 2^53. *)
Definition digitValue (radix : Z) (c : ascii) : option Z :=
  let n := Z.of_nat (nat_of_ascii c) in
  let v := if (48 <=? n) && (n <=? 57) then Some (n - 48)
           else if (97 <=? n) && (n <=? 122) then Some (n - 87)
           else if (65 <=? n) && (n <=? 90) then Some (n - 55)
           else None in
  match v with
  | Some d => if d <? radix then Some d else None
  | None => None
  end.

Fixpoint parseDigits (radix : Z) (l : list ascii) (acc : option Z) : option Z :=
  match l with
  | c :: rest =>
      match digitValue radix c with
      | Some d =>
          parseDigits radix rest
            (Some (radix * match acc with Some a => a | None => 0 end + d))
      | None => acc
      end
  | [] => acc
  end.

Definition parseInt (s : string) : option Z :=
  let l := trimStartL (list_ascii_of_string s) in
  let '(sign, l) :=
    match l with
    | "-"%char :: r => (-1, r)
    | "+"%char :: r => (1, r)
    | _ => (1, l)
    end in
  let '(radix, l) :=
    match l with
    | "0"%char :: "x"%char :: r => (16, r)
    | "0"%char :: "X"%char :: r => (16, r)
    | _ => (10, l)
    end in
  option_map (Z.mul sign) (parseDigits radix l None).

(** [obj[key]] on an object literal: an own property, a member that
    every object inherits from [Object.prototype], or [undefined]. *)
Inductive Looked : Type :=
| Own (v : string)
| Inherited (name : string)
| Absent.

Definition objectPrototypeNames : list string :=
  ["constructor"; "__defineGetter__"; "__defineSetter__"; "hasOwnProperty";
   "__lookupGetter__"; "__lookupSetter__"; "isPrototypeOf";
   "propertyIsEnumerable"; "toString"; "valueOf"; "__proto__";
   "toLocaleString"].

Fixpoint ownProperty (fields : list (string * string)) (key : string)
  : option string :=
  match fields with
  | [] => None
  | (k, v) :: rest => if String.eqb key k then Some v else ownProperty rest key
  end.

Definition member (fields : list (string * string)) (key : string) : Looked :=
  match ownProperty fields key with
  | Some v => Own v
  | None =>
      if existsb (String.eqb key) objectPrototypeNames then Inherited key
      else Absent
  end.

Definition statusMap : list (string * string) :=
  [("queued", "queued");
   ("ringing", "ringing");
   ("in-progress", "in-progress");
   ("completed", "completed");
   ("busy", "failed");
   ("failed", "failed");
   ("no-answer", "no-answer");
   ("canceled", "failed")].

(** The value handed to the database as [status]: a string, or a member
    of [Object.prototype]. *)
Inductive StatusValue : Type :=
| StatusString (s : string)
| StatusMember (name : string).

Record TwilioStatusBody : Type := {
  CallSid : string;
  body_CallStatus : string;
  CallDuration : option string
}.

(** The [data] of the update; [None] is a field that is left out. *)
Record StatusUpdate : Type := {
  upd_status : StatusValue;
  upd_durationSeconds : option (option Z);
  upd_endedAt : option Z
}.

Definition isString (v : StatusValue) (s : string) : bool :=
  match v with
  | StatusString x => String.eqb x s
  | StatusMember _ => false
  end.

(** [statusMap[body.CallStatus] || body.CallStatus] and the update made
    of it. *)
Definition mappedStatus (callStatus : string) : StatusValue :=
  match member statusMap callStatus with
  | Own v => if String.eqb v EmptyString then StatusString callStatus else StatusString v
  | Inherited name => StatusMember name
  | Absent => StatusString callStatus
  end.

Definition statusUpdate (body : TwilioStatusBody) (now : Z) : StatusUpdate :=
  let status := mappedStatus (body_CallStatus body) in
  {| upd_status := status;
     upd_durationSeconds :=
       match CallDuration body with
       | Some d => if String.eqb d EmptyString then None else Some (parseInt d)
       | None => None
       end;
     upd_endedAt :=
       if isString status "completed" || isString status "failed" then Some now
       else None |}.

(** [handleTwilioStatus]: [call] is the id of the call that
    [findFirst] found by the Twilio SID, if any.  The result is the
    update handed to [prisma.call.update], if any; the reply is
    [{ ok: true }]. *)
Definition handleTwilioStatus (call : option string) (body : TwilioStatusBody)
           (now : Z) : list (string * StatusUpdate) :=
  match call with
  | None => []
  | Some id => [(id, statusUpdate body now)]
  end.

(** The statuses Twilio reports. *)
Definition twilioStatuses : list string := map fst statusMap.

(** ** Costs, checked against exact arithmetic *)

(** The costs of a call of [d] seconds against the exact rates, 1 cent
    per 100 s of transcription and 1 cent per 40 s of generation and of
    synthesis, rounded to the nearest cent with a tie going up. *)
Definition costsOk (d : Z) : bool :=
  let c := calculateCosts d in
  (cost_llm c =? (d + 20) / 40)
  && (cost_tts c =? (d + 20) / 40)
  && ((d + 50) / 100 - 1 <=? cost_stt c)
  && (cost_stt c <=? (d + 50) / 100)
  && ((d mod 100 =? 50) || (cost_stt c =? (d + 50) / 100))
  && (cost_total c =? cost_stt c + cost_llm c + cost_tts c).

(** [costsOk] on the [n] durations from [d] on. *)
Fixpoint costsOkFrom (n : nat) (d : Z) : bool :=
  match n with
  | O => true
  | S n' => costsOk d && costsOkFrom n' (d + 1)
  end.

(** ** Phone numbers *)

Definition allDigits (s : string) : bool :=
  forallb isDigit (list_ascii_of_string s).

(** The digits that [formatE164] puts after the plus sign. *)
Definition e164Digits (phoneNumber defaultCountry : string) : string :=
  if String.eqb defaultCountry "US"
     && Nat.eqb (String.length (digitsOf phoneNumber)) 10
  then ("1" ++ digitsOf phoneNumber)%string
  else digitsOf phoneNumber.

(** ** Twilio's statuses *)

(** The statuses the status callback writes for the statuses Twilio
    reports. *)
Definition writtenStatuses : list string :=
  ["queued"; "ringing"; "in-progress"; "completed"; "failed"; "no-answer"].

(** The statuses of Twilio that end a call. *)
Definition finalTwilioStatuses : list string :=
  ["completed"; "busy"; "failed"; "canceled"].

Definition inList (s : string) (l : list string) : bool :=
  existsb (String.eqb s) l.

(** ** Control messages *)

(** The parsed text frame is one of the two commands of the protocol. *)
Definition isCommand (parsed : outcome JValue) : bool :=
  match parsed with
  | Ok (JObj fields) =>
      match assoc "type" fields with
      | JStr t => String.eqb t "end" || String.eqb t "interrupt"
      | _ => false
      end
  | _ => false
  end.

(** The frame cannot be handled at all: it is no JSON, or it is [null]. *)
Definition isMalformed (parsed : outcome JValue) : bool :=
  match parsed with
  | Throw _ => true
  | Ok JNull | Ok JUndefined => true
  | Ok _ => false
  end.

(** ** Inbound calls ([telephony/router.ts]) *)

Module PhoneNumber.
(** Modelled from the spec: the [PhoneNumber] row of the database
    package, whose schema is not among the sources, with the relations
    the handlers include.  The fields are those the handlers read; an
    included assistant is known by its id, and a squad by its entry
    assistant, which may be missing. *)
Record t : Type := {
  id : string;
  orgId : string;
  inboundAssistant : option string;
  inboundAssistantId : option string;
  inboundSquad : option (option string);
  inboundSquadId : option string
}.
End PhoneNumber.

(** The [data] of [prisma.call.create]. *)
Record CallData : Type := {
  cd_orgId : string;
  cd_type : string;
  cd_status : string;
  cd_phoneNumberId : string;
  cd_fromNumber : string;
  cd_toNumber : string;
  cd_assistantId : option string;
  cd_squadId : option (option string);
  cd_metadata : list (string * string)
}.

(** TwiML, as far as the router writes it. *)
Inductive Verb : Type :=
| Say (text : string)
| Hangup
| ConnectStream (url statusCallback : string).

(** What the handlers find around them: the two environment variables,
    the active number of a provider under an E.164 key, and the id the
    database gives a new call. *)
Record Surroundings : Type := {
  VOICE_ENGINE_WS_URL : option string;
  API_URL : option string;
  findFirst : string -> string -> outcome (option PhoneNumber.t);
  create : CallData -> outcome string
}.

(** An environment variable inside a template string. *)
Definition interpolated (v : option string) : string :=
  match v with
  | Some s => s
  | None => "undefined"
  end.

Record TwilioInboundBody : Type := {
  in_CallSid : string;
  in_From : string;
  in_To : string
}.

Definition goodbye (text : string) : list Verb := [Say text; Hangup].

(** [a || b] on two rows that may be missing. *)
Definition orElse {A} (a b : option A) : option A :=
  match a with
  | Some x => Some x
  | None => b
  end.

(** [handleTwilioInbound]: the rows created and the TwiML sent. *)
Definition handleTwilioInbound (env : Surroundings) (body : TwilioInboundBody)
  : list CallData * list Verb :=
  let failed := ([], goodbye "An error occurred. Please try again later.") in
  match findFirst env "twilio" (formatE164 (in_To body) "US") with
  | Throw _ => failed
  | Ok None => ([], goodbye "This number is not configured. Goodbye.")
  | Ok (Some phoneNumber) =>
      let assistant :=
        orElse (PhoneNumber.inboundAssistant phoneNumber)
               (match PhoneNumber.inboundSquad phoneNumber with
                | Some squad => squad
                | None => None
                end) in
      match assistant with
      | None =>
          ([], goodbye "No assistant is configured for this number. Goodbye.")
      | Some assistantId =>
          let data :=
            {| cd_orgId := PhoneNumber.orgId phoneNumber;
               cd_type := "inbound";
               cd_status := "ringing";
               cd_phoneNumberId := PhoneNumber.id phoneNumber;
               cd_fromNumber := in_From body;
               cd_toNumber := in_To body;
               cd_assistantId := Some assistantId;
               cd_squadId := Some (PhoneNumber.inboundSquadId phoneNumber);
               cd_metadata := [("twilioCallSid", in_CallSid body)] |} in
          match create env data with
          | Throw _ => failed
          | Ok callId =>
              ([data],
               [ConnectStream
                  (interpolated (VOICE_ENGINE_WS_URL env) ++ "/ws/" ++ callId)
                  (interpolated (API_URL env) ++ "/telephony/twilio/status")])
          end
      end
  end.

Record TelnyxPayload : Type := {
  call_control_id : string;
  call_session_id : string;
  tx_from : string;
  tx_to : string
}.

(** The two call-control requests the router sends to Telnyx. *)
Inductive TelnyxAction : Type :=
| Reject (callControlId cause : string)
| Answer (callControlId : string).

(** [handleTelnyxInbound]: the requests sent to Telnyx, the rows
    created, and how the handler ends; the reply is [{ ok: true }]
    unless it throws.  The requests to Telnyx are taken to come back. *)
Definition handleTelnyxInbound (env : Surroundings) (event_type : string)
           (payload : TelnyxPayload)
  : list TelnyxAction * list CallData * outcome unit :=
  if String.eqb event_type "call.initiated" then
    match findFirst env "telnyx" (formatE164 (tx_to payload) "US") with
    | Throw e => ([], [], Throw e)
    | Ok found =>
        let rejected :=
          ([Reject (call_control_id payload) "USER_BUSY"], [], Ok tt) in
        match found with
        | Some phoneNumber =>
            match PhoneNumber.inboundAssistant phoneNumber with
            | Some _ =>
                let data :=
                  {| cd_orgId := PhoneNumber.orgId phoneNumber;
                     cd_type := "inbound";
                     cd_status := "ringing";
                     cd_phoneNumberId := PhoneNumber.id phoneNumber;
                     cd_fromNumber := tx_from payload;
                     cd_toNumber := tx_to payload;
                     cd_assistantId := PhoneNumber.inboundAssistantId phoneNumber;
                     cd_squadId := None;
                     cd_metadata :=
                       [("telnyxCallControlId", call_control_id payload);
                        ("telnyxCallSessionId", call_session_id payload)] |} in
                match create env data with
                | Throw e => ([Answer (call_control_id payload)], [], Throw e)
                | Ok _ => ([Answer (call_control_id payload)], [data], Ok tt)
                end
            | None => rejected
            end
        | None => rejected
        end
    end
  else ([], [], Ok tt).

(** A number that is assigned to a squad only. *)
Definition squadNumber : PhoneNumber.t :=
  {| PhoneNumber.id := "pn-1";
     PhoneNumber.orgId := "org-1";
     PhoneNumber.inboundAssistant := None;
     PhoneNumber.inboundAssistantId := None;
     PhoneNumber.inboundSquad := Some (Some "assistant-7");
     PhoneNumber.inboundSquadId := Some "squad-1" |}.

Definition squadSurroundings : Surroundings :=
  {| VOICE_ENGINE_WS_URL := Some "wss://engine.example";
     API_URL := Some "https://api.example";
     findFirst := fun _ _ => Ok (Some squadNumber);
     create := fun _ => Ok "call-9" |}.

Definition isGoodbye (twiml : list Verb) : bool :=
  match twiml with
  | [Say _; Hangup] => true
  | _ => false
  end.

Definition isConnect (twiml : list Verb) : bool :=
  match twiml with
  | [ConnectStream _ _] => true
  | _ => false
  end.

(** * Properties *)

(** ** Reasoning about methods: relations that every step respects *)

Section Respects.

Variable R : World -> World -> Prop.
Hypothesis R_refl : forall w, R w w.
Hypothesis R_trans : forall w1 w2 w3, R w1 w2 -> R w2 w3 -> R w1 w3.

Lemma respects_ret {A} (a : A) : respects R (ret a).
Proof. intros w. apply R_refl. Qed.

Lemma respects_throw {A} (e : JsError) : respects R (@throw A e).
Proof. intros w. apply R_refl. Qed.

Lemma respects_lift {A} (o : outcome A) : respects R (lift o).
Proof. intros w. apply R_refl. Qed.

Lemma respects_getWorld : respects R getWorld.
Proof. intros w. apply R_refl. Qed.

Lemma respects_this : respects R this.
Proof. intros w. apply R_refl. Qed.

Lemma respects_Date_now : respects R Date_now.
Proof. intros w. apply R_refl. Qed.

Lemma respects_bind {A B} (m : M A) (k : A -> M B) :
  respects R m -> (forall a, respects R (k a)) -> respects R (bind m k).
Proof.
  intros Hm Hk w. unfold exec, bind.
  specialize (Hm w). unfold exec in Hm.
  destruct (m w) as [[a|e] w']; simpl in *.
  - eapply R_trans; [exact Hm | apply Hk].
  - exact Hm.
Qed.

Lemma respects_tryCatch {A} (m : M A) (h : JsError -> M A) :
  respects R m -> (forall e, respects R (h e)) -> respects R (tryCatch m h).
Proof.
  intros Hm Hh w. unfold exec, tryCatch.
  specialize (Hm w). unfold exec in Hm.
  destruct (m w) as [[a|e] w']; simpl in *.
  - exact Hm.
  - eapply R_trans; [exact Hm | apply Hh].
Qed.

Lemma respects_forEach {A} (items : list A) (body : A -> M unit) :
  (forall x, respects R (body x)) -> respects R (forEach items body).
Proof.
  intros Hb. induction items as [|x rest IH]; simpl.
  - apply respects_ret.
  - apply respects_bind; [apply Hb | intros _; exact IH].
Qed.

Lemma respects_update (f : Session -> Session) :
  (forall w, R w (with_sess (f (sess w)) w)) -> respects R (update f).
Proof. intros H w. apply H. Qed.

Lemma respects_updateWorld (f : World -> World) :
  (forall w, R w (f w)) -> respects R (updateWorld f).
Proof. intros H w. apply H. Qed.

End Respects.

(** Takes a goal [respects R m] apart along the structure of [m]; what
    is left are the primitive updates. *)
Ltac intro_binder :=
  lazymatch goal with
  | |- forall _, _ => intros ?
  | _ => idtac
  end.

Ltac respects_step :=
  cbv beta zeta;
  lazymatch goal with
  | |- respects _ (bind _ _) => apply respects_bind; try assumption; intro_binder
  | |- respects _ (tryCatch _ _) => apply respects_tryCatch; try assumption; intro_binder
  | |- respects _ (forEach _ _) => apply respects_forEach; try assumption; intro_binder
  | |- respects _ (ret _) => apply respects_ret; assumption
  | |- respects _ (throw _) => apply respects_throw; assumption
  | |- respects _ (lift _) => apply respects_lift; assumption
  | |- respects _ getWorld => apply respects_getWorld; assumption
  | |- respects _ this => apply respects_this; assumption
  | |- respects _ Date_now => apply respects_Date_now; assumption
  | |- respects _ (if ?b then _ else _) => destruct b
  | |- respects _ (match ?x with _ => _ end) => destruct x
  | |- respects _ (update _) => apply respects_update; intros ?
  | |- respects _ (updateWorld _) => apply respects_updateWorld; intros ?
  | |- respects _ (socket_send _) => unfold socket_send
  | |- respects _ socket_close => unfold socket_close
  | |- respects _ (logger _ _) => unfold logger
  | |- respects _ (prisma_call_update _ _) => unfold prisma_call_update
  | |- respects _ (prisma_callMessage_create _) => unfold prisma_callMessage_create
  | |- respects _ (fs_writeFile _ _) => unfold fs_writeFile
  | |- respects _ (await _) => unfold await
  end.

(** *** The synthesis counter never goes down *)

Lemma counterLe_refl w : counterLe w w.
Proof. unfold counterLe. lia. Qed.

Lemma counterLe_trans w1 w2 w3 : counterLe w1 w2 -> counterLe w2 w3 -> counterLe w1 w3.
Proof. unfold counterLe. lia. Qed.

Create HintDb counter discriminated.

Ltac counter_tac :=
  pose proof counterLe_refl as Hrefl; pose proof counterLe_trans as Htrans;
  repeat first [ solve [auto with counter] | respects_step ];
  unfold counterLe; simpl; lia.

Lemma sendEvent_counter type data : respects counterLe (sendEvent type data).
Proof. unfold sendEvent. counter_tac. Qed.

Lemma sendAudio_counter audio : respects counterLe (sendAudio audio).
Proof. unfold sendAudio. counter_tac. Qed.

Lemma saveMessage_counter config message :
  respects counterLe (saveMessage config message).
Proof. unfold saveMessage. counter_tac. Qed.

Lemma saveRecording_counter config : respects counterLe (saveRecording config).
Proof. unfold saveRecording. counter_tac. Qed.

#[local] Hint Resolve sendEvent_counter sendAudio_counter saveMessage_counter
  saveRecording_counter : counter.

Lemma end_counter config reason : respects counterLe (end_ config reason).
Proof. unfold end_. counter_tac. Qed.

Lemma handleInterrupt_counter : respects counterLe handleInterrupt.
Proof. unfold handleInterrupt. counter_tac. Qed.

Lemma synthesizeAndPlay_counter text llmLatency :
  respects counterLe (synthesizeAndPlay text llmLatency).
Proof. unfold synthesizeAndPlay. counter_tac. Qed.

Lemma playbackDone_counter synthesisId : respects counterLe (playbackDone synthesisId).
Proof. unfold playbackDone. counter_tac. Qed.

Lemma generateResponse_counter : respects counterLe generateResponse.
Proof. unfold generateResponse. counter_tac. Qed.

Lemma processUserSpeech_counter : respects counterLe processUserSpeech.
Proof. unfold processUserSpeech. counter_tac. Qed.

#[local] Hint Resolve end_counter handleInterrupt_counter
  synthesizeAndPlay_counter playbackDone_counter generateResponse_counter
  processUserSpeech_counter : counter.

Lemma synthesizeAndPlay_resume_counter synthesisId ttsStart synthesized :
  respects counterLe (synthesizeAndPlay_resume synthesisId ttsStart synthesized).
Proof. unfold synthesizeAndPlay_resume. counter_tac. Qed.

Lemma handleToolCall_counter config server toolCall :
  respects counterLe (handleToolCall config server toolCall).
Proof. unfold handleToolCall. counter_tac. Qed.

#[local] Hint Resolve synthesizeAndPlay_resume_counter handleToolCall_counter : counter.

Lemma generateResponse_resume_counter config server llmStart generated :
  respects counterLe (generateResponse_resume config server llmStart generated).
Proof. unfold generateResponse_resume. counter_tac. Qed.

Lemma processUserSpeech_resume_counter config sttStart transcribed :
  respects counterLe (processUserSpeech_resume config sttStart transcribed).
Proof. unfold processUserSpeech_resume. counter_tac. Qed.

Lemma handleAudioData_counter config data :
  respects counterLe (handleAudioData config data).
Proof. unfold handleAudioData. counter_tac. Qed.

Lemma handleControlMessage_counter config message :
  respects counterLe (handleControlMessage config message).
Proof. unfold handleControlMessage. counter_tac. Qed.

#[local] Hint Resolve generateResponse_resume_counter
  processUserSpeech_resume_counter handleAudioData_counter
  handleControlMessage_counter : counter.

Lemma onMessage_counter config data : respects counterLe (onMessage config data).
Proof. unfold onMessage. counter_tac. Qed.

Lemma onClose_counter config : respects counterLe (onClose config).
Proof. unfold onClose. counter_tac. Qed.

Lemma start_counter config : respects counterLe (start config).
Proof. unfold start, setupSocketHandlers. counter_tac. Qed.

#[local] Hint Resolve onMessage_counter onClose_counter start_counter : counter.

Lemma dispatch_counter config e : respects counterLe (dispatch config e).
Proof. unfold dispatch, onError. counter_tac. Qed.

Lemma step_counter config w te :
  currentSynthesisId (sess w) <= currentSynthesisId (sess (step config w te)).
Proof.
  unfold step. cbv zeta.
  apply (dispatch_counter config (snd te)
           (with_pending (settle (snd te) (pending (with_clock (fst te) w)))
                         (with_clock (fst te) w))).
Qed.

Lemma run_counter config trace :
  forall w, currentSynthesisId (sess w) <= currentSynthesisId (sess (run config w trace)).
Proof.
  unfold run.
  induction trace as [|te rest IH]; intros w; simpl.
  - lia.
  - pose proof (step_counter config w te). specialize (IH (step config w te)).
    lia.
Qed.

(** *** Only two methods touch the counter *)

Lemma counterSame_refl w : counterSame w w.
Proof. reflexivity. Qed.

Lemma counterSame_trans w1 w2 w3 :
  counterSame w1 w2 -> counterSame w2 w3 -> counterSame w1 w3.
Proof. unfold counterSame. congruence. Qed.

Create HintDb samecounter discriminated.

Ltac samecounter_tac :=
  pose proof counterSame_refl as Hrefl; pose proof counterSame_trans as Htrans;
  repeat first [ solve [auto with samecounter] | respects_step ];
  unfold counterSame; reflexivity.

Lemma sendEvent_samecounter type data : respects counterSame (sendEvent type data).
Proof. unfold sendEvent. samecounter_tac. Qed.

Lemma sendAudio_samecounter audio : respects counterSame (sendAudio audio).
Proof. unfold sendAudio. samecounter_tac. Qed.

Lemma saveMessage_samecounter config message :
  respects counterSame (saveMessage config message).
Proof. unfold saveMessage. samecounter_tac. Qed.

Lemma saveRecording_samecounter config : respects counterSame (saveRecording config).
Proof. unfold saveRecording. samecounter_tac. Qed.

#[local] Hint Resolve sendEvent_samecounter sendAudio_samecounter
  saveMessage_samecounter saveRecording_samecounter : samecounter.

Lemma end_samecounter config reason : respects counterSame (end_ config reason).
Proof. unfold end_. samecounter_tac. Qed.

Lemma playbackDone_samecounter synthesisId :
  respects counterSame (playbackDone synthesisId).
Proof. unfold playbackDone. samecounter_tac. Qed.

Lemma generateResponse_samecounter : respects counterSame generateResponse.
Proof. unfold generateResponse. samecounter_tac. Qed.

Lemma processUserSpeech_samecounter : respects counterSame processUserSpeech.
Proof. unfold processUserSpeech. samecounter_tac. Qed.

#[local] Hint Resolve end_samecounter playbackDone_samecounter
  generateResponse_samecounter processUserSpeech_samecounter : samecounter.

Lemma synthesizeAndPlay_resume_samecounter synthesisId ttsStart synthesized :
  respects counterSame (synthesizeAndPlay_resume synthesisId ttsStart synthesized).
Proof. unfold synthesizeAndPlay_resume. samecounter_tac. Qed.

Lemma handleToolCall_samecounter config server toolCall :
  respects counterSame (handleToolCall config server toolCall).
Proof. unfold handleToolCall. samecounter_tac. Qed.

Lemma processUserSpeech_resume_samecounter config sttStart transcribed :
  respects counterSame (processUserSpeech_resume config sttStart transcribed).
Proof. unfold processUserSpeech_resume. samecounter_tac. Qed.

Lemma onClose_samecounter config : respects counterSame (onClose config).
Proof. unfold onClose. samecounter_tac. Qed.

(** The events that run neither [handleInterrupt] nor
    [synthesizeAndPlay] leave the counter as it is. *)
Lemma dispatch_samecounter config e :
  match e with
  | SocketMessage _ | LlmSettled _ _ _ => True
  | _ => respects counterSame (dispatch config e)
  end.
Proof.
  destruct e; try exact I; unfold dispatch, onError;
    pose proof synthesizeAndPlay_resume_samecounter;
    pose proof processUserSpeech_resume_samecounter;
    pose proof onClose_samecounter;
    samecounter_tac.
Qed.

(** *** Running a method on a symbolic world *)

Ltac run_m :=
  cbv beta iota zeta delta
      [exec bind ret throw tryCatch lift getWorld this update updateWorld
       Date_now socket_send socket_close logger prisma_call_update
       prisma_callMessage_create fs_writeFile await forEach fst snd].

Lemma SessionState_eqb_eq a b : SessionState_eqb a b = true <-> a = b.
Proof. destruct a, b; simpl; split; congruence. Qed.

Lemma isCurrent_false synthesisId w :
  currentSynthesisId (sess w) <> synthesisId \/ state (sess w) <> speaking ->
  isCurrent synthesisId w = false.
Proof.
  intros H. unfold isCurrent. apply andb_false_iff.
  destruct H as [H|H].
  - right. apply Z.eqb_neq. exact H.
  - left. apply not_true_is_false. intros C. apply SessionState_eqb_eq in C. auto.
Qed.

Lemma synthesizeAndPlay_resume_stale synthesisId ttsStart synthesized w :
  isCurrent synthesisId w = false ->
  let w' := exec (synthesizeAndPlay_resume synthesisId ttsStart synthesized) w in
  sess w' = sess w /\ sockLog w' = sockLog w /\ pending w' = pending w /\
  readyState w' = readyState w.
Proof.
  unfold isCurrent. intros H.
  unfold synthesizeAndPlay_resume. run_m.
  destruct synthesized as [audio|e].
  - rewrite <- negb_andb, H. simpl. auto.
  - simpl. rewrite H. simpl. auto.
Qed.

(** *** Audio reaches the socket through [sendAudio] only *)

Lemma sameAudio_refl w : sameAudio w w.
Proof. reflexivity. Qed.

Lemma sameAudio_trans w1 w2 w3 : sameAudio w1 w2 -> sameAudio w2 w3 -> sameAudio w1 w3.
Proof. unfold sameAudio. congruence. Qed.

Create HintDb audio discriminated.

Ltac audio_tac :=
  pose proof sameAudio_refl as Hrefl; pose proof sameAudio_trans as Htrans;
  repeat first [ solve [auto with audio] | respects_step ];
  unfold sameAudio, audioFrames, emitted; simpl;
  rewrite ?map_app, ?filter_app; simpl; rewrite ?app_nil_r; reflexivity.

Lemma sendEvent_audio type data : respects sameAudio (sendEvent type data).
Proof. unfold sendEvent. audio_tac. Qed.

Lemma saveMessage_audio config message :
  respects sameAudio (saveMessage config message).
Proof. unfold saveMessage. audio_tac. Qed.

Lemma saveRecording_audio config : respects sameAudio (saveRecording config).
Proof. unfold saveRecording. audio_tac. Qed.

#[local] Hint Resolve sendEvent_audio saveMessage_audio saveRecording_audio : audio.

Lemma end_audio config reason : respects sameAudio (end_ config reason).
Proof. unfold end_. audio_tac. Qed.

Lemma handleInterrupt_audio : respects sameAudio handleInterrupt.
Proof. unfold handleInterrupt. audio_tac. Qed.

Lemma synthesizeAndPlay_audio text llmLatency :
  respects sameAudio (synthesizeAndPlay text llmLatency).
Proof. unfold synthesizeAndPlay. audio_tac. Qed.

Lemma playbackDone_audio synthesisId : respects sameAudio (playbackDone synthesisId).
Proof. unfold playbackDone. audio_tac. Qed.

Lemma generateResponse_audio : respects sameAudio generateResponse.
Proof. unfold generateResponse. audio_tac. Qed.

Lemma processUserSpeech_audio : respects sameAudio processUserSpeech.
Proof. unfold processUserSpeech. audio_tac. Qed.

#[local] Hint Resolve end_audio handleInterrupt_audio synthesizeAndPlay_audio
  playbackDone_audio generateResponse_audio processUserSpeech_audio : audio.

Lemma handleToolCall_audio config server toolCall :
  respects sameAudio (handleToolCall config server toolCall).
Proof. unfold handleToolCall. audio_tac. Qed.

#[local] Hint Resolve handleToolCall_audio : audio.

Lemma generateResponse_resume_audio config server llmStart generated :
  respects sameAudio (generateResponse_resume config server llmStart generated).
Proof. unfold generateResponse_resume. audio_tac. Qed.

Lemma processUserSpeech_resume_audio config sttStart transcribed :
  respects sameAudio (processUserSpeech_resume config sttStart transcribed).
Proof. unfold processUserSpeech_resume. audio_tac. Qed.

Lemma handleAudioData_audio config data :
  respects sameAudio (handleAudioData config data).
Proof. unfold handleAudioData. audio_tac. Qed.

Lemma handleControlMessage_audio config message :
  respects sameAudio (handleControlMessage config message).
Proof. unfold handleControlMessage. audio_tac. Qed.

#[local] Hint Resolve generateResponse_resume_audio
  processUserSpeech_resume_audio handleAudioData_audio
  handleControlMessage_audio : audio.

Lemma onMessage_audio config data : respects sameAudio (onMessage config data).
Proof. unfold onMessage. audio_tac. Qed.

Lemma onClose_audio config : respects sameAudio (onClose config).
Proof. unfold onClose. audio_tac. Qed.

Lemma start_audio config : respects sameAudio (start config).
Proof. unfold start, setupSocketHandlers. audio_tac. Qed.

#[local] Hint Resolve onMessage_audio onClose_audio start_audio : audio.

Lemma synthesizeAndPlay_resume_failed_audio synthesisId ttsStart e :
  respects sameAudio (synthesizeAndPlay_resume synthesisId ttsStart (Throw e)).
Proof.
  intros w. unfold synthesizeAndPlay_resume, sendEvent. run_m.
  destruct (SessionState_eqb (state (sess w)) speaking
            && (currentSynthesisId (sess w) =? synthesisId)) eqn:E;
    simpl; rewrite E; unfold sameAudio, audioFrames, emitted; simpl;
    rewrite ?map_app, ?filter_app; simpl; rewrite ?app_nil_r; reflexivity.
Qed.

Lemma dispatch_audio config e :
  match e with
  | TtsSettled _ _ _ => True
  | _ => respects sameAudio (dispatch config e)
  end.
Proof. destruct e; try exact I; unfold dispatch, onError; audio_tac. Qed.

Lemma step_audio_source config w te :
  audioFrames (step config w te) <> audioFrames w ->
  exists synthesisId ttsStart audio,
    snd te = TtsSettled synthesisId ttsStart (Ok audio) /\
    currentSynthesisId (sess w) = synthesisId /\
    state (sess w) = speaking.
Proof.
  destruct te as [now e]. unfold step. cbv zeta. simpl fst. simpl snd.
  remember (with_pending (settle e (pending (with_clock now w)))
                          (with_clock now w)) as w2 eqn:Hw2.
  assert (Hsame : audioFrames w2 = audioFrames w) by (subst w2; reflexivity).
  assert (Hsess : sess w2 = sess w) by (subst w2; reflexivity).
  clear Hw2. intros Hne. rewrite <- Hsame in Hne. rewrite <- Hsess.
  clear Hsame Hsess.
  pose proof (dispatch_audio config e) as Hd.
  destruct e as [data| | |sttStart transcribed|llmStart generated server
                 |synthesisId ttsStart synthesized|synthesisId| | ];
    try (exfalso; apply Hne; apply Hd).
  clear Hd. destruct synthesized as [audio|err].
  - destruct (isCurrent synthesisId w2) eqn:E.
    + exists synthesisId, ttsStart, audio. unfold isCurrent in E.
      apply andb_true_iff in E. destruct E as [E1 E2].
      apply SessionState_eqb_eq in E1. apply Z.eqb_eq in E2. auto.
    + exfalso. apply Hne.
      destruct (synthesizeAndPlay_resume_stale synthesisId ttsStart (Ok audio) w2 E)
        as (_ & Hlog & _).
      unfold audioFrames, emitted. simpl dispatch. rewrite Hlog. reflexivity.
  - exfalso. apply Hne. apply synthesizeAndPlay_resume_failed_audio.
Qed.

(** *** [end] *)

Lemma end_when_ended config reason w :
  isEnded (sess w) = true -> end_ config reason w = (Ok tt, w).
Proof.
  intros H. unfold end_. run_m. rewrite H. reflexivity.
Qed.

Lemma end_effect config reason w :
  isEnded (sess w) = false ->
  let w' := exec (end_ config reason) w in
  fst (end_ config reason w) = Ok tt /\
  sess w' = set_isEnded true (sess w) /\
  sockLog w' = sockLog w ++ [(callEndedFrame reason (clock w) (startTime (sess w)),
                              isOpen (readyState w))] /\
  db w' = db w ++ [finalWrite config reason (clock w) (startTime (sess w));
                   recordingUrlWrite config] /\
  fs w' = fs w ++ recordingFiles config (sess w) /\
  readyState w' = match readyState w with OPEN => CLOSING | r => r end /\
  registered w' = false /\
  startResolved w' = (onSessionEnd (sess w) || startResolved w)%bool /\
  logs w' = logs w /\ pending w' = pending w /\ clock w' = clock w /\
  handlersInstalled w' = handlersInstalled w.
Proof.
  intros H. unfold end_, sendEvent, saveRecording, recordingFiles. run_m.
  rewrite H. cbn -[calculateCosts Z.div].
  destruct (userAudioChunks (sess w)) as [|u us];
    destruct (assistantAudioChunks (sess w)) as [|a as_];
    destruct (onSessionEnd (sess w));
    cbn -[calculateCosts Z.div];
    repeat split; rewrite <- ?app_assoc, ?app_nil_r; reflexivity.
Qed.

Lemma since_app {A} (l added : list A) : since l (l ++ added) = added.
Proof.
  unfold since. induction l as [|x l IH]; simpl; [reflexivity | exact IH].
Qed.

Lemma forEach_end_ended config reasons :
  forall w, isEnded (sess w) = true ->
            forEach reasons (end_ config) w = (Ok tt, w).
Proof.
  induction reasons as [|r rest IH]; intros w H; simpl.
  - reflexivity.
  - unfold bind. rewrite end_when_ended by exact H. apply IH, H.
Qed.

Lemma isEvent_event type data now t :
  isEvent t (TextFrame (jsonClean
    (JObj [("type", JStr type); ("data", data); ("timestamp", JNum now)])))
  = String.eqb type t.
Proof. reflexivity. Qed.

(** *** After [end], nothing more is written *)

Lemma endedStays_refl w : endedStays w w.
Proof. unfold endedStays. auto. Qed.

Lemma endedStays_trans w1 w2 w3 :
  endedStays w1 w2 -> endedStays w2 w3 -> endedStays w1 w3.
Proof.
  unfold endedStays. intros H12 H23 H1.
  destruct (H12 H1) as (E2 & A2 & B2 & C2 & D2).
  destruct (H23 E2) as (E3 & A3 & B3 & C3 & D3).
  repeat split; congruence.
Qed.

Create HintDb ended discriminated.

Ltac ended_prim :=
  unfold endedStays, count, emitted; simpl; intros ?;
  rewrite ?map_app, ?filter_app, ?length_app; simpl;
  repeat split; auto; lia.

Ltac ended_tac :=
  pose proof endedStays_refl as Hrefl; pose proof endedStays_trans as Htrans;
  repeat first [ solve [auto with ended] | respects_step ];
  ended_prim.

Lemma sendEvent_ended type data :
  String.eqb type "call.ended" = false ->
  respects endedStays (sendEvent type data).
Proof.
  intros Hty w. unfold sendEvent. run_m.
  unfold endedStays, count, emitted. intros Hen.
  cbn [with_sockLog sockLog sess db fs].
  rewrite map_app, filter_app, length_app.
  cbn [map fst filter]. rewrite isEvent_event, Hty. simpl.
  repeat split; auto; lia.
Qed.

Lemma end_ended config reason : respects endedStays (end_ config reason).
Proof.
  intros w Hen. unfold exec. rewrite end_when_ended by exact Hen.
  simpl. auto.
Qed.

Lemma saveMessage_ended config message :
  respects endedStays (saveMessage config message).
Proof. unfold saveMessage. ended_tac. Qed.

#[local] Hint Resolve sendEvent_ended end_ended saveMessage_ended : ended.
#[local] Hint Extern 1 (String.eqb _ _ = false) => reflexivity : ended.

Lemma sendAudio_ended audio : respects endedStays (sendAudio audio).
Proof. unfold sendAudio. ended_tac. Qed.

Lemma handleInterrupt_ended : respects endedStays handleInterrupt.
Proof. unfold handleInterrupt. ended_tac. Qed.

Lemma synthesizeAndPlay_ended text llmLatency :
  respects endedStays (synthesizeAndPlay text llmLatency).
Proof. unfold synthesizeAndPlay. ended_tac. Qed.

Lemma playbackDone_ended synthesisId : respects endedStays (playbackDone synthesisId).
Proof. unfold playbackDone. ended_tac. Qed.

Lemma generateResponse_ended : respects endedStays generateResponse.
Proof. unfold generateResponse. ended_tac. Qed.

Lemma processUserSpeech_ended : respects endedStays processUserSpeech.
Proof. unfold processUserSpeech. ended_tac. Qed.

#[local] Hint Resolve sendAudio_ended handleInterrupt_ended
  synthesizeAndPlay_ended playbackDone_ended generateResponse_ended
  processUserSpeech_ended : ended.

Lemma synthesizeAndPlay_resume_ended synthesisId ttsStart synthesized :
  respects endedStays (synthesizeAndPlay_resume synthesisId ttsStart synthesized).
Proof. unfold synthesizeAndPlay_resume. ended_tac. Qed.

Lemma handleToolCall_ended config server toolCall :
  respects endedStays (handleToolCall config server toolCall).
Proof. unfold handleToolCall. ended_tac. Qed.

#[local] Hint Resolve synthesizeAndPlay_resume_ended handleToolCall_ended : ended.

Lemma generateResponse_resume_ended config server llmStart generated :
  respects endedStays (generateResponse_resume config server llmStart generated).
Proof. unfold generateResponse_resume. ended_tac. Qed.

Lemma processUserSpeech_resume_ended config sttStart transcribed :
  respects endedStays (processUserSpeech_resume config sttStart transcribed).
Proof. unfold processUserSpeech_resume. ended_tac. Qed.

Lemma handleAudioData_ended config data :
  respects endedStays (handleAudioData config data).
Proof. unfold handleAudioData. ended_tac. Qed.

Lemma handleControlMessage_ended config message :
  respects endedStays (handleControlMessage config message).
Proof. unfold handleControlMessage. ended_tac. Qed.

#[local] Hint Resolve generateResponse_resume_ended
  processUserSpeech_resume_ended handleAudioData_ended
  handleControlMessage_ended : ended.

Lemma onMessage_ended config data : respects endedStays (onMessage config data).
Proof. unfold onMessage. ended_tac. Qed.

Lemma onClose_ended config : respects endedStays (onClose config).
Proof. unfold onClose. ended_tac. Qed.

#[local] Hint Resolve onMessage_ended onClose_ended : ended.

Lemma dispatch_ended config e : respects endedStays (dispatch config e).
Proof. unfold dispatch, onError. ended_tac. Qed.

Lemma step_ended config w te : endedStays w (step config w te).
Proof.
  unfold step. cbv zeta. intros H.
  apply (dispatch_ended config (snd te)
           (with_pending (settle (snd te) (pending (with_clock (fst te) w)))
                         (with_clock (fst te) w))).
  exact H.
Qed.

Lemma run_ended config trace : forall w, endedStays w (run config w trace).
Proof.
  unfold run. induction trace as [|te rest IH]; intros w; simpl.
  - apply endedStays_refl.
  - eapply endedStays_trans; [apply step_ended | apply IH].
Qed.

(** ** The properties *)

Lemma handleInterrupt_counter_exact w :
  currentSynthesisId (sess (exec handleInterrupt w))
  = currentSynthesisId (sess w)
    + (if SessionState_eqb (state (sess w)) speaking then 1 else 0).
Proof.
  unfold handleInterrupt, sendEvent. run_m.
  destruct (SessionState_eqb (state (sess w)) speaking); simpl; lia.
Qed.

Lemma synthesizeAndPlay_counter_exact text llmLatency w :
  currentSynthesisId (sess (exec (synthesizeAndPlay text llmLatency) w))
  = currentSynthesisId (sess w) + 1.
Proof. reflexivity. Qed.

(** C1. [currentSynthesisId] never decreases, over any sequence of
    events; [handleInterrupt] (while speaking) and [synthesizeAndPlay]
    add one to it, and the events that run neither of them (all but a
    socket message and the model's answer) leave it as it is.  An audio
    frame is handed to the socket only by the
    synthesis whose captured id is the current one while the session is
    speaking: when a synthesis settles with another id, or after the
    state has left [speaking], the session and the socket are left as
    they were. *)
Theorem synthesis_counter_monotone_and_stale_audio_discarded
  (config : SessionConfig) (w : World) :
  (forall trace,
     currentSynthesisId (sess w)
     <= currentSynthesisId (sess (run config w trace))) /\
  (forall te,
     match snd te with
     | SocketMessage _ | LlmSettled _ _ _ => True
     | _ => currentSynthesisId (sess (step config w te))
            = currentSynthesisId (sess w)
     end) /\
  currentSynthesisId (sess (exec handleInterrupt w))
  = currentSynthesisId (sess w)
    + (if SessionState_eqb (state (sess w)) speaking then 1 else 0) /\
  (forall text llmLatency,
     currentSynthesisId (sess (exec (synthesizeAndPlay text llmLatency) w))
     = currentSynthesisId (sess w) + 1) /\
  (forall te,
     audioFrames (step config w te) <> audioFrames w ->
     exists synthesisId ttsStart audio,
       snd te = TtsSettled synthesisId ttsStart (Ok audio) /\
       currentSynthesisId (sess w) = synthesisId /\
       state (sess w) = speaking) /\
  (forall now synthesisId ttsStart synthesized,
     currentSynthesisId (sess w) <> synthesisId \/ state (sess w) <> speaking ->
     let w' := step config w (now, TtsSettled synthesisId ttsStart synthesized) in
     sess w' = sess w /\ sockLog w' = sockLog w /\ wire w' = wire w).
Proof.
  split; [intros trace; apply run_counter|].
  split.
  { intros [now e]. pose proof (dispatch_samecounter config e) as H.
    unfold step. cbv zeta. cbn [fst snd].
    destruct e; try exact I;
      apply (H (with_pending _ (with_clock now w))). }
  split; [apply handleInterrupt_counter_exact|].
  split; [intros; apply synthesizeAndPlay_counter_exact|].
  split; [intros te; apply step_audio_source|].
  intros now synthesisId ttsStart synthesized Hstale w'.
  subst w'. unfold step. cbv zeta. simpl fst. simpl snd.
  remember (with_pending _ _) as w2 eqn:Hw2.
  assert (Hs : sess w2 = sess w) by (subst w2; reflexivity).
  assert (Hl : sockLog w2 = sockLog w) by (subst w2; reflexivity).
  assert (Hc : isCurrent synthesisId w2 = false).
  { apply isCurrent_false. rewrite Hs. exact Hstale. }
  destruct (synthesizeAndPlay_resume_stale synthesisId ttsStart synthesized w2 Hc)
    as (Hs' & Hl' & _ & _).
  simpl dispatch. unfold wire. rewrite Hs', Hl', Hs, Hl. auto.
Qed.

(** The first message of the seed call, interrupted before its synthesis
    settles: the audio that then arrives is discarded. *)
Lemma synthesis_counter_witness :
  currentSynthesisId (sess seedInterrupted) = 2 /\
  let w' := step seedConfig seedInterrupted (1300, TtsSettled 1 1000 (Ok someAudio)) in
  sess w' = sess seedInterrupted /\ sockLog w' = sockLog seedInterrupted
  /\ wire w' = wire seedInterrupted.
Proof.
  split; [vm_compute; reflexivity|].
  apply (proj2 (proj2 (proj2 (proj2 (proj2
           (synthesis_counter_monotone_and_stale_audio_discarded
              seedConfig seedInterrupted)))))).
  left. vm_compute. discriminate.
Defined.

Lemma forEach_end_once config reason reasons w :
  isEnded (sess w) = false ->
  exec (forEach (reason :: reasons) (end_ config)) w
  = exec (end_ config reason) w.
Proof.
  intros Hlive.
  destruct (end_effect config reason w Hlive) as (Hok & Hsess & _).
  unfold exec in *. simpl forEach. unfold bind.
  destruct (end_ config reason w) as [o w1]. simpl in Hok, Hsess. subst o.
  rewrite forEach_end_ended; [reflexivity|].
  rewrite Hsess. reflexivity.
Qed.



(** *** Endpointing *)

Lemma since_self {A} (l : list A) : since l l = [].
Proof. unfold since. apply skipn_all. Qed.

Lemma length_snoc_eqb {A} (l : list A) (x : A) :
  Nat.eqb (List.length (l ++ [x])) 0 = false.
Proof. rewrite length_app. simpl. apply Nat.eqb_neq. lia. Qed.

Lemma effectiveSilenceTimeout_min a :
  Z.min (Assistant.silenceTimeoutMs a) 1200 = effectiveSilenceTimeout a.
Proof.
  unfold effectiveSilenceTimeout.
  destruct (Z.gtb_spec (Assistant.silenceTimeoutMs a) 1200); lia.
Qed.

Ltac new_frames :=
  unfold emitted; cbn [sockLog with_sockLog with_sess with_pending sess];
  rewrite <- ?app_assoc, ?map_app, ?since_app, ?since_self.

Lemma handleAudioData_endpoint config w data :
  let w' := exec (handleAudioData config data) w in
  existsb (isEvent "speech.ended") (since (emitted w) (emitted w'))
  = endpointFires config w data.
Proof.
  cbv zeta.
  unfold endpointFires, listensTo, isSilent, measuredSilence.
  rewrite <- effectiveSilenceTimeout_min.
  unfold handleAudioData, handleInterrupt, processUserSpeech, sendEvent. run_m.
  destruct (isEnded (sess w)); [new_frames; reflexivity|].
  cbn [negb andb].
  destruct (SessionState_eqb (state (sess w)) speaking
            && Assistant.interruptionEnabled (assistant config)) eqn:Eb.
  - cbn [negb andb]. destruct (detectVoiceActivity data) as [[|]|e].
    + cbn -[Z.min]. apply andb_true_iff in Eb. destruct Eb as [Eb _]. rewrite Eb.
      cbn -[Z.min]. new_frames. reflexivity.
    + cbn -[Z.min]. new_frames. reflexivity.
    + cbn -[Z.min]. new_frames. reflexivity.
  - cbn [negb andb]. destruct (detectVoiceActivity data) as [[|]|e].
    + cbn -[Z.min]. destruct (isSpeaking (sess w)); cbn -[Z.min];
        destruct (SessionState_eqb (state (sess w)) listening); cbn -[Z.min];
        new_frames; reflexivity.
    + cbn -[Z.min]. destruct (isSpeaking (sess w)); [|cbn -[Z.min]; new_frames; reflexivity].
      destruct (silenceStart (sess w) =? 0) eqn:Es; cbn -[Z.min];
        match goal with
        | |- context [?d >? Z.min ?a ?b] => destruct (d >? Z.min a b) eqn:Ed
        end; cbn -[Z.min]; rewrite ?length_snoc_eqb; cbn -[Z.min];
        new_frames; reflexivity.
    + cbn -[Z.min]. new_frames. reflexivity.
Qed.

Lemma handleAudioData_fires config w data :
  endpointFires config w data = true ->
  let w' := exec (handleAudioData config data) w in
  since (emitted w) (emitted w')
  = [eventFrame "speech.ended" emptyObject (clock w);
     eventFrame "assistant.thinking" emptyObject (clock w)] /\
  isSpeaking (sess w') = false /\
  state (sess w') = thinking /\
  audioBuffer (sess w') = [] /\
  pending w'
  = pending w ++ [PStt (clock w) (Buffer_concat (audioBuffer (sess w) ++ [data]))].
Proof.
  unfold endpointFires, listensTo, isSilent, measuredSilence.
  rewrite <- effectiveSilenceTimeout_min.
  intros H.
  apply andb_true_iff in H. destruct H as [H H0].
  apply andb_true_iff in H. destruct H as [H H1].
  apply andb_true_iff in H. destruct H as [H Hv].
  apply andb_true_iff in H. destruct H as [H H2].
  apply negb_true_iff in H. apply negb_true_iff in H2.
  destruct (detectVoiceActivity data) as [[|]|e] eqn:Ev; try discriminate.
  unfold handleAudioData, processUserSpeech, sendEvent. run_m.
  rewrite H, H2, Ev, H1. cbn -[Z.min].
  destruct (silenceStart (sess w) =? 0) eqn:Es; cbn -[Z.min];
    rewrite H0; cbn -[Z.min]; rewrite length_snoc_eqb; cbn -[Z.min];
    new_frames; repeat split; reflexivity.
Qed.

Lemma handleAudioData_waits config w data :
  listensTo config w = true ->
  isSilent data = true ->
  isSpeaking (sess w) = true ->
  endpointFires config w data = false ->
  let w' := exec (handleAudioData config data) w in
  since (emitted w) (emitted w') = [] /\
  isSpeaking (sess w') = true /\
  state (sess w') = state (sess w) /\
  pending w' = pending w /\
  silenceStart (sess w')
  = (if silenceStart (sess w) =? 0 then clock w else silenceStart (sess w)).
Proof.
  unfold endpointFires. intros Hl Hs Hsp Hf. rewrite Hl, Hs, Hsp in Hf.
  cbn [andb] in Hf. revert Hl Hs Hf.
  unfold listensTo, isSilent, measuredSilence.
  rewrite <- effectiveSilenceTimeout_min.
  intros H Ev H0.
  apply andb_true_iff in H. destruct H as [H H2].
  apply negb_true_iff in H. apply negb_true_iff in H2.
  destruct (detectVoiceActivity data) as [[|]|e] eqn:Ev'; try discriminate.
  unfold handleAudioData, processUserSpeech, sendEvent. run_m.
  rewrite H, H2, Ev', Hsp. cbn -[Z.min].
  destruct (silenceStart (sess w) =? 0) eqn:Es; cbn -[Z.min];
    rewrite H0; cbn -[Z.min];
    new_frames; repeat split; auto.
Qed.

Lemma handleAudioData_transcribes config w data :
  pending (exec (handleAudioData config data) w)
  = if endpointFires config w data
    then pending w ++ [PStt (clock w) (Buffer_concat (audioBuffer (sess w) ++ [data]))]
    else pending w.
Proof.
  unfold endpointFires, listensTo, isSilent, measuredSilence.
  rewrite <- effectiveSilenceTimeout_min.
  unfold handleAudioData, handleInterrupt, processUserSpeech, sendEvent. run_m.
  destruct (isEnded (sess w)); [reflexivity|].
  cbn [negb andb].
  destruct (SessionState_eqb (state (sess w)) speaking
            && Assistant.interruptionEnabled (assistant config)) eqn:Eb.
  - cbn [negb andb]. destruct (detectVoiceActivity data) as [[|]|e].
    + cbn -[Z.min]. apply andb_true_iff in Eb. destruct Eb as [Eb _]. rewrite Eb.
      reflexivity.
    + reflexivity.
    + reflexivity.
  - cbn [negb andb]. destruct (detectVoiceActivity data) as [[|]|e].
    + cbn -[Z.min]. destruct (isSpeaking (sess w)); cbn -[Z.min];
        destruct (SessionState_eqb (state (sess w)) listening); reflexivity.
    + cbn -[Z.min]. destruct (isSpeaking (sess w)); [|reflexivity].
      destruct (silenceStart (sess w) =? 0) eqn:Es; cbn -[Z.min];
        match goal with
        | |- context [?d >? Z.min ?a ?b] => destruct (d >? Z.min a b) eqn:Ed
        end; cbn -[Z.min]; rewrite ?length_snoc_eqb; reflexivity.
    + reflexivity.
Qed.

(** C4. The silence timeout that [handleAudioData] uses is
    [min(assistant.silenceTimeoutMs, 1200)]: 1200 ms for a configured
    value above 1200 ms, the configured value otherwise.  A frame makes
    the session emit [speech.ended] exactly when it is a silent frame
    handled while listening, with [isSpeaking] set and the measured
    silence above that timeout; exactly then [processUserSpeech] runs
    ([assistant.thinking], state [thinking], the buffered audio sent to
    the transcriber) and [isSpeaking] is cleared. *)
Theorem silence_timeout_is_capped_and_ends_speech
  (config : SessionConfig) (w : World) (data : Buffer) :
  let a := assistant config in
  let w' := exec (handleAudioData config data) w in
  Z.min (Assistant.silenceTimeoutMs a) 1200 = effectiveSilenceTimeout a /\
  (1200 < Assistant.silenceTimeoutMs a -> effectiveSilenceTimeout a = 1200) /\
  (Assistant.silenceTimeoutMs a <= 1200 ->
   effectiveSilenceTimeout a = Assistant.silenceTimeoutMs a) /\
  existsb (isEvent "speech.ended") (since (emitted w) (emitted w'))
  = endpointFires config w data /\
  pending w'
  = (if endpointFires config w data
     then pending w ++ [PStt (clock w) (Buffer_concat (audioBuffer (sess w) ++ [data]))]
     else pending w) /\
  (endpointFires config w data = true ->
   since (emitted w) (emitted w')
   = [eventFrame "speech.ended" emptyObject (clock w);
      eventFrame "assistant.thinking" emptyObject (clock w)] /\
   isSpeaking (sess w') = false /\
   state (sess w') = thinking).
Proof.
  cbv zeta.
  split; [apply effectiveSilenceTimeout_min|].
  split; [unfold effectiveSilenceTimeout; intros H;
          destruct (Z.gtb_spec (Assistant.silenceTimeoutMs (assistant config)) 1200); lia|].
  split; [unfold effectiveSilenceTimeout; intros H;
          destruct (Z.gtb_spec (Assistant.silenceTimeoutMs (assistant config)) 1200); lia|].
  split; [apply handleAudioData_endpoint|].
  split; [apply handleAudioData_transcribes|].
  intros H. destruct (handleAudioData_fires config w data H) as (A & B & C & _).
  auto.
Qed.

(** The cap at work: 2000 ms configured, the endpoint fires after 1300 ms
    of silence. *)
Lemma silence_timeout_witness :
  Assistant.silenceTimeoutMs (assistant patientConfig) = 2000 /\
  effectiveSilenceTimeout (assistant patientConfig) = 1200 /\
  measuredSilence patientHeard = 1300 /\
  let w' := exec (handleAudioData patientConfig silentFrame) patientHeard in
  since (emitted patientHeard) (emitted w')
  = [eventFrame "speech.ended" emptyObject 3400;
     eventFrame "assistant.thinking" emptyObject 3400] /\
  isSpeaking (sess w') = false /\
  state (sess w') = thinking.
Proof.
  destruct (silence_timeout_is_capped_and_ends_speech
              patientConfig patientHeard silentFrame)
    as (_ & Hcap & _ & _ & _ & Hfire).
  split; [reflexivity|].
  split; [apply Hcap; vm_compute; reflexivity|].
  split; [vm_compute; reflexivity|].
  apply Hfire. vm_compute. reflexivity.
Defined.

(** *** [start] *)

Ltac new_rows :=
  cbn [db with_db with_sess with_pending with_sockLog with_handlersInstalled sess];
  rewrite <- ?app_assoc, ?since_app, ?since_self.

Lemma start_ignores_mode config mode w :
  start (withFirstMessageMode mode config) w = start config w.
Proof. reflexivity. Qed.

Lemma start_effect config w :
  let w' := exec (start config) w in
  match Assistant.firstMessage (assistant config) with
  | Some first =>
      if String.eqb first EmptyString then staysSilent config w w'
      else firstMessageSpoken config first w w'
  | None => staysSilent config w w'
  end.
Proof.
  cbv zeta. unfold start, setupSocketHandlers, synthesizeAndPlay, saveMessage,
    sendEvent, staysSilent, firstMessageSpoken. run_m.
  destruct (Assistant.firstMessage (assistant config)) as [first|].
  - destruct (String.eqb first EmptyString); cbn [negb].
    + cbn. new_frames. unfold emitted. cbn. new_frames. new_rows. repeat split; reflexivity.
    + cbn. new_frames. unfold emitted. cbn. new_frames. new_rows. repeat split; reflexivity.
  - cbn. new_frames. unfold emitted. cbn. new_frames. new_rows. repeat split; reflexivity.
Qed.

(** C5, as stated, fails: told to wait for the user, the seed assistant
    still speaks its first message. *)
Lemma first_message_spoken_although_told_to_wait :
  Assistant.firstMessageMode (assistant waitingConfig) = AssistantWaitsForUser /\
  Assistant.firstMessage (assistant waitingConfig) = Some "Hi." /\
  existsb (isEvent "assistant.message") (emitted (connected waitingConfig 1000)) = true /\
  pending (connected waitingConfig 1000) = [PTts 1 1000 "Hi."] /\
  state (sess (connected waitingConfig 1000)) = speaking.
Proof. vm_compute. repeat split; reflexivity. Qed.

(** C5, amended.  For every assistant with a non-empty [firstMessage]
    F, whatever its [firstMessageMode], [start] appends the assistant
    message to the history, emits [assistant.message], persists one
    [CallMessage] (role assistant, content F, timestampMs 0) and begins
    to synthesize F; with no first message, or an empty one, it says
    nothing and listens. *)
Theorem first_message_spoken_whatever_the_mode
  (config : SessionConfig) (mode : FirstMessageMode) (w : World) :
  let w' := exec (start config) w in
  exec (start (withFirstMessageMode mode config)) w = w' /\
  match Assistant.firstMessage (assistant config) with
  | Some first =>
      if String.eqb first EmptyString then staysSilent config w w'
      else firstMessageSpoken config first w w'
  | None => staysSilent config w w'
  end.
Proof.
  cbv zeta. split; [reflexivity | apply start_effect].
Qed.

(** C8: what the code does.  [start] writes the status "active", which
    is not a [CallStatus], over the "in-progress" that the route has
    just written. *)
Theorem start_writes_status_active (config : SessionConfig) (t0 : Z) :
  firstn 2 (db (connected config t0))
  = [routeWrite config t0; startWrite config t0] /\
  map statusWritten (firstn 2 (db (connected config t0)))
  = [Some "in-progress"; Some "active"] /\
  existsb (String.eqb "active") CallStatus = false.
Proof.
  unfold connected, wsRoute, start, setupSocketHandlers, synthesizeAndPlay,
    saveMessage, sendEvent, boot. run_m.
  destruct (Assistant.firstMessage (assistant config)) as [first|];
    [destruct (String.eqb first EmptyString)|]; cbn; repeat split; reflexivity.
Qed.

(** *** Why a call ends *)

Lemma keepsKnownReasons_refl w : keepsKnownReasons w w.
Proof. unfold keepsKnownReasons. auto. Qed.

Lemma keepsKnownReasons_trans w1 w2 w3 :
  keepsKnownReasons w1 w2 -> keepsKnownReasons w2 w3 -> keepsKnownReasons w1 w3.
Proof. unfold keepsKnownReasons. auto. Qed.

Create HintDb reasons discriminated.

Ltac reasons_prim :=
  unfold keepsKnownReasons, endedForKnownReason, emitted; simpl;
  rewrite ?map_app, ?forallb_app; simpl;
  intros ->; reflexivity.

Ltac reasons_tac :=
  pose proof keepsKnownReasons_refl as Hrefl;
  pose proof keepsKnownReasons_trans as Htrans;
  repeat first [ solve [auto with reasons] | respects_step ];
  try solve [apply Hrefl]; reasons_prim.

Lemma sendEvent_reasons type data :
  String.eqb type "call.ended" = false ->
  respects keepsKnownReasons (sendEvent type data).
Proof.
  intros Hty w. unfold sendEvent. run_m.
  unfold keepsKnownReasons, endedForKnownReason, emitted.
  cbn [with_sockLog sockLog]. rewrite map_app, forallb_app.
  intros ->. cbn [map fst forallb andb].
  unfold endedReasonOk, endedReason. rewrite isEvent_event, Hty. reflexivity.
Qed.

Lemma endedReason_callEnded reason now startedAt :
  endedReason (callEndedFrame reason now startedAt) = Some reason.
Proof. reflexivity. Qed.

Lemma end_reasons config reason :
  existsb (String.eqb reason) endReasons = true ->
  respects keepsKnownReasons (end_ config reason).
Proof.
  intros Hr w. destruct (isEnded (sess w)) eqn:E.
  - unfold exec. rewrite end_when_ended by exact E. apply keepsKnownReasons_refl.
  - destruct (end_effect config reason w E) as (_ & _ & Hlog & _).
    unfold keepsKnownReasons, endedForKnownReason, emitted.
    rewrite Hlog, map_app, forallb_app. intros ->.
    cbn [map fst forallb andb]. unfold endedReasonOk.
    rewrite endedReason_callEnded, Hr. reflexivity.
Qed.

#[local] Hint Resolve sendEvent_reasons end_reasons : reasons.
#[local] Hint Extern 1 (String.eqb _ _ = false) => reflexivity : reasons.
#[local] Hint Extern 1 (existsb _ endReasons = true) => reflexivity : reasons.

Lemma saveMessage_reasons config message :
  respects keepsKnownReasons (saveMessage config message).
Proof. unfold saveMessage. reasons_tac. Qed.

Lemma sendAudio_reasons audio : respects keepsKnownReasons (sendAudio audio).
Proof. unfold sendAudio. reasons_tac. Qed.

#[local] Hint Resolve saveMessage_reasons sendAudio_reasons : reasons.

Lemma handleInterrupt_reasons : respects keepsKnownReasons handleInterrupt.
Proof. unfold handleInterrupt. reasons_tac. Qed.

Lemma synthesizeAndPlay_reasons text llmLatency :
  respects keepsKnownReasons (synthesizeAndPlay text llmLatency).
Proof. unfold synthesizeAndPlay. reasons_tac. Qed.

Lemma playbackDone_reasons synthesisId :
  respects keepsKnownReasons (playbackDone synthesisId).
Proof. unfold playbackDone. reasons_tac. Qed.

Lemma generateResponse_reasons : respects keepsKnownReasons generateResponse.
Proof. unfold generateResponse. reasons_tac. Qed.

Lemma processUserSpeech_reasons : respects keepsKnownReasons processUserSpeech.
Proof. unfold processUserSpeech. reasons_tac. Qed.

#[local] Hint Resolve handleInterrupt_reasons synthesizeAndPlay_reasons
  playbackDone_reasons generateResponse_reasons processUserSpeech_reasons
  : reasons.

Lemma synthesizeAndPlay_resume_reasons synthesisId ttsStart synthesized :
  respects keepsKnownReasons
           (synthesizeAndPlay_resume synthesisId ttsStart synthesized).
Proof. unfold synthesizeAndPlay_resume. reasons_tac. Qed.

Lemma handleToolCall_reasons config server toolCall :
  respects keepsKnownReasons (handleToolCall config server toolCall).
Proof. unfold handleToolCall. reasons_tac. Qed.

#[local] Hint Resolve synthesizeAndPlay_resume_reasons handleToolCall_reasons
  : reasons.

Lemma generateResponse_resume_reasons config server llmStart generated :
  respects keepsKnownReasons
           (generateResponse_resume config server llmStart generated).
Proof. unfold generateResponse_resume. reasons_tac. Qed.

Lemma processUserSpeech_resume_reasons config sttStart transcribed :
  respects keepsKnownReasons
           (processUserSpeech_resume config sttStart transcribed).
Proof. unfold processUserSpeech_resume. reasons_tac. Qed.

Lemma handleAudioData_reasons config data :
  respects keepsKnownReasons (handleAudioData config data).
Proof. unfold handleAudioData. reasons_tac. Qed.

Lemma handleControlMessage_reasons config message :
  respects keepsKnownReasons (handleControlMessage config message).
Proof. unfold handleControlMessage. reasons_tac. Qed.

#[local] Hint Resolve generateResponse_resume_reasons
  processUserSpeech_resume_reasons handleAudioData_reasons
  handleControlMessage_reasons : reasons.

Lemma onMessage_reasons config data :
  respects keepsKnownReasons (onMessage config data).
Proof. unfold onMessage. reasons_tac. Qed.

Lemma onClose_reasons config : respects keepsKnownReasons (onClose config).
Proof. unfold onClose. reasons_tac. Qed.

Lemma start_reasons config : respects keepsKnownReasons (start config).
Proof. unfold start, setupSocketHandlers. reasons_tac. Qed.

#[local] Hint Resolve onMessage_reasons onClose_reasons start_reasons : reasons.

Lemma dispatch_reasons config e : respects keepsKnownReasons (dispatch config e).
Proof. unfold dispatch, onError. reasons_tac. Qed.

Lemma wsRoute_reasons config : respects keepsKnownReasons (wsRoute config).
Proof. unfold wsRoute. reasons_tac. Qed.

Lemma connected_reasons config t0 : endedForKnownReason (connected config t0).
Proof.
  unfold connected. apply wsRoute_reasons. reflexivity.
Qed.

Lemma step_reasons config w te : keepsKnownReasons w (step config w te).
Proof.
  unfold step. cbv zeta. intros H.
  apply (dispatch_reasons config (snd te)
           (with_pending (settle (snd te) (pending (with_clock (fst te) w)))
                         (with_clock (fst te) w))).
  exact H.
Qed.

Lemma run_reasons config trace :
  forall w, keepsKnownReasons w (run config w trace).
Proof.
  unfold run. induction trace as [|te rest IH]; intros w; simpl.
  - apply keepsKnownReasons_refl.
  - eapply keepsKnownReasons_trans; [apply step_reasons | apply IH].
Qed.

Lemma step_ignores_maxCallDuration config seconds w te :
  step (withMaxCallDuration seconds config) w te = step config w te.
Proof. destruct te as [now e]. destruct e; reflexivity. Qed.

Lemma run_ignores_maxCallDuration config seconds trace :
  forall w, run (withMaxCallDuration seconds config) w trace = run config w trace.
Proof.
  unfold run. induction trace as [|te rest IH]; intros w; simpl.
  - reflexivity.
  - rewrite step_ignores_maxCallDuration. apply IH.
Qed.

(** C2, as stated, fails: the seed assistant allows calls of 60 s; the
    call that started at 1000 is alive at 61000 and at 201000, and no
    [call.ended] has been emitted. *)
Lemma call_outlives_max_duration :
  Assistant.maxCallDurationSeconds (assistant seedConfig) = 60 /\
  startTime (sess seedStarted) = 1000 /\
  feasible seedConfig seedStarted longCall = true /\
  (let w := run seedConfig seedStarted (firstn 5 longCall) in
   clock w = 61000 /\ isEnded (sess w) = false /\
   count (isEvent "call.ended") (emitted w) = 0%nat) /\
  (let w := run seedConfig seedStarted longCall in
   clock w = 201000 /\ isEnded (sess w) = false /\
   count (isEvent "call.ended") (emitted w) = 0%nat /\
   state (sess w) = listening /\ readyState w = OPEN).
Proof. vm_compute. repeat split; reflexivity. Qed.

Lemma existsb_eqb_In (r : string) (l : list string) :
  existsb (String.eqb r) l = true -> In r l.
Proof.
  intros H. apply existsb_exists in H. destruct H as (x & Hin & Heq).
  apply String.eqb_eq in Heq. subst x. exact Hin.
Qed.

(** C2, amended.  The session has no timer for the call duration and
    does not read [maxCallDurationSeconds]: a run is the same whatever
    its value.  A session ends when [end] is called, and every
    [call.ended] names the caller's reason: client-request,
    client-disconnect, assistant-ended, api-request or server-shutdown;
    none names max-duration. *)
Theorem call_ends_only_on_request
  (config : SessionConfig) (seconds t0 : Z) (trace : list (Z * Event)) :
  let w := run config (connected config t0) trace in
  run (withMaxCallDuration seconds config)
      (connected (withMaxCallDuration seconds config) t0) trace = w /\
  (forall f r, In f (emitted w) -> endedReason f = Some r -> In r endReasons) /\
  (forall f, In f (emitted w) -> endedReason f <> Some "max-duration").
Proof.
  cbv zeta.
  assert (Hknown : forall f r,
             In f (emitted (run config (connected config t0) trace)) ->
             endedReason f = Some r -> In r endReasons).
  { intros f r Hin Hr.
    pose proof (run_reasons config trace (connected config t0)
                            (connected_reasons config t0)) as Hall.
    unfold endedForKnownReason in Hall. rewrite forallb_forall in Hall.
    specialize (Hall f Hin). unfold endedReasonOk in Hall. rewrite Hr in Hall.
    apply existsb_eqb_In, Hall. }
  split; [|split].
  - rewrite run_ignores_maxCallDuration. reflexivity.
  - exact Hknown.
  - intros f Hin Hr. specialize (Hknown f _ Hin Hr).
    simpl in Hknown. repeat destruct Hknown as [Hknown|Hknown]; discriminate || exact Hknown.
Qed.

(** C6: what the code does.  When the transcription fails, the session
    logs "STT error" and returns to [listening] without a user message
    and without ending, and emits nothing: no [assistant.audio.done].
    When the model fails, the next handler down does emit it. *)
Theorem stt_failure_emits_nothing
  (config : SessionConfig) (w : World) (now sttStart : Z) (e : JsError)
  (server : ToolExecutor.ToolServer) :
  let w' := step config w (now, SttSettled sttStart (Throw e)) in
  since (logs w) (logs w') = [ {| level := error; msg := "STT error" |} ] /\
  since (emitted w) (emitted w') = [] /\
  state (sess w') = listening /\
  messages (sess w') = messages (sess w) /\
  isEnded (sess w') = isEnded (sess w) /\
  since (emitted w)
        (emitted (step config w (now, LlmSettled sttStart (Throw e) server)))
  = [eventFrame "assistant.audio.done" emptyObject now].
Proof.
  cbv zeta. unfold step, dispatch, processUserSpeech_resume,
    generateResponse_resume, sendEvent. run_m. cbn.
  new_frames. unfold emitted. cbn. new_frames. repeat split; reflexivity.
Qed.

(** The failing turn of C6 in the seed call. *)
Lemma stt_failure_in_seed_call :
  let w' := step seedConfig seedHeard (3300, SttSettled 3000 (Throw providerDown)) in
  pending seedHeard = [PStt 3000 (voiceFrame ++ silentFrame ++ silentFrame)] /\
  existsb (isEvent "assistant.audio.done") (since (emitted seedHeard) (emitted w')) = false /\
  state (sess w') = listening.
Proof. vm_compute. repeat split; reflexivity. Qed.

(** C7: what the code does.  The projected [transferCall] definition
    requires the parameter [destination] and the executor reads
    [destination], but [handleToolCall] reads [arguments.number]: for a
    call that carries its destination under [destination], the
    [transfer.started] event has no destination at all.  The turn goes
    on: [generateResponse] is invoked again. *)
Theorem transfer_started_loses_destination
  (config : SessionConfig) (server : ToolExecutor.ToolServer)
  (w : World) (d : string) :
  let w' := exec (handleToolCall config server (transferCall d)) w in
  since (emitted w) (emitted w')
  = [eventFrame "tool.called"
       (JObj [("name", JStr "transferCall");
              ("arguments", JObj [("destination", JStr d)])]) (clock w);
     eventFrame "transfer.started" (JObj []) (clock w)] /\
  prop "destination" (ToolExecutor.execute server (toolExecutor config)
                        "transferCall" (tc_arguments (transferCall d)))
  = JStr d /\
  map td_parameters (ToolExecutor.definitionOf transferTool)
  = [JObj [("type", JStr "object");
           ("properties",
            JObj [("reason", ToolExecutor.stringParam "Reason for the transfer");
                  ("destination",
                   ToolExecutor.stringParam "Who or where to transfer to")]);
           ("required", JArr [JStr "destination"])]] /\
  (forall now llmStart,
     let asked := LlmSettled llmStart
                    (Ok {| r_content := EmptyString;
                           r_toolCalls := Some [transferCall d] |}) server in
     pending (step config w (now, asked))
     = settle asked (pending w) ++ [PLlm now]).
Proof.
  cbv zeta. split; [|split; [|split]].
  - unfold handleToolCall, sendEvent. run_m. cbn. new_frames. reflexivity.
  - reflexivity.
  - reflexivity.
  - intros now llmStart.
    unfold step, dispatch, generateResponse_resume, generateResponse,
      handleToolCall, sendEvent. run_m. cbn. reflexivity.
Qed.

(** The failing turn of C7 in the seed call: the destination is lost,
    the model is asked again, and its answer is synthesized and sent. *)
Lemma transfer_in_seed_call :
  feasible seedConfig seedHeard transferTurn = true /\
  let w := run seedConfig seedHeard transferTurn in
  map eventType (since (emitted seedHeard) (emitted w))
  = [Some "transcript.final"; Some "tool.called"; Some "transfer.started";
     Some "assistant.message"; Some "assistant.speaking"; None] /\
  map eventData (filter (isEvent "transfer.started") (emitted w)) = [JObj []] /\
  since (audioFrames seedHeard) (audioFrames w) = [BinaryFrame someAudio].
Proof. vm_compute. repeat split; reflexivity. Qed.

(** *** Recording the assistant's audio *)

Lemma synthesizeAndPlay_resume_current synthesisId ttsStart audio w :
  isCurrent synthesisId w = true ->
  let w' := exec (synthesizeAndPlay_resume synthesisId ttsStart (Ok audio)) w in
  assistantAudioChunks (sess w')
  = assistantAudioChunks (sess w)
    ++ (if isOpen (readyState w) then [audio; audio] else [audio]) /\
  sockLog w'
  = sockLog w
    ++ (eventFrame "assistant.speaking" emptyObject (clock w), isOpen (readyState w))
       :: (if isOpen (readyState w) then [(BinaryFrame audio, true)] else []) /\
  pending w'
  = pending w
    ++ [PTimer synthesisId (clock w + Z.max 500 (buf_length audio / 48 + 200))] /\
  readyState w' = readyState w.
Proof.
  unfold isCurrent. intros H.
  unfold synthesizeAndPlay_resume, sendAudio, sendEvent. run_m.
  rewrite <- negb_andb, H. cbn -[Z.max Z.div].
  destruct (isOpen (readyState w)) eqn:Eo; cbn -[Z.max Z.div];
    rewrite ?Eo; cbn -[Z.max Z.div];
    rewrite <- ?app_assoc; repeat split; reflexivity.
Qed.

Lemma saveRecording_effect config w :
  let w' := exec (saveRecording config) w in
  since (fs w) (fs w') = recordingFiles config (sess w) /\ sess w' = sess w.
Proof.
  unfold saveRecording, recordingFiles. run_m. cbn.
  destruct (userAudioChunks (sess w)) as [|u us];
    destruct (assistantAudioChunks (sess w)) as [|a as_]; cbn;
    rewrite <- ?app_assoc, ?since_app, ?since_self; split; reflexivity.
Qed.

Lemma audioFrames_since w l :
  since (audioFrames w)
        (filter isBinary (map fst (sockLog w ++ l)))
  = filter isBinary (map fst l).
Proof.
  unfold audioFrames, emitted. rewrite map_app, filter_app, since_app.
  reflexivity.
Qed.

(** *** The recording over a whole call *)

Lemma keepsRecording_refl w : keepsRecording w w.
Proof. unfold keepsRecording. auto. Qed.

Lemma keepsRecording_trans w1 w2 w3 :
  keepsRecording w1 w2 -> keepsRecording w2 w3 -> keepsRecording w1 w3.
Proof.
  unfold keepsRecording. intros (A1 & B1 & C1) (A2 & B2 & C2).
  repeat split; [congruence | congruence | auto].
Qed.

Create HintDb recording discriminated.

Ltac recording_prim :=
  unfold keepsRecording, sentAudio, emitted; simpl;
  rewrite ?map_app, ?flat_map_app; simpl; rewrite ?app_nil_r;
  repeat split; auto;
  match goal with
  | |- context [readyState ?w] => destruct (readyState w); simpl; auto
  end.

Ltac recording_tac :=
  pose proof keepsRecording_refl as Hrefl;
  pose proof keepsRecording_trans as Htrans;
  repeat first [ solve [auto with recording] | respects_step ];
  recording_prim.

Lemma sendEvent_recording type data : respects keepsRecording (sendEvent type data).
Proof. unfold sendEvent. recording_tac. Qed.

Lemma saveMessage_recording config message :
  respects keepsRecording (saveMessage config message).
Proof. unfold saveMessage. recording_tac. Qed.

Lemma saveRecording_recording config : respects keepsRecording (saveRecording config).
Proof. unfold saveRecording. recording_tac. Qed.

#[local] Hint Resolve sendEvent_recording saveMessage_recording
  saveRecording_recording : recording.

Lemma end_recording config reason : respects keepsRecording (end_ config reason).
Proof. unfold end_. recording_tac. Qed.

Lemma handleInterrupt_recording : respects keepsRecording handleInterrupt.
Proof. unfold handleInterrupt. recording_tac. Qed.

Lemma synthesizeAndPlay_recording text llmLatency :
  respects keepsRecording (synthesizeAndPlay text llmLatency).
Proof. unfold synthesizeAndPlay. recording_tac. Qed.

Lemma playbackDone_recording synthesisId :
  respects keepsRecording (playbackDone synthesisId).
Proof. unfold playbackDone. recording_tac. Qed.

Lemma generateResponse_recording : respects keepsRecording generateResponse.
Proof. unfold generateResponse. recording_tac. Qed.

Lemma processUserSpeech_recording : respects keepsRecording processUserSpeech.
Proof. unfold processUserSpeech. recording_tac. Qed.

#[local] Hint Resolve end_recording handleInterrupt_recording
  synthesizeAndPlay_recording playbackDone_recording
  generateResponse_recording processUserSpeech_recording : recording.

Lemma handleToolCall_recording config server toolCall :
  respects keepsRecording (handleToolCall config server toolCall).
Proof. unfold handleToolCall. recording_tac. Qed.

#[local] Hint Resolve handleToolCall_recording : recording.

Lemma generateResponse_resume_recording config server llmStart generated :
  respects keepsRecording
           (generateResponse_resume config server llmStart generated).
Proof. unfold generateResponse_resume. recording_tac. Qed.

Lemma processUserSpeech_resume_recording config sttStart transcribed :
  respects keepsRecording (processUserSpeech_resume config sttStart transcribed).
Proof. unfold processUserSpeech_resume. recording_tac. Qed.

Lemma handleAudioData_recording config data :
  respects keepsRecording (handleAudioData config data).
Proof. unfold handleAudioData. recording_tac. Qed.

Lemma handleControlMessage_recording config message :
  respects keepsRecording (handleControlMessage config message).
Proof. unfold handleControlMessage. recording_tac. Qed.

#[local] Hint Resolve generateResponse_resume_recording
  processUserSpeech_resume_recording handleAudioData_recording
  handleControlMessage_recording : recording.

Lemma onMessage_recording config data :
  respects keepsRecording (onMessage config data).
Proof. unfold onMessage. recording_tac. Qed.

Lemma onClose_recording config : respects keepsRecording (onClose config).
Proof. unfold onClose. recording_tac. Qed.

Lemma start_recording config : respects keepsRecording (start config).
Proof. unfold start, setupSocketHandlers. recording_tac. Qed.

#[local] Hint Resolve onMessage_recording onClose_recording start_recording
  : recording.

Lemma wsRoute_recording config : respects keepsRecording (wsRoute config).
Proof. unfold wsRoute. recording_tac. Qed.

Lemma synthesizeAndPlay_resume_failed_recording synthesisId ttsStart e :
  respects keepsRecording (synthesizeAndPlay_resume synthesisId ttsStart (Throw e)).
Proof.
  intros w. unfold synthesizeAndPlay_resume, sendEvent. run_m.
  destruct (SessionState_eqb (state (sess w)) speaking
            && (currentSynthesisId (sess w) =? synthesisId)) eqn:E;
    simpl; rewrite E; recording_prim.
Qed.

Lemma dispatch_recording config e :
  match e with
  | TtsSettled _ _ _ => True
  | _ => respects keepsRecording (dispatch config e)
  end.
Proof. destruct e; try exact I; unfold dispatch, onError; recording_tac. Qed.

Lemma keepsRecording_twice w w' :
  keepsRecording w w' -> recordsTwiceWhileOpen w w'.
Proof.
  unfold keepsRecording, recordsTwiceWhileOpen, recordedTwice.
  intros (A & B & C) Hopen. split; [auto|]. rewrite A, B. auto.
Qed.

Lemma recordsTwiceWhileOpen_trans w1 w2 w3 :
  recordsTwiceWhileOpen w1 w2 -> recordsTwiceWhileOpen w2 w3 ->
  recordsTwiceWhileOpen w1 w3.
Proof.
  unfold recordsTwiceWhileOpen. intros H12 H23 H3.
  destruct (H23 H3) as (H2 & I23). destruct (H12 H2) as (H1 & I12). auto.
Qed.

Lemma sentAudio_snoc w l :
  flat_map audioPayload (map fst (sockLog w ++ l))
  = sentAudio w ++ flat_map audioPayload (map fst l).
Proof.
  unfold sentAudio, emitted. rewrite map_app, flat_map_app. reflexivity.
Qed.

Lemma step_recording config w te : recordsTwiceWhileOpen w (step config w te).
Proof.
  destruct te as [now e]. unfold step. cbv zeta. cbn [fst snd].
  remember (with_pending (settle e (pending (with_clock now w)))
                          (with_clock now w)) as w2 eqn:Hw2.
  assert (Hbase : keepsRecording w w2).
  { subst w2. unfold keepsRecording. auto. }
  apply keepsRecording_twice in Hbase.
  apply (recordsTwiceWhileOpen_trans w w2); [exact Hbase|]. clear Hbase Hw2.
  pose proof (dispatch_recording config e) as Hd.
  destruct e as [data| | |sttStart transcribed|llmStart generated server
                 |synthesisId ttsStart synthesized|synthesisId| | ];
    try (apply keepsRecording_twice; apply Hd).
  clear Hd. cbn [dispatch]. destruct synthesized as [audio|err].
  - destruct (isCurrent synthesisId w2) eqn:E.
    + destruct (synthesizeAndPlay_resume_current synthesisId ttsStart audio w2 E)
        as (Hchunks & Hlog & _ & Hready).
      unfold recordsTwiceWhileOpen, recordedTwice.
      rewrite Hready. intros Hopen. split; [exact Hopen|].
      intros Hinv. rewrite Hchunks, Hopen, Hinv.
      unfold sentAudio at 2. unfold emitted. rewrite Hlog, Hopen.
      rewrite map_app, !flat_map_app. reflexivity.
    + destruct (synthesizeAndPlay_resume_stale synthesisId ttsStart (Ok audio) w2 E)
        as (Hs & Hl & _ & Hready).
      apply keepsRecording_twice. unfold keepsRecording, sentAudio, emitted.
      rewrite Hs, Hl, Hready. auto.
  - apply keepsRecording_twice, synthesizeAndPlay_resume_failed_recording.
Qed.

Lemma run_recording config trace :
  forall w, recordsTwiceWhileOpen w (run config w trace).
Proof.
  unfold run. induction trace as [|te rest IH]; intros w; simpl.
  - apply keepsRecording_twice, keepsRecording_refl.
  - eapply recordsTwiceWhileOpen_trans; [apply step_recording | apply IH].
Qed.

Lemma connected_recordedTwice config t0 : recordedTwice (connected config t0).
Proof.
  pose proof (wsRoute_recording config (with_clock t0 (boot config)))
    as (A & B & _).
  unfold connected, recordedTwice. rewrite A, B. reflexivity.
Qed.


Lemma concat_twice (sent : list Buffer) :
  Buffer_concat (flat_map twice sent)
  = List.concat (map (fun audio => audio ++ audio) sent).
Proof.
  unfold Buffer_concat. induction sent as [|a rest IH]; simpl.
  - reflexivity.
  - rewrite IH, <- app_assoc. reflexivity.
Qed.



(** *** Voice activity detection *)

Lemma signExtendOkFrom_spec (n : nat) :
  forall v k, signExtendOkFrom n v = true ->
              v <= k < v + Z.of_nat n -> signExtendOk k = true.
Proof.
  induction n as [|n IH]; intros v k H Hk.
  - simpl in Hk. lia.
  - cbn [signExtendOkFrom] in H. apply andb_true_iff in H. destruct H as [H0 H1].
    destruct (Z.eq_dec k v) as [->|Hne]; [exact H0|].
    apply (IH (v + 1)); [exact H1 | lia].
Qed.

Lemma signExtend_table : signExtendOkFrom (Z.to_nat 65536) 0 = true.
Proof. vm_compute. reflexivity. Qed.

Lemma signExtend16 (v : Z) :
  0 <= v < 65536 ->
  toInt32 (Z.lor (toInt32 v) (toInt32 (Z.land v (2 ^ 15) * 0x1fffe))) = int16 v.
Proof.
  intros Hv. apply Z.eqb_eq.
  apply (signExtendOkFrom_spec (Z.to_nat 65536) 0 v signExtend_table). lia.
Qed.

Lemma byteZ_range (b : Byte.byte) : 0 <= byteZ b < 256.
Proof.
  unfold byteZ. pose proof (Byte.to_N_bounded b) as H. lia.
Qed.

Lemma buf_index_app_here (pre suf : Buffer) (b : Byte.byte) :
  buf_index (pre ++ b :: suf) (buf_length pre) = Some (byteZ b).
Proof.
  unfold buf_index, buf_length.
  destruct (Z.ltb_spec (Z.of_nat (List.length pre)) 0); [lia|].
  rewrite Nat2Z.id, nth_error_app2, Nat.sub_diag by lia. reflexivity.
Qed.

Lemma buf_index_end (b : Buffer) (i : Z) :
  buf_length b <= i -> buf_index b i = None.
Proof.
  unfold buf_index, buf_length. intros H.
  destruct (Z.ltb_spec i 0); [reflexivity|].
  replace (nth_error b (Z.to_nat i)) with (@None Byte.byte); [reflexivity|].
  symmetry. apply nth_error_None. lia.
Qed.

Lemma buf_length_app (a b : Buffer) : buf_length (a ++ b) = buf_length a + buf_length b.
Proof. unfold buf_length. rewrite length_app. lia. Qed.

Lemma buf_length_cons (x : Byte.byte) (b : Buffer) : buf_length (x :: b) = 1 + buf_length b.
Proof. unfold buf_length. simpl List.length. lia. Qed.

Lemma buf_length_nil : buf_length [] = 0.
Proof. reflexivity. Qed.

Ltac buflen := rewrite ?buf_length_app, ?buf_length_cons, ?buf_length_nil in *.

Lemma readInt16LE_pair (pre rest : Buffer) (lo hi : Byte.byte) :
  readInt16LE (pre ++ lo :: hi :: rest) (buf_length pre)
  = Ok (int16 (byteZ lo + 256 * byteZ hi)).
Proof.
  unfold readInt16LE.
  rewrite buf_index_app_here.
  replace (pre ++ lo :: hi :: rest) with ((pre ++ [lo]) ++ hi :: rest)
    by (rewrite <- app_assoc; reflexivity).
  replace (buf_length pre + 1) with (buf_length (pre ++ [lo]))
    by (buflen; lia).
  rewrite buf_index_app_here.
  pose proof (byteZ_range lo). pose proof (byteZ_range hi).
  cbv zeta. rewrite signExtend16 by lia. f_equal. f_equal. lia.
Qed.

Lemma readInt16LE_last (pre : Buffer) (b : Byte.byte) :
  readInt16LE (pre ++ [b]) (buf_length pre)
  = Throw (boundsError (buf_length pre) (buf_length pre - 1)).
Proof.
  unfold readInt16LE.
  rewrite buf_index_app_here.
  rewrite buf_index_end by (buflen; lia).
  buflen. do 2 f_equal. lia.
Qed.

Lemma vadLoop_suffix (n : nat) :
  forall (suf pre : Buffer) (sum : Z),
    (List.length suf <= n)%nat ->
    vadLoop (pre ++ suf) (buf_length pre) sum
    = if Nat.even (List.length suf)
      then Ok (sum + sumAbs (samplesLE suf))
      else Throw (boundsError (buf_length (pre ++ suf) - 1)
                              (buf_length (pre ++ suf) - 2)).
Proof.
  induction n as [|n IH]; intros suf pre sum Hn.
  - destruct suf; [|simpl in Hn; lia].
    rewrite app_nil_r. simpl. simp vadLoop.
    destruct (Z_lt_dec (buf_length pre) (buf_length pre)); [lia|].
    simpl. f_equal. unfold sumAbs. simpl. lia.
  - destruct suf as [|lo [|hi rest]].
    + apply IH. simpl. lia.
    + simpl. simp vadLoop.
      destruct (Z_lt_dec (buf_length pre) (buf_length (pre ++ [lo]))) as [Hlt|Hge].
      * simpl. rewrite readInt16LE_last. simpl.
        buflen. do 2 f_equal; lia.
      * exfalso. apply Hge. buflen. unfold buf_length. lia.
    + simp vadLoop.
      destruct (Z_lt_dec (buf_length pre) (buf_length (pre ++ lo :: hi :: rest))) as [Hlt|Hge].
      * simpl. rewrite readInt16LE_pair. simpl.
        replace (pre ++ lo :: hi :: rest) with ((pre ++ [lo; hi]) ++ rest)
          by (rewrite <- app_assoc; reflexivity).
        replace (buf_length pre + 2) with (buf_length (pre ++ [lo; hi]))
          by (buflen; lia).
        rewrite IH by (simpl in Hn; lia).
        destruct (Nat.even (List.length rest)); [|reflexivity].
        f_equal. unfold sumAbs. simpl. lia.
      * exfalso. apply Hge. buflen. unfold buf_length. lia.
Qed.

Lemma samplesLE_length (n : nat) :
  forall audio : Buffer,
    (List.length audio <= n)%nat ->
    Nat.even (List.length audio) = true ->
    (2 * List.length (samplesLE audio) = List.length audio)%nat.
Proof.
  induction n as [|n IH]; intros audio Hn Hev.
  - destruct audio; [reflexivity | simpl in Hn; lia].
  - destruct audio as [|lo [|hi rest]]; [reflexivity | discriminate |].
    simpl in Hn, Hev. specialize (IH rest ltac:(lia) Hev).
    simpl List.length. lia.
Qed.

Lemma detectVoiceActivity_even (audio : Buffer) :
  Nat.even (List.length audio) = true ->
  exists hasVoice,
    detectVoiceActivity audio = Ok hasVoice /\
    (hasVoice = true <-> meanAbsExceeds (samplesLE audio) VAD_THRESHOLD).
Proof.
  intros Hev. unfold detectVoiceActivity.
  pose proof (vadLoop_suffix (List.length audio) audio [] 0 (le_n _)) as L.
  simpl in L. rewrite Hev in L. change (buf_length []) with 0 in L. rewrite L.
  eexists. split; [reflexivity|].
  pose proof (samplesLE_length (List.length audio) audio (le_n _) Hev) as Hlen.
  unfold meanAbsExceeds, js_div, js_gt.
  remember (samplesLE audio) as samples.
  destruct samples as [|s0 rest].
  - simpl in Hlen. assert (audio = []) by (destruct audio; [reflexivity|simpl in Hlen; lia]).
    subst audio. simpl. split; [discriminate | intros [H _]; congruence].
  - set (n := Z.of_nat (List.length (s0 :: rest))).
    assert (Hn : 0 < n) by (unfold n; simpl List.length; lia).
    assert (Hb : buf_length audio = 2 * n) by (unfold buf_length, n; lia).
    rewrite Hb.
    assert (Hq : (inject_Z (2 * n) / 2 == inject_Z n)%Q).
    { rewrite inject_Z_mult. field. }
    destruct (Qeq_bool (inject_Z (2 * n) / 2) 0) eqn:E.
    + apply Qeq_bool_iff in E. rewrite Hq in E.
      exfalso. unfold Qeq in E. simpl in E. lia.
    + rewrite negb_true_iff. split.
      * intros H. split; [discriminate|].
        apply Qnot_le_lt. intros C. 
        assert (Qle_bool (inject_Z (sumAbs (s0 :: rest)) / (inject_Z (2 * n) / 2)) VAD_THRESHOLD = true).
        { apply Qle_bool_iff. rewrite Hq. exact C. }
        congruence.
      * intros [_ H]. apply not_true_is_false. intros C.
        apply Qle_bool_iff in C. rewrite Hq in C.
        apply (Qlt_not_le _ _ H C).
Qed.

Lemma detectVoiceActivity_odd (audio : Buffer) :
  Nat.even (List.length audio) = false ->
  detectVoiceActivity audio
  = Throw (boundsError (buf_length audio - 1) (buf_length audio - 2)).
Proof.
  intros Hodd. unfold detectVoiceActivity.
  pose proof (vadLoop_suffix (List.length audio) audio [] 0 (le_n _)) as L.
  simpl in L. rewrite Hodd in L. change (buf_length []) with 0 in L. rewrite L.
  reflexivity.
Qed.

Lemma list_last_of_odd (data : Buffer) :
  Nat.even (List.length data) = false ->
  exists pre b, data = pre ++ [b].
Proof.
  intros Hodd. destruct (exists_last (l := data)) as (pre & b & Heq).
  - intros ->. discriminate.
  - exists pre, b. exact Heq.
Qed.

(** The message listener on a frame that [detectVoiceActivity] rejects. *)
Lemma onMessage_rejected_frame config w data e :
  detectVoiceActivity data = Throw e ->
  isEnded (sess w) = false ->
  let w' := exec (onMessage config (inl data)) w in
  since (logs w) (logs w')
  = [ {| level := error; msg := "Error handling message" |} ] /\
  since (emitted w) (emitted w') = [] /\
  userAudioChunks (sess w') = userAudioChunks (sess w) ++ [data] /\
  audioBuffer (sess w')
  = (if bargesIn config w then audioBuffer (sess w)
     else audioBuffer (sess w) ++ [data]) /\
  isSpeaking (sess w') = isSpeaking (sess w) /\
  silenceStart (sess w') = silenceStart (sess w) /\
  state (sess w') = state (sess w) /\
  pending w' = pending w.
Proof.
  intros Hv Hlive. unfold onMessage, handleAudioData, bargesIn. run_m.
  rewrite Hlive, Hv.
  destruct (SessionState_eqb (state (sess w)) speaking
            && Assistant.interruptionEnabled (assistant config));
    cbn; rewrite ?since_app, ?since_self; repeat split; reflexivity.
Qed.

(** C10, as stated, fails: the odd frame is not dropped.  The listener
    catches the error after the frame has been appended to the user
    recording and to the input buffer, and the frame is part of the
    audio that goes to the transcriber. *)
Lemma odd_frame_is_kept :
  detectVoiceActivity oddFrame = Throw (ERR_OUT_OF_RANGE 2 1) /\
  userAudioChunks (sess seedListening) = [] /\
  audioBuffer (sess seedListening) = [] /\
  (let w' := step seedConfig seedListening (2000, SocketMessage (inl oddFrame)) in
   userAudioChunks (sess w') = [oddFrame] /\
   audioBuffer (sess w') = [oddFrame]) /\
  feasible seedConfig seedListening afterOddFrame = true /\
  pending (run seedConfig seedListening afterOddFrame)
  = [PStt 3100 (oddFrame ++ voiceFrame ++ silentFrame ++ silentFrame)].
Proof. vm_compute. repeat split; reflexivity. Qed.

(** C10, amended.  [detectVoiceActivity] returns on the frames of even
    byte length: true exactly when the mean of the absolute values of
    the little-endian 16-bit samples exceeds 200.  On a frame of odd
    byte length the read of the last sample, at index length - 1, throws
    an out-of-range error.  The message listener catches it and logs it;
    no event is emitted and the detection state stays as it was, but
    the frame has already been appended to [userAudioChunks] and,
    outside the barge-in branch, to [audioBuffer].  A session that has
    ended ignores the frame before reading it. *)
Theorem vad_returns_on_even_frames_only
  (config : SessionConfig) (w : World) (data : Buffer) :
  (Nat.even (List.length data) = true ->
   exists hasVoice,
     detectVoiceActivity data = Ok hasVoice /\
     (hasVoice = true <-> meanAbsExceeds (samplesLE data) VAD_THRESHOLD)) /\
  (Nat.even (List.length data) = false ->
   readInt16LE data (buf_length data - 1)
   = Throw (boundsError (buf_length data - 1) (buf_length data - 2)) /\
   detectVoiceActivity data
   = Throw (boundsError (buf_length data - 1) (buf_length data - 2)) /\
   let w' := exec (onMessage config (inl data)) w in
   if isEnded (sess w) then w' = w
   else
     since (logs w) (logs w')
     = [ {| level := error; msg := "Error handling message" |} ] /\
     since (emitted w) (emitted w') = [] /\
     userAudioChunks (sess w') = userAudioChunks (sess w) ++ [data] /\
     audioBuffer (sess w')
     = (if bargesIn config w then audioBuffer (sess w)
        else audioBuffer (sess w) ++ [data]) /\
     isSpeaking (sess w') = isSpeaking (sess w) /\
     silenceStart (sess w') = silenceStart (sess w) /\
     state (sess w') = state (sess w) /\
     pending w' = pending w).
Proof.
  split; [apply detectVoiceActivity_even|].
  intros Hodd.
  pose proof (detectVoiceActivity_odd data Hodd) as Hthrow.
  split; [|split; [exact Hthrow|]].
  - destruct (list_last_of_odd data Hodd) as (pre & b & ->).
    rewrite buf_length_app, buf_length_cons, buf_length_nil.
    replace (buf_length pre + (1 + 0) - 1) with (buf_length pre) by lia.
    rewrite readInt16LE_last. do 2 f_equal. lia.
  - cbv zeta. destruct (isEnded (sess w)) eqn:E.
    + unfold onMessage, handleAudioData. run_m. rewrite E. reflexivity.
    + apply (onMessage_rejected_frame config w data _ Hthrow E).
Qed.

(** A frame of one sample and a frame of three bytes. *)
Lemma vad_returns_on_even_frames_only_witness :
  (exists hasVoice,
     detectVoiceActivity voiceFrame = Ok hasVoice /\
     (hasVoice = true <-> meanAbsExceeds (samplesLE voiceFrame) VAD_THRESHOLD)) /\
  detectVoiceActivity oddFrame = Throw (ERR_OUT_OF_RANGE 2 1) /\
  userAudioChunks (sess (exec (onMessage seedConfig (inl oddFrame)) seedListening))
  = [oddFrame].
Proof.
  destruct (vad_returns_on_even_frames_only seedConfig seedListening voiceFrame)
    as (Heven & _).
  destruct (vad_returns_on_even_frames_only seedConfig seedListening oddFrame)
    as (_ & Hodd).
  split; [apply Heven; reflexivity|].
  destruct (Hodd eq_refl) as (_ & Hthrow & Hkept).
  split; [exact Hthrow|].
  cbv zeta in Hkept.
  change (isEnded (sess seedListening)) with false in Hkept.
  cbv iota in Hkept.
  destruct Hkept as (_ & _ & Hu & _). exact Hu.
Defined.

(** ** The start time is set once *)

Lemma startTimeSame_refl w : startTimeSame w w.
Proof. reflexivity. Qed.

Lemma startTimeSame_trans w1 w2 w3 :
  startTimeSame w1 w2 -> startTimeSame w2 w3 -> startTimeSame w1 w3.
Proof. unfold startTimeSame. congruence. Qed.

Create HintDb starttime discriminated.

Ltac starttime_tac :=
  pose proof startTimeSame_refl as Hrefl; pose proof startTimeSame_trans as Htrans;
  repeat first [ solve [auto with starttime] | respects_step ];
  unfold startTimeSame; reflexivity.

Lemma sendEvent_starttime type data : respects startTimeSame (sendEvent type data).
Proof. unfold sendEvent. starttime_tac. Qed.

Lemma sendAudio_starttime audio : respects startTimeSame (sendAudio audio).
Proof. unfold sendAudio. starttime_tac. Qed.

Lemma saveMessage_starttime config message :
  respects startTimeSame (saveMessage config message).
Proof. unfold saveMessage. starttime_tac. Qed.

Lemma saveRecording_starttime config : respects startTimeSame (saveRecording config).
Proof. unfold saveRecording. starttime_tac. Qed.

#[local] Hint Resolve sendEvent_starttime sendAudio_starttime
  saveMessage_starttime saveRecording_starttime : starttime.

Lemma end_starttime config reason : respects startTimeSame (end_ config reason).
Proof. unfold end_. starttime_tac. Qed.

Lemma handleInterrupt_starttime : respects startTimeSame handleInterrupt.
Proof. unfold handleInterrupt. starttime_tac. Qed.

Lemma synthesizeAndPlay_starttime text llmLatency :
  respects startTimeSame (synthesizeAndPlay text llmLatency).
Proof. unfold synthesizeAndPlay. starttime_tac. Qed.

Lemma playbackDone_starttime synthesisId :
  respects startTimeSame (playbackDone synthesisId).
Proof. unfold playbackDone. starttime_tac. Qed.

Lemma generateResponse_starttime : respects startTimeSame generateResponse.
Proof. unfold generateResponse. starttime_tac. Qed.

Lemma processUserSpeech_starttime : respects startTimeSame processUserSpeech.
Proof. unfold processUserSpeech. starttime_tac. Qed.

#[local] Hint Resolve end_starttime handleInterrupt_starttime
  synthesizeAndPlay_starttime playbackDone_starttime
  generateResponse_starttime processUserSpeech_starttime : starttime.

Lemma synthesizeAndPlay_resume_starttime synthesisId ttsStart synthesized :
  respects startTimeSame (synthesizeAndPlay_resume synthesisId ttsStart synthesized).
Proof. unfold synthesizeAndPlay_resume. starttime_tac. Qed.

Lemma handleToolCall_starttime config server toolCall :
  respects startTimeSame (handleToolCall config server toolCall).
Proof. unfold handleToolCall. starttime_tac. Qed.

#[local] Hint Resolve synthesizeAndPlay_resume_starttime
  handleToolCall_starttime : starttime.

Lemma generateResponse_resume_starttime config server llmStart generated :
  respects startTimeSame (generateResponse_resume config server llmStart generated).
Proof. unfold generateResponse_resume. starttime_tac. Qed.

Lemma processUserSpeech_resume_starttime config sttStart transcribed :
  respects startTimeSame (processUserSpeech_resume config sttStart transcribed).
Proof. unfold processUserSpeech_resume. starttime_tac. Qed.

Lemma handleAudioData_starttime config data :
  respects startTimeSame (handleAudioData config data).
Proof. unfold handleAudioData. starttime_tac. Qed.

Lemma handleControlMessage_starttime config message :
  respects startTimeSame (handleControlMessage config message).
Proof. unfold handleControlMessage. starttime_tac. Qed.

#[local] Hint Resolve generateResponse_resume_starttime
  processUserSpeech_resume_starttime handleAudioData_starttime
  handleControlMessage_starttime : starttime.

Lemma onMessage_starttime config data :
  respects startTimeSame (onMessage config data).
Proof. unfold onMessage. starttime_tac. Qed.

Lemma onClose_starttime config : respects startTimeSame (onClose config).
Proof. unfold onClose. starttime_tac. Qed.

#[local] Hint Resolve onMessage_starttime onClose_starttime : starttime.

Lemma dispatch_starttime config e : respects startTimeSame (dispatch config e).
Proof. unfold dispatch, onError. starttime_tac. Qed.

Lemma step_starttime config w te :
  startTime (sess (step config w te)) = startTime (sess w).
Proof.
  unfold step. cbv zeta.
  apply (dispatch_starttime config (snd te)
           (with_pending (settle (snd te) (pending (with_clock (fst te) w)))
                         (with_clock (fst te) w))).
Qed.

Lemma run_starttime config trace :
  forall w, startTime (sess (run config w trace)) = startTime (sess w).
Proof.
  unfold run.
  induction trace as [|te rest IH]; intros w; simpl.
  - reflexivity.
  - rewrite IH. apply step_starttime.
Qed.

Lemma connected_starttime config t0 :
  startTime (sess (connected config t0)) = t0.
Proof.
  unfold connected, wsRoute, start, setupSocketHandlers, synthesizeAndPlay,
    saveMessage, sendEvent. run_m.
  destruct (Assistant.firstMessage (assistant config)) as [first|];
    [destruct (String.eqb first EmptyString)|]; reflexivity.
Qed.

(** ** The history and its rows *)

Lemma mirrors_refl w : mirrors w w.
Proof. exists []. rewrite !app_nil_r. auto. Qed.

Lemma mirrors_trans w1 w2 w3 : mirrors w1 w2 -> mirrors w2 w3 -> mirrors w1 w3.
Proof.
  intros (a & Ha & Pa) (b & Hb & Pb). exists (a ++ b).
  rewrite Hb, Ha, Pb, Pa, map_app, !app_assoc. auto.
Qed.

Create HintDb mirrors discriminated.

Ltac mirrors_prim :=
  unfold mirrors; exists []; unfold persistedTranscript; simpl;
  rewrite ?flat_map_app; simpl; rewrite ?app_nil_r; split; reflexivity.

Ltac mirrors_steps :=
  repeat first [ solve [auto with mirrors] | respects_step ];
  mirrors_prim.

Ltac mirrors_tac :=
  pose proof mirrors_refl as Hrefl; pose proof mirrors_trans as Htrans;
  mirrors_steps.

Lemma sendEvent_mirrors type data : respects mirrors (sendEvent type data).
Proof. unfold sendEvent. mirrors_tac. Qed.

Lemma sendAudio_mirrors audio : respects mirrors (sendAudio audio).
Proof. unfold sendAudio. mirrors_tac. Qed.

Lemma saveRecording_mirrors config : respects mirrors (saveRecording config).
Proof. unfold saveRecording. mirrors_tac. Qed.

#[local] Hint Resolve sendEvent_mirrors sendAudio_mirrors saveRecording_mirrors
  : mirrors.

Lemma end_mirrors config reason : respects mirrors (end_ config reason).
Proof. unfold end_. mirrors_tac. Qed.

Lemma handleInterrupt_mirrors : respects mirrors handleInterrupt.
Proof. unfold handleInterrupt. mirrors_tac. Qed.

Lemma synthesizeAndPlay_mirrors text llmLatency :
  respects mirrors (synthesizeAndPlay text llmLatency).
Proof. unfold synthesizeAndPlay. mirrors_tac. Qed.

Lemma playbackDone_mirrors synthesisId : respects mirrors (playbackDone synthesisId).
Proof. unfold playbackDone. mirrors_tac. Qed.

Lemma generateResponse_mirrors : respects mirrors generateResponse.
Proof. unfold generateResponse. mirrors_tac. Qed.

Lemma processUserSpeech_mirrors : respects mirrors processUserSpeech.
Proof. unfold processUserSpeech. mirrors_tac. Qed.

#[local] Hint Resolve end_mirrors handleInterrupt_mirrors
  synthesizeAndPlay_mirrors playbackDone_mirrors generateResponse_mirrors
  processUserSpeech_mirrors : mirrors.

Lemma synthesizeAndPlay_resume_mirrors synthesisId ttsStart synthesized :
  respects mirrors (synthesizeAndPlay_resume synthesisId ttsStart synthesized).
Proof. unfold synthesizeAndPlay_resume. mirrors_tac. Qed.

(** A message is pushed and its row is written. *)
Ltac pushed m :=
  unfold mirrors, persistedTranscript; exists [m];
  cbn -[ToolExecutor.execute jsonClean];
  rewrite ?flat_map_app; cbn -[ToolExecutor.execute jsonClean];
  rewrite <- ?app_assoc; split; reflexivity.

Lemma handleToolCall_mirrors config server toolCall :
  respects mirrors (handleToolCall config server toolCall).
Proof.
  pose proof mirrors_refl as Hrefl. pose proof mirrors_trans as Htrans.
  unfold handleToolCall.
  apply respects_bind; auto with mirrors. intros _.
  destruct (String.eqb (tc_name toolCall) "endCall"); auto with mirrors.
  destruct (String.eqb (tc_name toolCall) "transferCall"); auto with mirrors.
  intros w. unfold sendEvent, saveMessage. run_m.
  pushed {| role := tool;
            content := Stringified
                         (ToolExecutor.execute server (toolExecutor config)
                            (tc_name toolCall) (tc_arguments toolCall));
            toolCallId := Some (tc_id toolCall) |}.
Qed.

#[local] Hint Resolve synthesizeAndPlay_resume_mirrors handleToolCall_mirrors
  : mirrors.

Lemma generateResponse_resume_mirrors config server llmStart generated :
  respects mirrors (generateResponse_resume config server llmStart generated).
Proof.
  pose proof mirrors_refl as Hrefl. pose proof mirrors_trans as Htrans.
  unfold generateResponse_resume.
  apply respects_tryCatch; try assumption; [|intros e; mirrors_steps].
  destruct generated as [response|e]; [|intros w; apply mirrors_refl].
  destruct (r_toolCalls response) as [[|tc tcs]|] eqn:Etc.
  1, 3:
    intros w; unfold sendEvent, saveMessage, synthesizeAndPlay; run_m;
    rewrite Etc;
    (destruct (String.eqb (r_content response) EmptyString); cbn [negb];
     [ mirrors_prim
     | pushed {| role := assistantRole; content := Lit (r_content response);
                 toolCallId := None |} ]).
  intros w. unfold exec, bind, lift, Date_now, update. cbn [fst snd].
  rewrite Etc.
  eapply mirrors_trans; [|apply (respects_bind mirrors Htrans
                                  (forEach (tc :: tcs) (handleToolCall config server))
                                  (fun _ => generateResponse));
                          [apply respects_forEach; auto with mirrors
                          |intros _; auto with mirrors]].
  mirrors_prim.
Qed.

Lemma processUserSpeech_resume_mirrors config sttStart transcribed :
  respects mirrors (processUserSpeech_resume config sttStart transcribed).
Proof.
  intros w. unfold processUserSpeech_resume, sendEvent, saveMessage,
    generateResponse. run_m.
  destruct transcribed as [transcript|e]; [|mirrors_prim].
  destruct (String.eqb transcript EmptyString || Nat.eqb (String.length (trim transcript)) 0);
    [ mirrors_prim
    | pushed {| role := user; content := Lit transcript; toolCallId := None |} ].
Qed.

Lemma handleAudioData_mirrors config data :
  respects mirrors (handleAudioData config data).
Proof. unfold handleAudioData. mirrors_tac. Qed.

Lemma handleControlMessage_mirrors config message :
  respects mirrors (handleControlMessage config message).
Proof. unfold handleControlMessage. mirrors_tac. Qed.

#[local] Hint Resolve generateResponse_resume_mirrors
  processUserSpeech_resume_mirrors handleAudioData_mirrors
  handleControlMessage_mirrors : mirrors.

Lemma onMessage_mirrors config data : respects mirrors (onMessage config data).
Proof. unfold onMessage. mirrors_tac. Qed.

Lemma onClose_mirrors config : respects mirrors (onClose config).
Proof. unfold onClose. mirrors_tac. Qed.

Lemma start_mirrors config : respects mirrors (start config).
Proof.
  intros w. unfold start, setupSocketHandlers, synthesizeAndPlay, saveMessage,
    sendEvent. run_m.
  destruct (Assistant.firstMessage (assistant config)) as [first|];
    [destruct (String.eqb first EmptyString); cbn [negb]|]; try mirrors_prim.
  pushed {| role := assistantRole; content := Lit first; toolCallId := None |}.
Qed.

#[local] Hint Resolve onMessage_mirrors onClose_mirrors start_mirrors : mirrors.

Lemma dispatch_mirrors config e : respects mirrors (dispatch config e).
Proof. unfold dispatch, onError. mirrors_tac. Qed.

Lemma wsRoute_mirrors config : respects mirrors (wsRoute config).
Proof. unfold wsRoute. mirrors_tac. Qed.

Lemma step_mirrors config w te : mirrors w (step config w te).
Proof.
  unfold step. cbv zeta.
  eapply mirrors_trans;
    [|apply (dispatch_mirrors config (snd te)
               (with_pending (settle (snd te) (pending (with_clock (fst te) w)))
                             (with_clock (fst te) w)))].
  mirrors_prim.
Qed.

Lemma run_mirrors config trace : forall w, mirrors w (run config w trace).
Proof.
  unfold run.
  induction trace as [|te rest IH]; intros w; simpl.
  - apply mirrors_refl.
  - eapply mirrors_trans; [apply step_mirrors | apply IH].
Qed.

Lemma persistedTranscript_length w :
  List.length (persistedTranscript w) = count isCallMessage (db w).
Proof.
  unfold persistedTranscript, count.
  induction (db w) as [|op ops IH]; simpl; [reflexivity|].
  destruct op; simpl; rewrite IH; reflexivity.
Qed.

Lemma connected_mirrors config t0 :
  messages (sess (connected config t0))
  = systemMessage config :: tl (messages (sess (connected config t0))) /\
  transcript (connected config t0) = persistedTranscript (connected config t0).
Proof.
  destruct (wsRoute_mirrors config (with_clock t0 (boot config)))
    as (added & Hm & Hp).
  fold (connected config t0) in Hm, Hp.
  unfold transcript. rewrite Hp, Hm. split; reflexivity.
Qed.

(** X1. The history is append-only: whatever events reach a session, in
    whatever state, the messages it held stay where they were, unchanged,
    and new ones are added at the end only. *)
Theorem history_is_append_only
  (config : SessionConfig) (w : World) (trace : list (Z * Event)) :
  exists added,
    messages (sess (run config w trace)) = messages (sess w) ++ added /\
    firstn (List.length (messages (sess w))) (messages (sess (run config w trace)))
    = messages (sess w).
Proof.
  destruct (run_mirrors config trace w) as (added & Hm & _).
  exists added. split; [exact Hm|].
  rewrite Hm, firstn_app, Nat.sub_diag, firstn_all. simpl. apply app_nil_r.
Qed.

(** X2. The transcript is persisted as it is spoken.  At any point of any
    call started by the route, the history is the system prompt followed
    by exactly the turns of the [CallMessage] rows written so far, in the
    same order with the same roles and contents; so the [messageCount]
    that [getInfo] reports is one more than the number of rows. *)
Theorem transcript_is_persisted
  (config : SessionConfig) (t0 : Z) (trace : list (Z * Event)) :
  let w := run config (connected config t0) trace in
  messages (sess w) = systemMessage config :: tl (messages (sess w)) /\
  transcript w = persistedTranscript w /\
  exists info,
    fst (getInfo config w) = Ok info /\
    info_messageCount info = 1 + Z.of_nat (count isCallMessage (db w)).
Proof.
  intros w.
  destruct (connected_mirrors config t0) as (Hhd & Htr).
  destruct (run_mirrors config trace (connected config t0)) as (added & Hm & Hp).
  fold w in Hm, Hp.
  assert (Hw : messages (sess w)
               = systemMessage config
                   :: (tl (messages (sess (connected config t0))) ++ added)).
  { rewrite Hm. rewrite Hhd at 1. reflexivity. }
  assert (Ht : transcript w = persistedTranscript w).
  { unfold transcript. rewrite Hw. cbn [tl]. rewrite map_app, Hp.
    f_equal. exact Htr. }
  split; [rewrite Hw; reflexivity|]. split; [exact Ht|].
  eexists. split; [reflexivity|].
  cbn [info_messageCount].
  rewrite <- persistedTranscript_length, <- Ht. unfold transcript.
  rewrite Hw. cbn [tl List.length]. rewrite length_map. lia.
Qed.

(** ** Every ended call has its final write *)

Lemma finalises_refl config w : finalises config w w.
Proof.
  unfold finalises. repeat split; auto.
  exists []. symmetry. apply app_nil_r.
Qed.

Lemma finalises_trans config w1 w2 w3 :
  finalises config w1 w2 -> finalises config w2 w3 -> finalises config w1 w3.
Proof.
  intros (C1 & S1 & (a & D1) & E1) (C2 & S2 & (b & D2) & E2).
  unfold finalises. repeat split; try congruence.
  - exists (a ++ b). rewrite D2, D1, app_assoc. reflexivity.
  - intros H3. destruct (E2 H3) as [H2|(reason & Hin)].
    + destruct (E1 H2) as [H1|(reason & Hin)]; [left; exact H1|].
      right. exists reason. rewrite D2. apply in_or_app. left. exact Hin.
    + right. exists reason. rewrite <- C1, <- S1. exact Hin.
Qed.

Create HintDb finalises discriminated.

Ltac finalises_prim :=
  unfold finalises; simpl;
  repeat split;
  [ first [ exists []; rewrite app_nil_r; reflexivity | eexists; reflexivity ]
  | intros Hended; left; exact Hended ].

Ltac finalises_tac config :=
  pose proof (finalises_refl config) as Hrefl;
  pose proof (finalises_trans config) as Htrans;
  repeat first [ solve [auto with finalises] | respects_step ];
  finalises_prim.

Lemma sendEvent_finalises config type data :
  respects (finalises config) (sendEvent type data).
Proof. unfold sendEvent. finalises_tac config. Qed.

Lemma sendAudio_finalises config audio :
  respects (finalises config) (sendAudio audio).
Proof. unfold sendAudio. finalises_tac config. Qed.

Lemma saveMessage_finalises config message :
  respects (finalises config) (saveMessage config message).
Proof. unfold saveMessage. finalises_tac config. Qed.

Lemma end_finalises config reason : respects (finalises config) (end_ config reason).
Proof.
  intros w. destruct (isEnded (sess w)) eqn:Hended.
  - unfold exec. rewrite end_when_ended by exact Hended. apply finalises_refl.
  - destruct (end_effect config reason w Hended)
      as (_ & Hs & _ & Hdb & _ & _ & _ & _ & _ & _ & Hc & _).
    unfold finalises. rewrite Hs, Hdb, Hc. repeat split.
    + eexists. reflexivity.
    + intros _. right. exists reason. apply in_or_app. right. left. reflexivity.
Qed.

#[local] Hint Resolve sendEvent_finalises sendAudio_finalises
  saveMessage_finalises end_finalises : finalises.

Lemma handleInterrupt_finalises config : respects (finalises config) handleInterrupt.
Proof. unfold handleInterrupt. finalises_tac config. Qed.

Lemma synthesizeAndPlay_finalises config text llmLatency :
  respects (finalises config) (synthesizeAndPlay text llmLatency).
Proof. unfold synthesizeAndPlay. finalises_tac config. Qed.

Lemma playbackDone_finalises config synthesisId :
  respects (finalises config) (playbackDone synthesisId).
Proof. unfold playbackDone. finalises_tac config. Qed.

Lemma generateResponse_finalises config : respects (finalises config) generateResponse.
Proof. unfold generateResponse. finalises_tac config. Qed.

Lemma processUserSpeech_finalises config :
  respects (finalises config) processUserSpeech.
Proof. unfold processUserSpeech. finalises_tac config. Qed.

#[local] Hint Resolve handleInterrupt_finalises synthesizeAndPlay_finalises
  playbackDone_finalises generateResponse_finalises processUserSpeech_finalises
  : finalises.

Lemma synthesizeAndPlay_resume_finalises config synthesisId ttsStart synthesized :
  respects (finalises config)
           (synthesizeAndPlay_resume synthesisId ttsStart synthesized).
Proof. unfold synthesizeAndPlay_resume. finalises_tac config. Qed.

Lemma handleToolCall_finalises config server toolCall :
  respects (finalises config) (handleToolCall config server toolCall).
Proof. unfold handleToolCall. finalises_tac config. Qed.

#[local] Hint Resolve synthesizeAndPlay_resume_finalises
  handleToolCall_finalises : finalises.

Lemma generateResponse_resume_finalises config server llmStart generated :
  respects (finalises config)
           (generateResponse_resume config server llmStart generated).
Proof. unfold generateResponse_resume. finalises_tac config. Qed.

Lemma processUserSpeech_resume_finalises config sttStart transcribed :
  respects (finalises config) (processUserSpeech_resume config sttStart transcribed).
Proof. unfold processUserSpeech_resume. finalises_tac config. Qed.

Lemma handleAudioData_finalises config data :
  respects (finalises config) (handleAudioData config data).
Proof. unfold handleAudioData. finalises_tac config. Qed.

Lemma handleControlMessage_finalises config message :
  respects (finalises config) (handleControlMessage config message).
Proof. unfold handleControlMessage. finalises_tac config. Qed.

#[local] Hint Resolve generateResponse_resume_finalises
  processUserSpeech_resume_finalises handleAudioData_finalises
  handleControlMessage_finalises : finalises.

Lemma onMessage_finalises config data :
  respects (finalises config) (onMessage config data).
Proof. unfold onMessage. finalises_tac config. Qed.

Lemma onClose_finalises config : respects (finalises config) (onClose config).
Proof. unfold onClose. finalises_tac config. Qed.

#[local] Hint Resolve onMessage_finalises onClose_finalises : finalises.

Lemma dispatch_finalises config e : respects (finalises config) (dispatch config e).
Proof. unfold dispatch, onError. finalises_tac config. Qed.

Lemma connected_accounted config t0 : callAccounted config t0 (connected config t0).
Proof.
  unfold callAccounted, connected, wsRoute, start, setupSocketHandlers,
    synthesizeAndPlay, saveMessage, sendEvent. run_m.
  destruct (Assistant.firstMessage (assistant config)) as [first|];
    [destruct (String.eqb first EmptyString)|]; cbn;
    (repeat split; [lia | | discriminate]);
    rewrite ?in_app_iff; cbn; unfold startWrite; tauto.
Qed.

Lemma step_accounted config t0 w te :
  callAccounted config t0 w -> clock w <= fst te ->
  callAccounted config t0 (step config w te).
Proof.
  intros (Hs & Hc & Hin & He) Hnow. unfold step. cbv zeta.
  remember (with_pending _ (with_clock (fst te) w)) as w2 eqn:Hw2.
  assert (Hs2 : startTime (sess w2) = t0) by (subst w2; exact Hs).
  assert (Hc2 : clock w2 = fst te) by (subst w2; reflexivity).
  assert (Hd2 : db w2 = db w) by (subst w2; reflexivity).
  assert (He2 : isEnded (sess w2) = isEnded (sess w)) by (subst w2; reflexivity).
  destruct (dispatch_finalises config (snd te) w2) as (C & S & (added & D) & E).
  unfold callAccounted. rewrite C, S, D, Hc2, Hs2, Hd2. repeat split.
  - lia.
  - apply in_or_app. left. exact Hin.
  - intros Hended. destruct (E Hended) as [Hbefore|(reason & Hfinal)].
    + rewrite He2 in Hbefore. destruct (He Hbefore) as (reason & endedAt & Hle & Hfinal).
      exists reason, endedAt. split; [exact Hle|]. apply in_or_app. left. exact Hfinal.
    + exists reason, (fst te). split; [lia|].
      rewrite Hc2, Hs2, D, Hd2 in Hfinal. exact Hfinal.
Qed.

Lemma run_accounted config t0 trace :
  forall w, callAccounted config t0 w -> feasible config w trace = true ->
            callAccounted config t0 (run config w trace).
Proof.
  unfold run.
  induction trace as [|te rest IH]; intros w Hw Hf; simpl in *.
  - exact Hw.
  - apply andb_prop in Hf. destruct Hf as (Hen & Hf).
    apply IH; [|exact Hf]. apply step_accounted; [exact Hw|].
    unfold enabled in Hen. apply andb_prop in Hen. destruct Hen as (Hclk & _).
    apply Z.leb_le. exact Hclk.
Qed.



(** ** Syntheses in flight carry distinct ids *)

Lemma keepsSynthesesOrdered_refl w : keepsSynthesesOrdered w w.
Proof. unfold keepsSynthesesOrdered. auto. Qed.

Lemma keepsSynthesesOrdered_trans w1 w2 w3 :
  keepsSynthesesOrdered w1 w2 -> keepsSynthesesOrdered w2 w3 ->
  keepsSynthesesOrdered w1 w3.
Proof. unfold keepsSynthesesOrdered. auto. Qed.

Create HintDb ordered discriminated.

Ltac ordered_prim :=
  unfold keepsSynthesesOrdered, synthesesOrdered, synthesesInFlight; simpl;
  intros [Hnd Hle]; rewrite ?flat_map_app; simpl; rewrite ?app_nil_r;
  split;
  [ exact Hnd
  | first [ exact Hle
          | eapply Forall_impl; [|exact Hle]; simpl; intros; lia ] ].

Ltac ordered_tac :=
  pose proof keepsSynthesesOrdered_refl as Hrefl;
  pose proof keepsSynthesesOrdered_trans as Htrans;
  repeat first [ solve [auto with ordered] | respects_step ];
  ordered_prim.

Lemma sendEvent_ordered type data :
  respects keepsSynthesesOrdered (sendEvent type data).
Proof. unfold sendEvent. ordered_tac. Qed.

Lemma sendAudio_ordered audio : respects keepsSynthesesOrdered (sendAudio audio).
Proof. unfold sendAudio. ordered_tac. Qed.

Lemma saveMessage_ordered config message :
  respects keepsSynthesesOrdered (saveMessage config message).
Proof. unfold saveMessage. ordered_tac. Qed.

Lemma saveRecording_ordered config :
  respects keepsSynthesesOrdered (saveRecording config).
Proof. unfold saveRecording. ordered_tac. Qed.

#[local] Hint Resolve sendEvent_ordered sendAudio_ordered saveMessage_ordered
  saveRecording_ordered : ordered.

Lemma end_ordered config reason : respects keepsSynthesesOrdered (end_ config reason).
Proof. unfold end_. ordered_tac. Qed.

Lemma handleInterrupt_ordered : respects keepsSynthesesOrdered handleInterrupt.
Proof. unfold handleInterrupt. ordered_tac. Qed.

(** The new synthesis captures an id above every id in flight. *)
Lemma synthesizeAndPlay_ordered text llmLatency :
  respects keepsSynthesesOrdered (synthesizeAndPlay text llmLatency).
Proof.
  intros w. unfold synthesizeAndPlay. run_m.
  unfold keepsSynthesesOrdered, synthesesOrdered, synthesesInFlight. simpl.
  intros [Hnd Hle]. rewrite flat_map_app. simpl.
  split.
  - apply NoDup_app; [exact Hnd | repeat constructor; simpl; tauto |].
    intros i Hi [Heq|[]]. subst i.
    rewrite Forall_forall in Hle. specialize (Hle _ Hi). simpl in Hle. lia.
  - apply Forall_app. split.
    + eapply Forall_impl; [|exact Hle]. simpl. intros. lia.
    + repeat constructor. lia.
Qed.

Lemma playbackDone_ordered synthesisId :
  respects keepsSynthesesOrdered (playbackDone synthesisId).
Proof. unfold playbackDone. ordered_tac. Qed.

Lemma generateResponse_ordered : respects keepsSynthesesOrdered generateResponse.
Proof. unfold generateResponse. ordered_tac. Qed.

Lemma processUserSpeech_ordered : respects keepsSynthesesOrdered processUserSpeech.
Proof. unfold processUserSpeech. ordered_tac. Qed.

#[local] Hint Resolve end_ordered handleInterrupt_ordered
  synthesizeAndPlay_ordered playbackDone_ordered generateResponse_ordered
  processUserSpeech_ordered : ordered.

Lemma synthesizeAndPlay_resume_ordered synthesisId ttsStart synthesized :
  respects keepsSynthesesOrdered
           (synthesizeAndPlay_resume synthesisId ttsStart synthesized).
Proof. unfold synthesizeAndPlay_resume. ordered_tac. Qed.

Lemma handleToolCall_ordered config server toolCall :
  respects keepsSynthesesOrdered (handleToolCall config server toolCall).
Proof. unfold handleToolCall. ordered_tac. Qed.

#[local] Hint Resolve synthesizeAndPlay_resume_ordered handleToolCall_ordered
  : ordered.

Lemma generateResponse_resume_ordered config server llmStart generated :
  respects keepsSynthesesOrdered
           (generateResponse_resume config server llmStart generated).
Proof. unfold generateResponse_resume. ordered_tac. Qed.

Lemma processUserSpeech_resume_ordered config sttStart transcribed :
  respects keepsSynthesesOrdered
           (processUserSpeech_resume config sttStart transcribed).
Proof. unfold processUserSpeech_resume. ordered_tac. Qed.

Lemma handleAudioData_ordered config data :
  respects keepsSynthesesOrdered (handleAudioData config data).
Proof. unfold handleAudioData. ordered_tac. Qed.

Lemma handleControlMessage_ordered config message :
  respects keepsSynthesesOrdered (handleControlMessage config message).
Proof. unfold handleControlMessage. ordered_tac. Qed.

#[local] Hint Resolve generateResponse_resume_ordered
  processUserSpeech_resume_ordered handleAudioData_ordered
  handleControlMessage_ordered : ordered.

Lemma onMessage_ordered config data :
  respects keepsSynthesesOrdered (onMessage config data).
Proof. unfold onMessage. ordered_tac. Qed.

Lemma onClose_ordered config : respects keepsSynthesesOrdered (onClose config).
Proof. unfold onClose. ordered_tac. Qed.

Lemma start_ordered config : respects keepsSynthesesOrdered (start config).
Proof. unfold start, setupSocketHandlers. ordered_tac. Qed.

#[local] Hint Resolve onMessage_ordered onClose_ordered start_ordered : ordered.

Lemma dispatch_ordered config e :
  respects keepsSynthesesOrdered (dispatch config e).
Proof. unfold dispatch, onError. ordered_tac. Qed.

Lemma wsRoute_ordered config : respects keepsSynthesesOrdered (wsRoute config).
Proof. unfold wsRoute. ordered_tac. Qed.

(** Settling takes a request out of the list and leaves the others in
    their order. *)
Lemma settle_ids e ps :
  NoDup (flat_map ttsId ps) ->
  NoDup (flat_map ttsId (settle e ps)) /\
  incl (flat_map ttsId (settle e ps)) (flat_map ttsId ps).
Proof.
  induction ps as [|p rest IH]; simpl; intros Hnd.
  - split; [constructor | apply incl_refl].
  - assert (Hrest : NoDup (flat_map ttsId rest)).
    { destruct p; simpl in Hnd; try exact Hnd. inversion Hnd; assumption. }
    destruct (answers e p).
    + split; [exact Hrest|]. apply incl_appr, incl_refl.
    + destruct (IH Hrest) as (Hnd' & Hincl). simpl.
      destruct p as [| |i t x|]; simpl in *;
        try (split; [exact Hnd' | exact Hincl]).
      inversion Hnd as [|? ? Hnotin _]; subst.
      split.
      * constructor; [|exact Hnd']. intros Hi. apply Hnotin, Hincl, Hi.
      * intros j [Hj|Hj]; [left; exact Hj | right; apply Hincl, Hj].
Qed.

Lemma step_ordered config w te :
  synthesesOrdered w -> synthesesOrdered (step config w te).
Proof.
  intros (Hnd & Hle). unfold step. cbv zeta.
  apply (dispatch_ordered config (snd te)).
  unfold synthesesOrdered, synthesesInFlight. simpl.
  destruct (settle_ids (snd te) (pending w) Hnd) as (Hnd' & Hincl).
  split; [exact Hnd'|].
  rewrite Forall_forall in *. intros i Hi. apply Hle, Hincl, Hi.
Qed.

Lemma run_ordered config trace :
  forall w, synthesesOrdered w -> synthesesOrdered (run config w trace).
Proof.
  unfold run.
  induction trace as [|te rest IH]; intros w Hw; simpl.
  - exact Hw.
  - apply IH, step_ordered, Hw.
Qed.

Lemma NoDup_count_le_1 (x : Z) (l : list Z) :
  NoDup l -> (count (Z.eqb x) l <= 1)%nat.
Proof.
  unfold count. induction 1 as [|y l Hnotin Hnd IH]; simpl; [lia|].
  destruct (Z.eqb_spec x y) as [->|Hne]; simpl; [|exact IH].
  assert (Hnone : filter (Z.eqb y) l = []).
  { clear IH Hnd. induction l as [|z l IHl]; simpl; [reflexivity|].
    destruct (Z.eqb_spec y z) as [->|Hz].
    - exfalso. apply Hnotin. left. reflexivity.
    - apply IHl. intros Hin. apply Hnotin. right. exact Hin. }
  rewrite Hnone. simpl. lia.
Qed.

(** X4. The synthesis counter orders the syntheses.  At any point of any
    call started by the route, whatever events arrive, the syntheses
    that have not settled yet captured pairwise distinct ids, none above
    the current counter; so at most one of them can still pass the
    check that lets synthesized audio out. *)
Theorem syntheses_in_flight_have_distinct_ids
  (config : SessionConfig) (t0 : Z) (trace : list (Z * Event)) :
  let w := run config (connected config t0) trace in
  NoDup (synthesesInFlight w) /\
  Forall (fun i => i <= currentSynthesisId (sess w)) (synthesesInFlight w) /\
  (count (Z.eqb (currentSynthesisId (sess w))) (synthesesInFlight w) <= 1)%nat.
Proof.
  intros w.
  assert (H : synthesesOrdered w).
  { apply run_ordered. apply (wsRoute_ordered config).
    unfold synthesesOrdered, synthesesInFlight. simpl.
    split; constructor. }
  destruct H as (Hnd & Hle).
  split; [exact Hnd|]. split; [exact Hle|].
  apply NoDup_count_le_1, Hnd.
Qed.

(** ** A superseded synthesis *)

Lemma playbackDone_stale synthesisId w :
  isCurrent synthesisId w = false -> exec (playbackDone synthesisId) w = w.
Proof.
  unfold isCurrent. intros H. unfold playbackDone. run_m. rewrite H. reflexivity.
Qed.

(** X5. A superseded synthesis stays silent for the rest of the call.
    Once the counter has moved past the id a synthesis captured, as it
    does when the user interrupts, then after any further events the
    playback timer of that synthesis changes nothing (no
    [assistant.audio.done]), and its audio, or its failure, when it
    settles, leaves the session and the socket as they were. *)
Theorem superseded_synthesis_stays_silent
  (config : SessionConfig) (w : World) (synthesisId : Z) :
  synthesisId < currentSynthesisId (sess w) ->
  forall trace now ttsStart synthesized,
    let w' := run config w trace in
    let fired := step config w' (now, TimerFired synthesisId) in
    let settled :=
      step config w' (now, TtsSettled synthesisId ttsStart synthesized) in
    sess fired = sess w' /\ sockLog fired = sockLog w' /\ db fired = db w' /\
    sess settled = sess w' /\ sockLog settled = sockLog w' /\
    db settled = db w' /\
    pending settled
    = settle (TtsSettled synthesisId ttsStart synthesized) (pending w').
Proof.
  intros Hlt trace now ttsStart synthesized w' fired settled.
  pose proof (run_counter config trace w) as Hmono. fold w' in Hmono.
  assert (Hstale : forall w2, sess w2 = sess w' -> isCurrent synthesisId w2 = false).
  { intros w2 Hs. apply isCurrent_false. left. rewrite Hs. lia. }
  subst fired settled. unfold step. cbv zeta. cbn [fst snd dispatch].
  split; [|split; [|split]].
  1-3: rewrite playbackDone_stale by (apply Hstale; reflexivity); reflexivity.
  remember (with_pending _ (with_clock now w')) as w2 eqn:Hw2.
  assert (Hs : sess w2 = sess w') by (subst w2; reflexivity).
  destruct (synthesizeAndPlay_resume_stale synthesisId ttsStart synthesized w2
              (Hstale w2 Hs)) as (Hs' & Hl' & Hp' & _).
  assert (Hdb : db (exec (synthesizeAndPlay_resume synthesisId ttsStart synthesized) w2)
                = db w2).
  { pose proof (synthesizeAndPlay_resume_finalises config synthesisId ttsStart
                  synthesized w2) as (_ & _ & (added & Hadd) & _).
    clear - Hstale Hs.
    unfold synthesizeAndPlay_resume. run_m.
    pose proof (Hstale w2 Hs) as Hc. unfold isCurrent in Hc.
    destruct synthesized as [audio|e].
    - rewrite <- negb_andb, Hc. reflexivity.
    - simpl. rewrite Hc. reflexivity. }
  rewrite Hs', Hl', Hp', Hdb. subst w2. repeat split; reflexivity.
Qed.

(** The first message of the seed call is interrupted while it is being
    synthesized: synthesis 1 is superseded by the counter 2. *)
Lemma superseded_synthesis_stays_silent_witness :
  1 < currentSynthesisId (sess seedInterrupted) /\
  forall trace now ttsStart synthesized,
    let w' := run seedConfig seedInterrupted trace in
    let fired := step seedConfig w' (now, TimerFired 1) in
    let settled := step seedConfig w' (now, TtsSettled 1 ttsStart synthesized) in
    sess fired = sess w' /\ sockLog fired = sockLog w' /\ db fired = db w' /\
    sess settled = sess w' /\ sockLog settled = sockLog w' /\
    db settled = db w' /\
    pending settled = settle (TtsSettled 1 ttsStart synthesized) (pending w').
Proof.
  split; [vm_compute; reflexivity|].
  apply (superseded_synthesis_stays_silent seedConfig seedInterrupted 1).
  vm_compute. reflexivity.
Defined.

(** ** The user's recording *)

Lemma sameUserAudio_refl w : sameUserAudio w w.
Proof. reflexivity. Qed.

Lemma sameUserAudio_trans w1 w2 w3 :
  sameUserAudio w1 w2 -> sameUserAudio w2 w3 -> sameUserAudio w1 w3.
Proof. unfold sameUserAudio. congruence. Qed.

Create HintDb useraudio discriminated.

Ltac useraudio_steps :=
  repeat first [ solve [auto with useraudio] | respects_step ];
  unfold sameUserAudio; reflexivity.

Ltac useraudio_tac :=
  pose proof sameUserAudio_refl as Hrefl; pose proof sameUserAudio_trans as Htrans;
  useraudio_steps.

Lemma sendEvent_useraudio type data : respects sameUserAudio (sendEvent type data).
Proof. unfold sendEvent. useraudio_tac. Qed.

Lemma sendAudio_useraudio audio : respects sameUserAudio (sendAudio audio).
Proof. unfold sendAudio. useraudio_tac. Qed.

Lemma saveMessage_useraudio config message :
  respects sameUserAudio (saveMessage config message).
Proof. unfold saveMessage. useraudio_tac. Qed.

Lemma saveRecording_useraudio config : respects sameUserAudio (saveRecording config).
Proof. unfold saveRecording. useraudio_tac. Qed.

#[local] Hint Resolve sendEvent_useraudio sendAudio_useraudio
  saveMessage_useraudio saveRecording_useraudio : useraudio.

Lemma end_useraudio config reason : respects sameUserAudio (end_ config reason).
Proof. unfold end_. useraudio_tac. Qed.

Lemma handleInterrupt_useraudio : respects sameUserAudio handleInterrupt.
Proof. unfold handleInterrupt. useraudio_tac. Qed.

Lemma synthesizeAndPlay_useraudio text llmLatency :
  respects sameUserAudio (synthesizeAndPlay text llmLatency).
Proof. unfold synthesizeAndPlay. useraudio_tac. Qed.

Lemma playbackDone_useraudio synthesisId :
  respects sameUserAudio (playbackDone synthesisId).
Proof. unfold playbackDone. useraudio_tac. Qed.

Lemma generateResponse_useraudio : respects sameUserAudio generateResponse.
Proof. unfold generateResponse. useraudio_tac. Qed.

Lemma processUserSpeech_useraudio : respects sameUserAudio processUserSpeech.
Proof. unfold processUserSpeech. useraudio_tac. Qed.

#[local] Hint Resolve end_useraudio handleInterrupt_useraudio
  synthesizeAndPlay_useraudio playbackDone_useraudio generateResponse_useraudio
  processUserSpeech_useraudio : useraudio.

Lemma synthesizeAndPlay_resume_useraudio synthesisId ttsStart synthesized :
  respects sameUserAudio (synthesizeAndPlay_resume synthesisId ttsStart synthesized).
Proof. unfold synthesizeAndPlay_resume. useraudio_tac. Qed.

Lemma handleToolCall_useraudio config server toolCall :
  respects sameUserAudio (handleToolCall config server toolCall).
Proof. unfold handleToolCall. useraudio_tac. Qed.

#[local] Hint Resolve synthesizeAndPlay_resume_useraudio
  handleToolCall_useraudio : useraudio.

Lemma generateResponse_resume_useraudio config server llmStart generated :
  respects sameUserAudio (generateResponse_resume config server llmStart generated).
Proof. unfold generateResponse_resume. useraudio_tac. Qed.

Lemma processUserSpeech_resume_useraudio config sttStart transcribed :
  respects sameUserAudio (processUserSpeech_resume config sttStart transcribed).
Proof. unfold processUserSpeech_resume. useraudio_tac. Qed.

Lemma handleControlMessage_useraudio config message :
  respects sameUserAudio (handleControlMessage config message).
Proof. unfold handleControlMessage. useraudio_tac. Qed.

Lemma onClose_useraudio config : respects sameUserAudio (onClose config).
Proof. unfold onClose. useraudio_tac. Qed.

#[local] Hint Resolve generateResponse_resume_useraudio
  processUserSpeech_resume_useraudio handleControlMessage_useraudio
  onClose_useraudio : useraudio.

(** [handleAudioData] keeps the frame first, whatever it does next. *)
Lemma handleAudioData_useraudio config data w :
  userAudioChunks (sess (exec (handleAudioData config data) w))
  = userAudioChunks (sess w) ++ (if isEnded (sess w) then [] else [data]).
Proof.
  pose proof sameUserAudio_refl as Hrefl. pose proof sameUserAudio_trans as Htrans.
  unfold handleAudioData.
  change (exec (bind this ?k) w) with (exec (k (sess w)) w). cbv beta.
  destruct (isEnded (sess w)); [rewrite app_nil_r; reflexivity|].
  match goal with
  | |- context [exec (bind (update ?f) ?k) w] =>
      change (exec (bind (update f) k) w)
        with (exec (k tt) (with_sess (f (sess w)) w))
  end.
  cbv beta.
  match goal with
  | |- context [exec ?m (with_sess ?s w)] =>
      assert (Hrest : respects sameUserAudio m) by useraudio_steps;
      pose proof (Hrest (with_sess s w)) as Hsame
  end.
  unfold sameUserAudio in Hsame. rewrite Hsame.
  reflexivity.
Qed.

Lemma step_useraudio config w te :
  userAudioChunks (sess (step config w te))
  = userAudioChunks (sess w) ++ heardFrame w te.
Proof.
  pose proof sameUserAudio_refl as Hrefl. pose proof sameUserAudio_trans as Htrans.
  destruct te as [now e]. unfold step, heardFrame. cbv zeta. cbn [fst snd].
  remember (with_pending _ (with_clock now w)) as w2 eqn:Hw2.
  assert (Hs : sess w2 = sess w) by (subst w2; reflexivity).
  assert (Hh : handlersInstalled w2 = handlersInstalled w) by (subst w2; reflexivity).
  assert (Hother : respects sameUserAudio (dispatch config e) ->
                   userAudioChunks (sess (exec (dispatch config e) w2))
                   = userAudioChunks (sess w) ++ []).
  { intros H. rewrite (H w2), Hs, app_nil_r. reflexivity. }
  destruct e as [[data|parsed]| | | | | | | |];
    try (apply Hother; unfold dispatch, onError, onMessage; useraudio_steps).
  unfold dispatch. run_m. rewrite Hh.
  destruct (handlersInstalled w); cbn [andb];
    [|rewrite Hs, app_nil_r; reflexivity].
  unfold onMessage. unfold tryCatch.
  pose proof (handleAudioData_useraudio config data w2) as Ha.
  unfold exec in Ha.
  destruct (handleAudioData config data w2) as [[[]|err] w3]; cbn [snd] in *;
    unfold logger, updateWorld; cbn [snd sess with_logs];
    rewrite Ha, Hs; destruct (isEnded (sess w)); reflexivity.
Qed.

(** X6. The user's recording is every frame heard.  Over any sequence
    of events, the user's recording grows by exactly the audio frames
    that reached the session while its listeners were installed and it
    had not ended, in their order: each is kept once, whether or not it
    carried voice, whatever the state, and even when reading it as
    samples failed; no other event touches the recording. *)
Theorem user_recording_is_every_frame_heard
  (config : SessionConfig) (trace : list (Z * Event)) :
  forall w,
    userAudioChunks (sess (run config w trace))
    = userAudioChunks (sess w) ++ heard config w trace.
Proof.
  unfold run.
  induction trace as [|te rest IH]; intros w; simpl.
  - symmetry. apply app_nil_r.
  - rewrite IH, step_useraudio, app_assoc. reflexivity.
Qed.

(** ** After the end *)

Lemma settle_nothing e ps :
  (forall p, answers e p = false) -> settle e ps = ps.
Proof.
  intros H. induction ps as [|p rest IH]; simpl; [reflexivity|].
  rewrite H, IH. reflexivity.
Qed.



(** ** The user's turn *)

Lemma length_string_of_list (l : list ascii) :
  String.length (string_of_list_ascii l) = List.length l.
Proof. induction l as [|c l IH]; simpl; [reflexivity | rewrite IH; reflexivity]. Qed.

Lemma trimStartL_nil (l : list ascii) :
  trimStartL l = [] <-> forallb isWhiteSpace l = true.
Proof.
  induction l as [|c l IH]; simpl; [tauto|].
  destruct (isWhiteSpace c); simpl; [exact IH|].
  split; discriminate.
Qed.

Lemma blank_test (s : string) :
  (String.eqb s EmptyString || Nat.eqb (String.length (trim s)) 0)%bool = isBlank s.
Proof.
  unfold isBlank, trim. rewrite length_string_of_list, length_rev.
  destruct (forallb isWhiteSpace (list_ascii_of_string s)) eqn:Hb.
  - apply trimStartL_nil in Hb. rewrite Hb. simpl. apply orb_true_r.
  - assert (Hne : trimStartL (list_ascii_of_string s) <> []).
    { intros C. apply trimStartL_nil in C. congruence. }
    assert (Hs : String.eqb s EmptyString = false).
    { destruct s; [discriminate Hb | reflexivity]. }
    rewrite Hs. simpl.
    (* the trimmed text starts with a character that is no white space,
       so its reverse ends with it *)
    destruct (trimStartL (list_ascii_of_string s)) as [|c rest] eqn:Et;
      [congruence|].
    assert (Hc : isWhiteSpace c = false).
    { clear - Et. induction (list_ascii_of_string s) as [|d l IH];
        simpl in Et; [discriminate|].
      destruct (isWhiteSpace d) eqn:Hd; [apply IH, Et|].
      inversion Et; subst. exact Hd. }
    assert (Hkeep : forall l, trimStartL (l ++ [c]) <> []).
    { intros l. rewrite trimStartL_nil, forallb_app. simpl. rewrite Hc.
      rewrite andb_false_r. discriminate. }
    simpl rev. specialize (Hkeep (rev rest)).
    destruct (trimStartL (rev rest ++ [c])); [congruence | reflexivity].
Qed.


(** ** Tool calls *)

Lemma toolTurn_refl w : toolTurn w w [] 0.
Proof.
  unfold toolTurn. rewrite app_nil_r. repeat split.
  exists []. rewrite app_nil_r. auto.
Qed.

Lemma toolTurn_trans w1 w2 w3 m1 m2 n1 n2 :
  toolTurn w1 w2 m1 n1 -> toolTurn w2 w3 m2 n2 ->
  toolTurn w1 w3 (m1 ++ m2) (n1 + n2).
Proof.
  intros (M1 & P1 & C1 & I1 & S1 & f1 & E1 & A1 & T1)
         (M2 & P2 & C2 & I2 & S2 & f2 & E2 & A2 & T2).
  unfold toolTurn. rewrite M2, M1, P2, P1, C2, C1, I2, I1, S2, S1, app_assoc.
  repeat split. exists (f1 ++ f2). rewrite E2, E1, app_assoc, existsb_app, A1, A2.
  repeat split. unfold count in *. rewrite filter_app, length_app. lia.
Qed.

Lemma sendEvent_run type data w :
  sendEvent type data w
  = (Ok tt, with_sockLog (sockLog w ++ [(sentEvent type data (clock w),
                                         isOpen (readyState w))]) w).
Proof. reflexivity. Qed.

Lemma handleToolCall_turn config server toolCall w :
  exists w',
    handleToolCall config server toolCall w = (Ok tt, w') /\
    toolTurn w w' (toolMessages config server [toolCall]) 1.
Proof.
  unfold toolMessages, isIntercepted, handleToolCall. cbn [flat_map].
  rewrite app_nil_r. unfold bind at 1. rewrite sendEvent_run.
  cbv beta iota.
  set (called := sentEvent "tool.called" _ _).
  set (w1 := with_sockLog _ w).
  assert (Hcalled : isEvent "assistant.message" called = false
                    /\ isEvent "tool.called" called = true).
  { subst called. unfold sentEvent. rewrite !isEvent_event. split; reflexivity. }
  destruct Hcalled as (Hc1 & Hc2).
  destruct (String.eqb (tc_name toolCall) "endCall").
  - cbn [orb]. destruct (isEnded (sess w1)) eqn:Hended.
    + rewrite end_when_ended by exact Hended. eexists. split; [reflexivity|].
      unfold toolTurn. subst w1. cbn [sess with_sockLog pending clock].
      rewrite app_nil_r. repeat split.
      exists [called]. unfold emitted, count. cbn [sockLog with_sockLog].
      rewrite map_app. cbn [map fst existsb filter].
      rewrite Hc1, Hc2. repeat split.
    + destruct (end_effect config "assistant-ended" w1 Hended)
        as (Hok & Hs & Hl & _ & _ & _ & _ & _ & _ & Hp & Hc & _).
      unfold exec in *.
      destruct (end_ config "assistant-ended" w1) as [o w2]. cbn [fst snd] in *.
      subst o. eexists. split; [reflexivity|].
      unfold toolTurn. rewrite Hs, Hp, Hc. subst w1.
      cbn [sess with_sockLog pending clock messages set_isEnded
           currentSynthesisId state].
      rewrite app_nil_r. repeat split.
      exists [called; callEndedFrame "assistant-ended" (clock w) (startTime (sess w))].
      unfold emitted, count. rewrite Hl. cbn [sockLog with_sockLog].
      rewrite !map_app. cbn [map fst]. rewrite <- app_assoc.
      cbn [existsb filter app]. rewrite Hc1, Hc2. repeat split.
  - cbn [orb]. destruct (String.eqb (tc_name toolCall) "transferCall").
    + rewrite sendEvent_run. eexists. split; [reflexivity|].
      unfold toolTurn. subst w1. cbn [sess with_sockLog pending clock].
      rewrite app_nil_r. repeat split.
      eexists. split; [|split].
      * unfold emitted. cbn [sockLog with_sockLog]. rewrite !map_app.
        cbn [map fst]. rewrite <- app_assoc. reflexivity.
      * cbn [existsb app]. rewrite Hc1. unfold sentEvent.
        rewrite isEvent_event. reflexivity.
      * unfold count. cbn [filter app]. rewrite Hc2. unfold sentEvent.
        rewrite isEvent_event. reflexivity.
    + unfold sendEvent, saveMessage. run_m. eexists. split; [reflexivity|].
      unfold toolTurn. subst w1.
      cbn [sess with_sockLog with_sess with_db pending clock messages
           set_messages currentSynthesisId state].
      repeat split.
      eexists. split; [|split].
      * unfold emitted. cbn [sockLog with_sockLog with_sess with_db].
        rewrite !map_app. cbn [map fst]. rewrite <- app_assoc. reflexivity.
      * cbn [existsb app]. rewrite Hc1. rewrite isEvent_event. reflexivity.
      * unfold count. cbn [filter app]. rewrite Hc2. rewrite isEvent_event.
        reflexivity.
Qed.

Lemma forEach_handleToolCall_turn config server toolCalls :
  forall w,
  exists w',
    forEach toolCalls (handleToolCall config server) w = (Ok tt, w') /\
    toolTurn w w' (toolMessages config server toolCalls) (List.length toolCalls).
Proof.
  induction toolCalls as [|tc rest IH]; intros w.
  - exists w. split; [reflexivity | apply toolTurn_refl].
  - destruct (handleToolCall_turn config server tc w) as (w1 & Hrun & Hturn).
    destruct (IH w1) as (w2 & Hrun' & Hturn').
    exists w2. cbn [forEach]. unfold bind. rewrite Hrun. split; [exact Hrun'|].
    assert (Hcons : toolMessages config server (tc :: rest)
                    = toolMessages config server [tc]
                      ++ toolMessages config server rest).
    { unfold toolMessages. cbn [flat_map]. rewrite app_nil_r. reflexivity. }
    rewrite Hcons.
    change (List.length (tc :: rest)) with (1 + List.length rest)%nat.
    eapply toolTurn_trans; [exact Hturn | exact Hturn'].
Qed.


Lemma count_snoc {A} (p : A -> bool) (l : list A) (x : A) :
  count p (l ++ [x]) = (count p l + (if p x then 1 else 0))%nat.
Proof.
  unfold count. rewrite filter_app, length_app. simpl.
  destruct (p x); reflexivity.
Qed.



(** ** Interruption switched off *)

(** X11. Switching interruption off does not protect the assistant's
    speech.  With [interruptionEnabled] false, a frame with voice that
    arrives while the session is speaking takes the listening branch:
    the state becomes [listening] and the frame is buffered, but the
    counter stays and no [assistant.interrupted] is sent.  The synthesis
    in flight is then dropped when it settles, and its playback timer
    does nothing: the client hears neither the audio nor
    [assistant.audio.done]. *)
Theorem voice_cancels_speech_though_interruption_is_off
  (config : SessionConfig) (w : World) (data : Buffer) :
  isEnded (sess w) = false ->
  state (sess w) = speaking ->
  Assistant.interruptionEnabled (assistant config) = false ->
  detectVoiceActivity data = Ok true ->
  let w' := exec (handleAudioData config data) w in
  state (sess w') = listening /\
  currentSynthesisId (sess w') = currentSynthesisId (sess w) /\
  audioBuffer (sess w') = audioBuffer (sess w) ++ [data] /\
  existsb (isEvent "assistant.interrupted") (since (emitted w) (emitted w'))
  = false /\
  (forall ttsStart synthesized,
     let w'' := exec (synthesizeAndPlay_resume (currentSynthesisId (sess w))
                        ttsStart synthesized) w' in
     sess w'' = sess w' /\ sockLog w'' = sockLog w' /\ pending w'' = pending w') /\
  exec (playbackDone (currentSynthesisId (sess w))) w' = w'.
Proof.
  intros Hlive Hst Hoff Hvoice. cbv zeta.
  remember (exec (handleAudioData config data) w) as w' eqn:Hw'.
  assert (H : state (sess w') = listening /\
              currentSynthesisId (sess w') = currentSynthesisId (sess w) /\
              audioBuffer (sess w') = audioBuffer (sess w) ++ [data] /\
              existsb (isEvent "assistant.interrupted")
                      (since (emitted w) (emitted w')) = false).
  { subst w'. unfold handleAudioData, sendEvent. run_m.
    rewrite Hlive, Hst, Hoff, Hvoice. cbn [SessionState_eqb andb negb].
    destruct (isSpeaking (sess w)); cbn [negb];
      cbn [snd sess with_sess with_sockLog state set_state currentSynthesisId
           set_silenceStart set_isSpeaking set_audioBuffer set_userAudioChunks
           audioBuffer];
      (split; [reflexivity|]); (split; [reflexivity|]); (split; [reflexivity|]);
      new_frames; rewrite ?isEvent_event; reflexivity. }
  destruct H as (Hs & Hi & Hb & He).
  assert (Hstale : isCurrent (currentSynthesisId (sess w)) w' = false).
  { apply isCurrent_false. right. rewrite Hs. discriminate. }
  repeat (split; [assumption|]).
  split.
  - intros ttsStart synthesized.
    destruct (synthesizeAndPlay_resume_stale (currentSynthesisId (sess w))
                ttsStart synthesized w' Hstale) as (A & B & C & _).
    auto.
  - apply playbackDone_stale, Hstale.
Qed.

(** A voiced frame during the first message of an assistant whose
    interruption is switched off. *)
Lemma voice_cancels_speech_witness :
  isEnded (sess steadySpeaking) = false /\
  state (sess steadySpeaking) = speaking /\
  Assistant.interruptionEnabled (assistant steadyConfig) = false /\
  detectVoiceActivity voiceFrame = Ok true /\
  state (sess (exec (handleAudioData steadyConfig voiceFrame) steadySpeaking))
  = listening /\
  exec (playbackDone (currentSynthesisId (sess steadySpeaking)))
       (exec (handleAudioData steadyConfig voiceFrame) steadySpeaking)
  = exec (handleAudioData steadyConfig voiceFrame) steadySpeaking.
Proof.
  assert (Hvoice : detectVoiceActivity voiceFrame = Ok true)
    by (vm_compute; reflexivity).
  pose proof (voice_cancels_speech_though_interruption_is_off
                steadyConfig steadySpeaking voiceFrame
                ltac:(vm_compute; reflexivity) ltac:(vm_compute; reflexivity)
                eq_refl Hvoice) as H.
  cbv zeta in H. destruct H as (Hs & _ & _ & _ & _ & Hd).
  split; [vm_compute; reflexivity|].
  split; [vm_compute; reflexivity|].
  split; [reflexivity|].
  split; [exact Hvoice|].
  split; [exact Hs | exact Hd].
Defined.

(** ** The tool executor *)

Lemma map_set_In k v m k' v' :
  NoDup (map fst m) ->
  (In (k', v') (ToolExecutor.map_set k v m)
   <-> (k' = k /\ v' = v) \/ (k' <> k /\ In (k', v') m)).
Proof.
  induction m as [|[k0 v0] rest IH]; simpl; intros Hnd.
  - split.
    + intros [H|[]]. inversion H. left. auto.
    + intros [[-> ->]|[_ []]]. left. reflexivity.
  - inversion Hnd as [|? ? Hnotin Hnd']; subst.
    destruct (String.eqb_spec k k0) as [->|Hne]; simpl.
    + split.
      * intros [H|H]; [inversion H; left; auto|].
        right. split; [|right; exact H].
        intros ->. apply Hnotin. apply (in_map fst) in H. exact H.
      * intros [[-> ->]|[Hne [H|H]]]; [left; reflexivity | | right; exact H].
        inversion H. congruence.
    + rewrite (IH Hnd'). split.
      * intros [H|[H|[Hk H]]].
        -- inversion H; subst. right. split; [congruence | left; reflexivity].
        -- left. exact H.
        -- right. split; [exact Hk | right; exact H].
      * intros [H|[Hk [H|H]]].
        -- right. left. exact H.
        -- left. exact H.
        -- right. right. split; assumption.
Qed.

Lemma map_set_keys k v m :
  NoDup (map fst m) ->
  NoDup (map fst (ToolExecutor.map_set k v m)) /\
  (forall k', In k' (map fst (ToolExecutor.map_set k v m))
              <-> k' = k \/ In k' (map fst m)) /\
  (List.length (ToolExecutor.map_set k v m) <= S (List.length m))%nat.
Proof.
  induction m as [|[k0 v0] rest IH]; simpl; intros Hnd.
  - split; [repeat constructor; simpl; tauto|]. split; [|lia].
    intros k'. simpl. split; intros [H|H]; auto.
  - inversion Hnd as [|? ? Hnotin Hnd']; subst.
    destruct (String.eqb_spec k k0) as [->|Hne]; simpl.
    + split; [exact Hnd|]. split; [|lia]. intros k'. intuition congruence.
    + destruct (IH Hnd') as (Hnd2 & Hin & Hlen).
      split; [|split; [|lia]].
      * constructor; [|exact Hnd2]. rewrite Hin. intros [H|H]; [congruence|].
        apply Hnotin, H.
      * intros k'. rewrite Hin. intuition congruence.
Qed.

Lemma new_snoc tools tool :
  ToolExecutor.new (tools ++ [tool])
  = ToolExecutor.map_set (Tool.name tool) tool (ToolExecutor.new tools).
Proof. unfold ToolExecutor.new. rewrite fold_left_app. reflexivity. Qed.

Lemma new_keys tools :
  NoDup (map fst (ToolExecutor.new tools)) /\
  (List.length (ToolExecutor.new tools) <= List.length tools)%nat.
Proof.
  induction tools as [|tool tools IH] using rev_ind.
  - split; [constructor | simpl; lia].
  - destruct IH as (Hnd & Hlen). rewrite new_snoc.
    destruct (map_set_keys (Tool.name tool) tool (ToolExecutor.new tools) Hnd)
      as (Hnd' & _ & Hlen').
    split; [exact Hnd'|]. rewrite length_app. simpl. lia.
Qed.

Lemma definitionOf_length tool :
  (List.length (ToolExecutor.definitionOf tool) <= 1)%nat.
Proof.
  unfold ToolExecutor.definitionOf.
  repeat match goal with
         | |- context [if ?b then _ else _] => destruct b
         end; simpl; lia.
Qed.

(** X12. The executor keeps one tool per name, the last.  Built from any
    list of tools, the map holds each name once, with the last tool of
    the list that has this name (at the place where the name first
    appeared); an earlier tool of the same name is gone.  So the model
    is offered at most one definition per distinct tool name. *)
Theorem executor_keeps_the_last_tool_of_a_name (tools : list Tool.t) :
  NoDup (map fst (ToolExecutor.new tools)) /\
  (forall k tool,
     In (k, tool) (ToolExecutor.new tools)
     <-> find (named k) (rev tools) = Some tool) /\
  (List.length (ToolExecutor.getToolDefinitions (ToolExecutor.new tools))
   <= List.length (ToolExecutor.new tools) <= List.length tools)%nat.
Proof.
  split; [apply new_keys|]. split.
  - induction tools as [|t tools IH] using rev_ind; intros k tool.
    + simpl. split; [intros [] | discriminate].
    + rewrite new_snoc, rev_app_distr. simpl.
      rewrite map_set_In by apply new_keys. unfold named at 1.
      destruct (String.eqb_spec (Tool.name t) k) as [Heq|Hne].
      * split.
        -- intros [[_ ->]|[Hk _]]; [reflexivity | congruence].
        -- intros H. left. split; congruence.
      * rewrite IH. split.
        -- intros [[-> _]|[_ H]]; [congruence | exact H].
        -- intros H. right. split; [congruence | exact H].
  - split; [|apply new_keys].
    unfold ToolExecutor.getToolDefinitions.
    induction (ToolExecutor.new tools) as [|kv rest IH]; simpl; [lia|].
    rewrite length_app. pose proof (definitionOf_length (snd kv)). lia.
Qed.

Lemma prefix_query (id : string) :
  String.prefix "queryKnowledge_" ("queryKnowledge_" ++ id)%string = true.
Proof. simpl. destruct id; reflexivity. Qed.

Lemma builtin_names_run nm args server self :
  isBuiltinName nm = true ->
  ToolExecutor.execute server self nm args
  = ToolExecutor.execute noToolServer [] nm args /\
  prop "error" (ToolExecutor.execute server self nm args) = JUndefined.
Proof.
  unfold isBuiltinName, ToolExecutor.execute. intros H.
  destruct (String.eqb nm "endCall"); [split; reflexivity|].
  destruct (String.eqb nm "transferCall"); [split; reflexivity|].
  destruct (String.eqb nm "pressDigits"); [split; reflexivity|].
  simpl in H. rewrite H. split; reflexivity.
Qed.



(** X14. A custom tool is run by the tool server or not at all.  For a
    name that is not built in, the result is either the error value
    "Unknown tool", or what the tool server answered when asked, with
    this name and these arguments, at the URL of a configured tool whose
    function definition carries this name; a failure of the server
    comes back as an error value with its message.  Nothing is thrown
    and no other URL is asked. *)
Theorem custom_tool_runs_on_its_server_or_not_at_all
  (server : ToolExecutor.ToolServer) (self : ToolExecutor.t)
  (nm : string) (args : JValue) :
  isBuiltinName nm = false ->
  ToolExecutor.execute server self nm args = unknownTool nm \/
  exists k tool url,
    In (k, tool) self /\
    ToolExecutor.isFunctionNamed nm tool = true /\
    Tool.serverUrl tool = Some url /\ url <> EmptyString /\
    ToolExecutor.execute server self nm args = served (server url nm args).
Proof.
  unfold isBuiltinName, ToolExecutor.execute. intros H.
  destruct (String.eqb nm "endCall"); [discriminate|].
  destruct (String.eqb nm "transferCall"); [discriminate|].
  destruct (String.eqb nm "pressDigits"); [discriminate|].
  simpl in H. rewrite H.
  destruct (find (ToolExecutor.isFunctionNamed nm) (map snd self)) as [tool|] eqn:Hf;
    [|left; reflexivity].
  apply find_some in Hf. destruct Hf as (Hin & Hnamed).
  apply in_map_iff in Hin. destruct Hin as ([k tool'] & Heq & Hin).
  simpl in Heq. subst tool'.
  destruct (Tool.serverUrl tool) as [url|] eqn:Hurl; [|left; reflexivity].
  destruct (String.eqb_spec url EmptyString) as [->|Hne]; [left; reflexivity|].
  right. exists k, tool, url. repeat split; try assumption.
Qed.

Lemma custom_tool_runs_on_its_server_witness :
  isBuiltinName "getWeather" = false /\
  (ToolExecutor.execute echoServer (ToolExecutor.new [weatherTool])
     "getWeather" emptyObject = unknownTool "getWeather" \/
   exists k tool url,
     In (k, tool) (ToolExecutor.new [weatherTool]) /\
     ToolExecutor.isFunctionNamed "getWeather" tool = true /\
     Tool.serverUrl tool = Some url /\ url <> EmptyString /\
     ToolExecutor.execute echoServer (ToolExecutor.new [weatherTool])
       "getWeather" emptyObject
     = served (echoServer url "getWeather" emptyObject)).
Proof.
  split; [reflexivity|].
  apply (custom_tool_runs_on_its_server_or_not_at_all
           echoServer (ToolExecutor.new [weatherTool]) "getWeather" emptyObject).
  reflexivity.
Defined.

(** X15. The first tool that declares a function name decides.  When
    the first configured tool whose function definition carries the
    name has no server URL, the call is answered "Unknown tool", even if
    a later tool declares the same function and has a server; when it
    has one, that server is asked and no later one. *)
Theorem first_tool_of_a_function_name_decides
  (server : ToolExecutor.ToolServer) (before after : ToolExecutor.t)
  (k : string) (tool : Tool.t) (nm : string) (args : JValue) :
  isBuiltinName nm = false ->
  forallb (fun kv => negb (ToolExecutor.isFunctionNamed nm (snd kv))) before = true ->
  ToolExecutor.isFunctionNamed nm tool = true ->
  ToolExecutor.execute server (before ++ (k, tool) :: after) nm args
  = match Tool.serverUrl tool with
    | Some url => if String.eqb url EmptyString then unknownTool nm
                  else served (server url nm args)
    | None => unknownTool nm
    end.
Proof.
  unfold isBuiltinName, ToolExecutor.execute. intros H Hbefore Htool.
  destruct (String.eqb nm "endCall"); [discriminate|].
  destruct (String.eqb nm "transferCall"); [discriminate|].
  destruct (String.eqb nm "pressDigits"); [discriminate|].
  simpl in H. rewrite H.
  assert (Hf : find (ToolExecutor.isFunctionNamed nm)
                    (map snd (before ++ (k, tool) :: after)) = Some tool).
  { induction before as [|kv rest IH]; simpl in *.
    - rewrite Htool. reflexivity.
    - apply andb_prop in Hbefore. destruct Hbefore as (Hkv & Hrest).
      apply negb_true_iff in Hkv. rewrite Hkv. apply IH, Hrest. }
  rewrite Hf. destruct (Tool.serverUrl tool) as [url|]; [|reflexivity].
  destruct (String.eqb url EmptyString); reflexivity.
Qed.

(** The draft of the weather tool, without a server, is configured
    before the served one: the model's call is not run. *)
Lemma first_tool_of_a_function_name_witness :
  isBuiltinName "getWeather" = false /\
  ToolExecutor.new [weatherDraft; weatherTool]
  = [] ++ ("weather-draft", weatherDraft) :: [("weather", weatherTool)] /\
  ToolExecutor.execute echoServer (ToolExecutor.new [weatherDraft; weatherTool])
    "getWeather" emptyObject
  = unknownTool "getWeather".
Proof.
  split; [reflexivity|]. split; [reflexivity|].
  apply (first_tool_of_a_function_name_decides echoServer []
           [("weather", weatherTool)] "weather-draft" weatherDraft
           "getWeather" emptyObject); reflexivity.
Defined.



(** ** Costs *)

Lemma costsOkFrom_spec (n : nat) :
  forall v, costsOkFrom n v = true ->
            forall d, v <= d < v + Z.of_nat n -> costsOk d = true.
Proof.
  induction n as [|n IH]; intros v H d Hd; [lia|].
  simpl in H. apply andb_prop in H. destruct H as (Hv & Hrest).
  destruct (Z.eq_dec d v) as [->|Hne]; [exact Hv|].
  apply (IH (v + 1) Hrest). lia.
Qed.

Lemma costs_table : costsOkFrom (Z.to_nat 21601) 0 = true.
Proof. vm_compute. reflexivity. Qed.

(** X17. The costs are the rates, rounded.  For every call of up to six
    hours, generation and synthesis each cost one cent per 40 s and
    transcription one cent per 100 s, rounded to the nearest cent, a
    tie going up; the total is their sum.  There is one exception, which
    binary arithmetic makes: at a tie of the transcription cost (a
    duration of 50 s beyond whole 100 s) the cent may be lost, as it is
    at 350 s. *)
Theorem costs_are_the_rounded_rates (d : Z) :
  0 <= d <= 21600 ->
  let c := calculateCosts d in
  cost_llm c = (d + 20) / 40 /\
  cost_tts c = (d + 20) / 40 /\
  (d + 50) / 100 - 1 <= cost_stt c <= (d + 50) / 100 /\
  (d mod 100 <> 50 -> cost_stt c = (d + 50) / 100) /\
  cost_total c = cost_stt c + cost_llm c + cost_tts c /\
  0 <= cost_total c.
Proof.
  intros Hd. cbv zeta.
  pose proof (costsOkFrom_spec _ 0 costs_table d ltac:(lia)) as H.
  unfold costsOk in H. cbv zeta in H.
  repeat (apply andb_prop in H; destruct H as (H & ?)).
  repeat match goal with
         | H : (_ =? _) = true |- _ => apply Z.eqb_eq in H
         | H : (_ <=? _) = true |- _ => apply Z.leb_le in H
         end.
  assert (Hexact : d mod 100 <> 50 ->
                   cost_stt (calculateCosts d) = (d + 50) / 100).
  { intros Hne.
    match goal with
    | H : (_ || _)%bool = true |- _ =>
        apply orb_prop in H; destruct H as [H|H];
        [apply Z.eqb_eq in H; contradiction | apply Z.eqb_eq in H; exact H]
    end. }
  split; [assumption|]. split; [assumption|]. split; [lia|].
  split; [exact Hexact|]. split; [assumption|].
  assert (0 <= (d + 50) / 100) by (apply Z.div_pos; lia).
  assert (0 <= (d + 20) / 40) by (apply Z.div_pos; lia).
  destruct (Z_lt_dec d 50) as [Hlt|Hge].
  - rewrite Hexact in * by (rewrite Z.mod_small; lia). lia.
  - assert (1 <= (d + 50) / 100) by (apply Z.div_le_lower_bound; lia).
    lia.
Qed.

(** A call of 350 s: 3.5 cents of transcription, charged as 3. *)
Lemma costs_are_the_rounded_rates_witness :
  0 <= 350 <= 21600 /\
  cost_stt (calculateCosts 350) = 3 /\
  (350 + 50) / 100 = 4 /\
  (350 + 50) / 100 - 1 <= cost_stt (calculateCosts 350) <= (350 + 50) / 100 /\
  cost_llm (calculateCosts 350) = (350 + 20) / 40.
Proof.
  pose proof (costs_are_the_rounded_rates 350 ltac:(lia)) as H.
  cbv zeta in H. destruct H as (Hl & _ & Hs & _).
  split; [lia|]. split; [vm_compute; reflexivity|].
  split; [reflexivity|]. split; [exact Hs | exact Hl].
Defined.

(** ** Phone numbers *)

Lemma list_ascii_of_string_app (a b : string) :
  list_ascii_of_string (a ++ b)%string
  = list_ascii_of_string a ++ list_ascii_of_string b.
Proof. induction a as [|c a IH]; simpl; [reflexivity | rewrite IH; reflexivity]. Qed.

Lemma string_of_list_ascii_app (l1 l2 : list ascii) :
  string_of_list_ascii (l1 ++ l2)
  = (string_of_list_ascii l1 ++ string_of_list_ascii l2)%string.
Proof. induction l1 as [|c l IH]; simpl; [reflexivity | rewrite IH; reflexivity]. Qed.

Lemma string_length_app (a b : string) :
  String.length (a ++ b)%string = (String.length a + String.length b)%nat.
Proof. induction a as [|c a IH]; simpl; [reflexivity | rewrite IH; reflexivity]. Qed.

Lemma digitsOf_app (a b : string) :
  digitsOf (a ++ b)%string = (digitsOf a ++ digitsOf b)%string.
Proof.
  unfold digitsOf.
  rewrite list_ascii_of_string_app, filter_app, string_of_list_ascii_app.
  reflexivity.
Qed.

Lemma filter_all {A} (p : A -> bool) (l : list A) :
  forallb p l = true -> filter p l = l.
Proof.
  induction l as [|x l IH]; simpl; [reflexivity|].
  intros H. apply andb_prop in H. destruct H as (Hx & Hl).
  rewrite Hx, (IH Hl). reflexivity.
Qed.

Lemma forallb_filter {A} (p : A -> bool) (l : list A) :
  forallb p (filter p l) = true.
Proof.
  induction l as [|x l IH]; simpl; [reflexivity|].
  destruct (p x) eqn:Hx; simpl; [rewrite Hx|]; exact IH.
Qed.

Lemma digitsOf_allDigits (s : string) : allDigits (digitsOf s) = true.
Proof.
  unfold allDigits, digitsOf. rewrite list_ascii_of_string_of_list_ascii.
  apply forallb_filter.
Qed.

Lemma allDigits_digitsOf (s : string) : allDigits s = true -> digitsOf s = s.
Proof.
  unfold allDigits, digitsOf. intros H. rewrite (filter_all _ _ H).
  apply string_of_list_ascii_of_string.
Qed.

Lemma allDigits_app (a b : string) :
  allDigits (a ++ b)%string = allDigits a && allDigits b.
Proof. unfold allDigits. rewrite list_ascii_of_string_app. apply forallb_app. Qed.

Lemma e164Digits_allDigits s c : allDigits (e164Digits s c) = true.
Proof.
  unfold e164Digits.
  destruct (String.eqb c "US" && Nat.eqb (String.length (digitsOf s)) 10).
  - rewrite allDigits_app, digitsOf_allDigits. reflexivity.
  - apply digitsOf_allDigits.
Qed.

Lemma formatE164_digits s c : formatE164 s c = ("+" ++ e164Digits s c)%string.
Proof.
  unfold formatE164, e164Digits. cbv zeta.
  destruct (String.eqb c "US"); [|reflexivity]. cbn [andb].
  destruct (Nat.eqb (String.length (digitsOf s)) 10);
    match goal with
    | |- (if ?b then _ else _) = _ => destruct b; reflexivity
    end.
Qed.

Lemma digitsOf_formatE164 s c : digitsOf (formatE164 s c) = e164Digits s c.
Proof.
  rewrite formatE164_digits, digitsOf_app.
  rewrite (allDigits_digitsOf _ (e164Digits_allDigits s c)). reflexivity.
Qed.

(** In the United States the digits are never ten. *)
Lemma e164Digits_not_ten s :
  Nat.eqb (String.length (e164Digits s "US")) 10 = false.
Proof.
  unfold e164Digits. cbn [String.eqb Ascii.eqb Bool.eqb andb].
  destruct (Nat.eqb (String.length (digitsOf s)) 10) eqn:H.
  - apply Nat.eqb_eq in H. rewrite string_length_app, H. reflexivity.
  - exact H.
Qed.

Lemma e164Digits_again s c : e164Digits (formatE164 s c) c = e164Digits s c.
Proof.
  unfold e164Digits at 1. rewrite digitsOf_formatE164.
  destruct (String.eqb_spec c "US") as [->|Hne]; [|reflexivity].
  rewrite e164Digits_not_ten. reflexivity.
Qed.

(** X18. [formatE164] gives a normal form.  Whatever the text, the
    result is a plus sign followed by digits only; formatting it again
    changes nothing; and only the digits of the text matter, so that
    punctuation and spaces never change the key under which the router
    looks a number up.  Nothing is rejected: a text without a digit
    gives the bare plus sign. *)
Theorem formatE164_is_a_normal_form (phoneNumber defaultCountry : string) :
  let r := formatE164 phoneNumber defaultCountry in
  r = ("+" ++ digitsOf r)%string /\
  allDigits (digitsOf r) = true /\
  formatE164 r defaultCountry = r /\
  formatE164 (digitsOf phoneNumber) defaultCountry = r /\
  (digitsOf phoneNumber = EmptyString -> r = "+").
Proof.
  cbv zeta. split; [|split; [|split; [|split]]].
  - rewrite digitsOf_formatE164. apply formatE164_digits.
  - apply digitsOf_allDigits.
  - rewrite (formatE164_digits (formatE164 _ _)), e164Digits_again.
    symmetry. apply formatE164_digits.
  - rewrite !formatE164_digits. unfold e164Digits.
    rewrite (allDigits_digitsOf _ (digitsOf_allDigits phoneNumber)).
    reflexivity.
  - intros H. rewrite formatE164_digits. unfold e164Digits. rewrite H.
    cbn. rewrite andb_false_r. reflexivity.
Qed.

Lemma prefix_one (c : ascii) (rest : string) :
  String.prefix "1" (String c rest) = true -> c = "1"%char.
Proof.
  intros H. apply prefix_correct in H. simpl in H. inversion H. reflexivity.
Qed.

Lemma eleven_digits_reassemble (d : string) :
  String.length d = 11%nat -> String.prefix "1" d = true ->
  ("1" ++ slice 1 4 d ++ slice 4 7 d ++ sliceFrom 7 d)%string = d.
Proof.
  intros Hlen Hp.
  destruct d as [|c d]; [discriminate Hlen|].
  apply prefix_one in Hp. subst c.
  do 11 (destruct d as [|? d]; try discriminate Hlen).
  reflexivity.
Qed.

Lemma allDigits_substring (n m : nat) (s : string) :
  allDigits s = true -> allDigits (String.substring n m s) = true.
Proof.
  unfold allDigits. revert n m.
  induction s as [|c s IH]; intros n m H.
  - destruct n, m; reflexivity.
  - simpl in H. apply andb_prop in H. destruct H as (Hc & Hs).
    destruct n as [|n]; [destruct m as [|m]|]; simpl.
    + reflexivity.
    + rewrite Hc. apply (IH 0%nat m Hs).
    + apply (IH n m Hs).
Qed.

Lemma formatPhoneDisplay_digits (r : string) :
  allDigits (digitsOf r) = true ->
  digitsOf (formatPhoneDisplay r) = digitsOf r.
Proof.
  intros Hall. unfold formatPhoneDisplay. cbv zeta.
  destruct (Nat.eqb (String.length (digitsOf r)) 11
            && String.prefix "1" (digitsOf r)) eqn:Hc; [|reflexivity].
  apply andb_prop in Hc. destruct Hc as (Hlen & Hp).
  apply Nat.eqb_eq in Hlen.
  rewrite !digitsOf_app.
  unfold slice, sliceFrom.
  rewrite !(allDigits_digitsOf (String.substring _ _ _))
    by (apply allDigits_substring, Hall).
  change (digitsOf "+1 (") with "1". change (digitsOf ") ") with EmptyString.
  change (digitsOf "-") with EmptyString. cbn [String.append].
  apply (eleven_digits_reassemble _ Hlen Hp).
Qed.

(** X19. A number can be read back from its display form.  For any
    text, the number that [formatE164] makes of it for the United
    States survives [formatPhoneDisplay]: formatting the display form
    gives the same number again.  A national number of ten digits gets
    the country code 1, and so equals the number made of its
    eleven-digit form. *)
Theorem displayed_number_reads_back (phoneNumber : string) :
  let r := formatE164 phoneNumber "US" in
  formatE164 (formatPhoneDisplay r) "US" = r /\
  (String.length (digitsOf phoneNumber) = 10%nat ->
   r = ("+1" ++ digitsOf phoneNumber)%string /\
   formatE164 ("1" ++ digitsOf phoneNumber) "US" = r /\
   formatPhoneDisplay r
   = ("+1 (" ++ slice 0 3 (digitsOf phoneNumber) ++ ") "
      ++ slice 3 6 (digitsOf phoneNumber) ++ "-"
      ++ sliceFrom 6 (digitsOf phoneNumber))%string).
Proof.
  cbv zeta. split.
  - rewrite (formatE164_digits (formatPhoneDisplay _)).
    unfold e164Digits at 1.
    rewrite formatPhoneDisplay_digits
      by (rewrite digitsOf_formatE164; apply e164Digits_allDigits).
    rewrite digitsOf_formatE164, e164Digits_not_ten. cbn [andb String.eqb].
    rewrite andb_false_r. symmetry. apply formatE164_digits.
  - intros Hten.
    assert (Hr : formatE164 phoneNumber "US"
                 = ("+1" ++ digitsOf phoneNumber)%string).
    { rewrite formatE164_digits. unfold e164Digits.
      rewrite Hten. reflexivity. }
    split; [exact Hr|]. split.
    + rewrite Hr. rewrite formatE164_digits. unfold e164Digits.
      rewrite digitsOf_app.
      rewrite (allDigits_digitsOf _ (digitsOf_allDigits phoneNumber)).
      change (digitsOf "1") with "1".
      rewrite string_length_app, Hten. cbn. reflexivity.
    + unfold formatPhoneDisplay. cbv zeta. rewrite digitsOf_formatE164, Hr.
      unfold e164Digits. rewrite Hten. cbn [String.eqb Ascii.eqb Bool.eqb andb Nat.eqb].
      rewrite string_length_app, Hten. cbn [String.length Nat.add Nat.eqb].
      assert (Hp : String.prefix "1" ("1" ++ digitsOf phoneNumber) = true)
        by (apply prefix_correct; simpl; destruct (digitsOf phoneNumber);
            reflexivity).
      rewrite Hp. cbn [andb].
      unfold slice, sliceFrom. rewrite string_length_app, Hten. reflexivity.
Qed.

(** ** Twilio's status callback *)

Lemma inList_In (s : string) (l : list string) :
  inList s l = true <-> In s l.
Proof.
  unfold inList. rewrite existsb_exists. split.
  - intros (x & Hin & Heq). apply String.eqb_eq in Heq. subst. exact Hin.
  - intros H. exists s. split; [exact H | apply String.eqb_refl].
Qed.

Lemma mappedStatus_cases (s : string) :
  (inList s twilioStatuses = true /\
   exists v, mappedStatus s = StatusString v /\ In v writtenStatuses /\
             (inList v ["completed"; "failed"] = inList s finalTwilioStatuses)) \/
  (inList s twilioStatuses = false /\ inList s finalTwilioStatuses = false /\
   mappedStatus s
   = if inList s objectPrototypeNames then StatusMember s else StatusString s).
Proof.
  unfold mappedStatus, member, twilioStatuses, statusMap, finalTwilioStatuses,
    inList.
  cbn [ownProperty map fst existsb].
  repeat match goal with
         | |- context [String.eqb s ?k] =>
             destruct (String.eqb_spec s k) as [->|?];
             [ left; split; [reflexivity|]; eexists;
               split; [reflexivity|]; split; [cbn; tauto | reflexivity] | ]
         end.
  right. cbn [orb]. split; [reflexivity|]. split; [reflexivity|].
  match goal with
  | |- context [if ?b then Inherited s else Absent] => destruct b
  end; reflexivity.
Qed.

(** X20. What Twilio's status callback writes.  Without a call that
    matches the SID nothing is written.  For each status Twilio
    reports in the map, the status written is one of queued, ringing,
    in-progress, completed, failed and no-answer, never busy: busy and
    canceled become failed; [endedAt] is set to the time of the callback
    exactly for Twilio's completed, busy, failed and canceled.  Any
    other text is written through as it came (so [initiated], which the
    map does not list, becomes the status of the row) unless it names a
    member of [Object.prototype], which is then written in place of a
    string.  [durationSeconds] is written exactly when [CallDuration] is
    a non-empty text. *)
Theorem twilio_status_is_mapped
  (body : TwilioStatusBody) (now : Z) (id : string) :
  let s := body_CallStatus body in
  let upd := statusUpdate body now in
  handleTwilioStatus None body now = [] /\
  handleTwilioStatus (Some id) body now = [(id, upd)] /\
  (In s twilioStatuses ->
   exists v, upd_status upd = StatusString v /\ In v writtenStatuses /\
             v <> "busy") /\
  (upd_endedAt upd = Some now <-> In s finalTwilioStatuses) /\
  (upd_endedAt upd = None <-> ~ In s finalTwilioStatuses) /\
  (~ In s twilioStatuses ->
   upd_status upd
   = if inList s objectPrototypeNames then StatusMember s else StatusString s) /\
  (upd_durationSeconds upd = None
   <-> CallDuration body = None \/ CallDuration body = Some EmptyString).
Proof.
  cbv zeta. split; [reflexivity|]. split; [reflexivity|].
  unfold statusUpdate. cbn [upd_status upd_endedAt upd_durationSeconds].
  set (s := body_CallStatus body).
  assert (Hended : (isString (mappedStatus s) "completed"
                    || isString (mappedStatus s) "failed")%bool
                   = inList s finalTwilioStatuses).
  { destruct (mappedStatus_cases s) as [(_ & v & Hv & _ & Hf)|(_ & Hnf & Hm)].
    - rewrite Hv, <- Hf. cbn. rewrite orb_false_r. reflexivity.
    - rewrite Hm, Hnf.
      destruct (inList s objectPrototypeNames); [reflexivity|].
      cbn [isString].
      unfold finalTwilioStatuses, inList in Hnf. cbn [existsb] in Hnf.
      repeat (apply orb_false_elim in Hnf; destruct Hnf as (? & Hnf)).
      repeat match goal with H : String.eqb _ _ = false |- _ => rewrite H; clear H end.
      reflexivity. }
  rewrite Hended.
  split; [|split; [|split; [|split]]].
  - intros Hin. apply inList_In in Hin.
    destruct (mappedStatus_cases s) as [(_ & v & Hv & Hw & _)|(Hn & _)];
      [|congruence].
    exists v. split; [exact Hv|]. split; [exact Hw|].
    intros ->. cbn in Hw. repeat destruct Hw as [Hw|Hw]; discriminate || exact Hw.
  - rewrite <- inList_In. destruct (inList s finalTwilioStatuses);
      split; congruence.
  - rewrite <- inList_In. destruct (inList s finalTwilioStatuses);
      split; congruence.
  - intros Hnot.
    destruct (mappedStatus_cases s) as [(Hin & _)|(_ & _ & Hm)]; [|exact Hm].
    apply inList_In in Hin. contradiction.
  - destruct (CallDuration body) as [d|]; [|tauto].
    destruct (String.eqb_spec d EmptyString) as [->|Hne].
    + tauto.
    + split; [discriminate|]. intros [H|H]; [discriminate | congruence].
Qed.

(** ** The session routes *)



(** ** Control messages that are none *)



(** ** A turn of the assistant *)

(** X23. A spoken turn completes by its timer.  When the audio of the
    current synthesis arrives on an open socket, the client gets
    [assistant.speaking] and the audio, and a timer is set for the
    length of the audio at 48 bytes per millisecond plus 200 ms, at
    least 500 ms; the session goes on speaking.  When that timer fires,
    and nothing has interrupted, the session returns to [listening]
    with an empty audio buffer and the client gets
    [assistant.audio.done]. *)
Theorem spoken_turn_completes_by_its_timer
  (config : SessionConfig) (w : World) (synthesisId ttsStart t1 t2 : Z)
  (audio : Buffer) :
  isCurrent synthesisId w = true ->
  isOpen (readyState w) = true ->
  let due := t1 + Z.max 500 (buf_length audio / 48 + 200) in
  let w1 := step config w (t1, TtsSettled synthesisId ttsStart (Ok audio)) in
  let w2 := step config w1 (t2, TimerFired synthesisId) in
  In (PTimer synthesisId due) (pending w1) /\
  t1 + 500 <= due /\
  state (sess w1) = speaking /\
  (due <= t2 -> enabled w1 (t2, TimerFired synthesisId) = true) /\
  since (emitted w) (emitted w2)
  = [ sentEvent "assistant.speaking" emptyObject t1;
      BinaryFrame audio;
      sentEvent "assistant.audio.done" emptyObject t2 ] /\
  state (sess w2) = listening /\
  isSpeaking (sess w2) = false /\
  audioBuffer (sess w2) = [].
Proof.
  unfold isCurrent. intros Hcur Hopen. cbv zeta.
  apply andb_prop in Hcur. destruct Hcur as (Hst & Hid).
  apply SessionState_eqb_eq in Hst.
  set (due := t1 + Z.max 500 (buf_length audio / 48 + 200)).
  remember (step config w (t1, TtsSettled synthesisId ttsStart (Ok audio)))
    as w1 eqn:Hw1.
  assert (H1 : sess w1
               = set_assistantAudioChunks
                   (assistantAudioChunks (sess w) ++ [audio; audio])
                   (set_ttsLatency (ttsLatency (sess w) ++ [t1 - ttsStart])
                                   (sess w)) /\
               sockLog w1
               = sockLog w ++ [(sentEvent "assistant.speaking" emptyObject t1, true);
                               (BinaryFrame audio, true)] /\
               pending w1
               = settle (TtsSettled synthesisId ttsStart (Ok audio)) (pending w)
                 ++ [PTimer synthesisId due] /\
               clock w1 = t1 /\ readyState w1 = readyState w).
  { subst w1 due. unfold step. cbv zeta. cbn [fst snd dispatch].
    unfold synthesizeAndPlay_resume, sendAudio, sendEvent. run_m.
    cbn [sess with_pending with_clock state currentSynthesisId].
    rewrite Hst, Hid. cbn -[Z.max Z.div settle].
    rewrite Hopen. cbn -[Z.max Z.div settle]. rewrite Hopen.
    cbn -[Z.max Z.div settle]. rewrite <- !app_assoc.
    repeat split; reflexivity. }
  destruct H1 as (Hs1 & Hl1 & Hp1 & Hc1 & Hr1).
  split; [rewrite Hp1; apply in_or_app; right; left; reflexivity|].
  split; [subst due; lia|].
  split; [rewrite Hs1; exact Hst|].
  split.
  { intros Hdue. unfold enabled. cbn [fst snd]. rewrite Hc1.
    apply andb_true_intro. split; [apply Z.leb_le; subst due; lia|].
    apply existsb_exists. exists (PTimer synthesisId due).
    split; [rewrite Hp1; apply in_or_app; right; left; reflexivity|].
    cbn. rewrite Z.eqb_refl. apply Z.leb_le. exact Hdue. }
  assert (Hst1 : state (sess w1) = speaking) by (rewrite Hs1; exact Hst).
  assert (Hid1 : (currentSynthesisId (sess w1) =? synthesisId) = true)
    by (rewrite Hs1; exact Hid).
  clear Hw1.
  unfold step. cbv zeta. cbn [fst snd dispatch].
  unfold playbackDone, sendEvent. run_m.
  cbn [sess with_pending with_clock]. rewrite Hst1, Hid1.
  cbn -[settle]. unfold emitted. cbn -[settle]. rewrite Hl1, Hr1, Hopen.
  rewrite !map_app, <- !app_assoc, since_app.
  repeat split; reflexivity.
Qed.

(** The first message of the seed call is synthesized and played. *)
Lemma spoken_turn_completes_witness :
  isCurrent 1 seedStarted = true /\
  isOpen (readyState seedStarted) = true /\
  In (PTimer 1 1700)
     (pending (step seedConfig seedStarted (1200, TtsSettled 1 1000 (Ok someAudio)))) /\
  state (sess (step seedConfig
                 (step seedConfig seedStarted
                    (1200, TtsSettled 1 1000 (Ok someAudio)))
                 (1800, TimerFired 1)))
  = listening.
Proof.
  pose proof (spoken_turn_completes_by_its_timer
                seedConfig seedStarted 1 1000 1200 1800 someAudio
                ltac:(vm_compute; reflexivity) ltac:(vm_compute; reflexivity))
    as H.
  cbv zeta in H. destruct H as (Hp & _ & _ & _ & _ & Hs & _).
  split; [vm_compute; reflexivity|]. split; [vm_compute; reflexivity|].
  split; [exact Hp | exact Hs].
Defined.

(** ** Inbound calls *)

(** X24. An inbound Twilio call is connected with its row, or told
    goodbye without one.  Whatever the webhook carries and whatever the
    database answers, the handler either creates exactly one call, of
    type inbound and status ringing, with the numbers as they were
    received, and answers with a single stream to the engine's socket
    for that call; or it creates none and answers with one sentence and
    a hang-up.  It never throws. *)
Theorem inbound_twilio_call_is_connected_or_told_goodbye
  (env : Surroundings) (body : TwilioInboundBody) :
  let rows := fst (handleTwilioInbound env body) in
  let twiml := snd (handleTwilioInbound env body) in
  (rows = [] /\ isGoodbye twiml = true) \/
  (exists data callId,
     rows = [data] /\
     create env data = Ok callId /\
     cd_type data = "inbound" /\ cd_status data = "ringing" /\
     cd_fromNumber data = in_From body /\ cd_toNumber data = in_To body /\
     cd_assistantId data <> None /\
     twiml = [ConnectStream
                (interpolated (VOICE_ENGINE_WS_URL env) ++ "/ws/" ++ callId)
                (interpolated (API_URL env) ++ "/telephony/twilio/status")]).
Proof.
  cbv zeta. unfold handleTwilioInbound. cbv zeta.
  destruct (findFirst env "twilio" (formatE164 (in_To body) "US"))
    as [[phoneNumber|]|e]; try (left; split; reflexivity).
  destruct (orElse _ _) as [assistantId|]; [|left; split; reflexivity].
  match goal with
  | |- context [create env ?d] => destruct (create env d) as [callId|e] eqn:Hc
  end; [|left; split; reflexivity].
  right. eexists. exists callId. split; [reflexivity|].
  split; [exact Hc|]. repeat split. discriminate.
Qed.

(** X25. A number assigned to a squad is answered on Twilio and
    rejected on Telnyx.  When the number that was dialled has no
    assistant of its own but a squad with an entry assistant, the
    Twilio handler creates the call for that entry assistant, with the
    squad, and connects it; the Telnyx handler, which does not look at
    the squad, rejects the call as busy and creates nothing. *)
Theorem squad_number_is_answered_on_twilio_only
  (env : Surroundings) (phoneNumber : PhoneNumber.t) (entry callId : string)
  (body : TwilioInboundBody) (payload : TelnyxPayload) :
  PhoneNumber.inboundAssistant phoneNumber = None ->
  PhoneNumber.inboundSquad phoneNumber = Some (Some entry) ->
  findFirst env "twilio" (formatE164 (in_To body) "US") = Ok (Some phoneNumber) ->
  findFirst env "telnyx" (formatE164 (tx_to payload) "US") = Ok (Some phoneNumber) ->
  (forall data, create env data = Ok callId) ->
  (exists data,
     handleTwilioInbound env body
     = ([data],
        [ConnectStream
           (interpolated (VOICE_ENGINE_WS_URL env) ++ "/ws/" ++ callId)
           (interpolated (API_URL env) ++ "/telephony/twilio/status")]) /\
     cd_assistantId data = Some entry /\
     cd_squadId data = Some (PhoneNumber.inboundSquadId phoneNumber) /\
     cd_status data = "ringing") /\
  handleTelnyxInbound env "call.initiated" payload
  = ([Reject (call_control_id payload) "USER_BUSY"], [], Ok tt).
Proof.
  intros Hnone Hsquad Htw Htx Hcreate. split.
  - unfold handleTwilioInbound. cbv zeta. rewrite Htw, Hnone, Hsquad.
    cbn [orElse]. rewrite Hcreate. eexists. split; [reflexivity|].
    repeat split.
  - unfold handleTelnyxInbound. cbv zeta.
    cbn [String.eqb Ascii.eqb Bool.eqb]. rewrite Htx, Hnone. reflexivity.
Qed.

Lemma squad_number_is_answered_on_twilio_only_witness :
  PhoneNumber.inboundAssistant squadNumber = None /\
  PhoneNumber.inboundSquad squadNumber = Some (Some "assistant-7") /\
  (exists data,
     handleTwilioInbound squadSurroundings
       {| in_CallSid := "CA1"; in_From := "+15550001"; in_To := "(555) 123-4567" |}
     = ([data],
        [ConnectStream "wss://engine.example/ws/call-9"
                       "https://api.example/telephony/twilio/status"]) /\
     cd_assistantId data = Some "assistant-7" /\
     cd_squadId data = Some (Some "squad-1") /\
     cd_status data = "ringing") /\
  handleTelnyxInbound squadSurroundings "call.initiated"
    {| call_control_id := "cc-1"; call_session_id := "cs-1";
       tx_from := "+15550001"; tx_to := "(555) 123-4567" |}
  = ([Reject "cc-1" "USER_BUSY"], [], Ok tt).
Proof.
  split; [reflexivity|]. split; [reflexivity|].
  apply (squad_number_is_answered_on_twilio_only squadSurroundings squadNumber
           "assistant-7" "call-9"
           {| in_CallSid := "CA1"; in_From := "+15550001";
              in_To := "(555) 123-4567" |}
           {| call_control_id := "cc-1"; call_session_id := "cs-1";
              tx_from := "+15550001"; tx_to := "(555) 123-4567" |});
    reflexivity.
Defined.

(** ** An answer without text *)

(** X26. An empty answer of the model ends the turn without a word.  When
    the model answers with no text and no tool call, nothing is stored,
    sent or synthesized and nothing is asked again: only the latency is
    noted.  The state stays as it was, so a session that was thinking
    goes on thinking with no request of this turn in flight. *)
Theorem empty_answer_leaves_the_session_as_it_was
  (config : SessionConfig) (server : ToolExecutor.ToolServer) (w : World)
  (now llmStart : Z) (toolCalls : option (list ToolCall)) :
  toolCalls = None \/ toolCalls = Some [] ->
  let e := LlmSettled llmStart
             (Ok {| r_content := EmptyString; r_toolCalls := toolCalls |}) server in
  let w' := step config w (now, e) in
  sess w' = set_llmLatency (llmLatency (sess w) ++ [now - llmStart]) (sess w) /\
  state (sess w') = state (sess w) /\
  messages (sess w') = messages (sess w) /\
  sockLog w' = sockLog w /\ db w' = db w /\ logs w' = logs w /\
  pending w' = settle e (pending w).
Proof.
  intros Hnone. cbv zeta. unfold step. cbv zeta. cbn [fst snd dispatch].
  unfold generateResponse_resume. run_m. cbn [r_toolCalls r_content].
  destruct Hnone as [->| ->]; cbn; repeat split; reflexivity.
Qed.

(** The model has nothing to say to the seed call's user. *)
Lemma empty_answer_witness :
  (@None (list ToolCall) = None \/ @None (list ToolCall) = Some []) /\
  state (sess seedHeard) = thinking /\
  state (sess (step seedConfig seedHeard
                 (3300, LlmSettled 3000
                          (Ok {| r_content := EmptyString; r_toolCalls := None |})
                          noToolServer)))
  = state (sess seedHeard).
Proof.
  pose proof (empty_answer_leaves_the_session_as_it_was
                seedConfig noToolServer seedHeard 3300 3000 None
                (or_introl eq_refl)) as H.
  cbv zeta in H. destruct H as (_ & Hs & _).
  split; [left; reflexivity|]. split; [vm_compute; reflexivity | exact Hs].
Defined.
